(** * Deployment orchestration, health monitoring and alerting

    A shallow embedding of the class [DeploymentMonitoringSystem]
    (deployment scripts and system monitoring of the 11-agent system) and
    the properties of its deployment pipeline, health aggregation, alert
    evaluation and dispatch, and metrics retention.

    Conventions of the embedding:
    - the instance fields ([deploymentStatus], [systemHealth],
      [alertThresholds], [monitoringMetrics]) are the record [System];
      health-check result objects live in a [heap] and are referred to by
      address, because [systemHealth] stores a reference to them;
    - everything outside the process (the wall clock, [process.env], the
      file system, child processes, HTTP probes, the notification
      transports, and the methods the class calls but does not define or
      only mocks) is an [Env] of oracles, indexed by the number of external
      events that happened before ([ticks]);
    - an [async] method is a computation in a state-and-exception monad;
      [await] is sequencing, a rejected promise is [Throw]; a call that is
      not awaited runs up to its first [await] before its caller goes
      on. *)

From Stdlib Require Import ZArith QArith.
From stdpp Require Import gmap strings pretty list fin_maps sorting.

(** ** JavaScript values and helpers *)

Module Js.

(** The values a JSON request body or an error field can hold, up to what
    the code distinguishes: their truthiness. *)
Inductive Val :=
| undefined
| null
| boolean (b : bool)
| number (q : Q)
| str (s : string)
| object.

(** [!!v] *)
Definition truthy (v : Val) : bool :=
  match v with
  | undefined | null => false
  | boolean b => b
  | number q => negb (Qeq_bool q 0)
  | str s => negb (String.eqb s "")
  | object => true
  end.

(** [obj[key]] followed by a truthiness test: a missing key reads
    [undefined]. *)
Definition truthy_at (o : gmap string Val) (key : string) : bool :=
  match o !! key with
  | Some v => truthy v
  | None => false
  end.

(** [process.env[key]]: the values are strings. *)
Definition env_truthy (o : gmap string string) (key : string) : bool :=
  match o !! key with
  | Some s => negb (String.eqb s "")
  | None => false
  end.

(** [Math.min(...xs)]; [None] stands for [Infinity], the result on no
    arguments. *)
Definition Math_min (xs : list Z) : option Z :=
  foldr (λ x acc, Some (match acc with
                        | Some y => Z.min x y
                        | None => x
                        end)) None xs.

(** [x > y] on numbers. *)
Definition gt (x y : Q) : bool := negb (Qle_bool x y).

(** [x > y] where [x] is a number or [undefined] ([None]): [undefined]
    converts to [NaN], which is greater than nothing. *)
Definition gt_or_undefined (x : option Q) (y : Q) : bool :=
  match x with
  | Some q => gt q y
  | None => false
  end.

(** [x > y] where [x] is a number or [null] ([None]): [null] converts
    to 0. *)
Definition gt_or_null (x : option Q) (y : Q) : bool :=
  match x with
  | Some q => gt q y
  | None => gt 0 y
  end.

End Js.

(** ** Data model *)

Module DeploymentStep.
Record t := mk { name : string; status : string; timestamp : Z }.
End DeploymentStep.

Module DeploymentJob.
Record t := mk {
  status : string;
  started_at : Z;
  environment : string;
  steps : list DeploymentStep.t;
  completed_at : option Z;
  success : option bool;
  error : option string;
  failed_at : option Z
}.

Definition push_step (st : DeploymentStep.t) (d : t) : t :=
  mk (status d) (started_at d) (environment d) (steps d ++ [st])
     (completed_at d) (success d) (error d) (failed_at d).

(** [d.status = 'completed'; d.completed_at = now; d.success = true] *)
Definition complete (now : Z) (d : t) : t :=
  mk "completed" (started_at d) (environment d) (steps d)
     (Some now) (Some true) (error d) (failed_at d).

(** [d.status = 'failed'; d.error = msg; d.failed_at = now] *)
Definition fail (msg : string) (now : Z) (d : t) : t :=
  mk "failed" (started_at d) (environment d) (steps d)
     (completed_at d) (success d) (Some msg) (Some now).
End DeploymentJob.

(** A probe result, with the fields the class reads: [status],
    [response_time] (a number, or [None] for the [null] of a probe that
    threw) and [error]. [response_time] is read for agents only. *)
Module Health.
Record t := mk { status : string; response_time : option Z; error : Js.Val }.
End Health.

Module Infrastructure.
Record t := mk {
  cpu_usage : option Q;
  memory_usage : option Q;
  disk_usage : option Q
}.
(** the object literal [{}] *)
Definition empty : t := mk None None None.
End Infrastructure.

Module AlertThreshold.
Record t := mk { warning : Q; critical : Q }.
End AlertThreshold.

(** The template literals of the alert messages, kept as template and
    holes. *)
Inductive Message :=
| ServiceUnhealthy (service : string) (error : Js.Val)
| AgentNotResponding (agentId : string) (error : Js.Val)
| ResponseTimeCritical (agentId : string) (response_time : option Z)
    (critical : Q)
| CpuUsageCritical (cpu_usage : option Q) (critical : Q).

(** The field that names what an alert is about: [service], [agent] or
    [resource]. *)
Inductive Subject :=
| service (s : string)
| agent (a : string)
| resource (r : string).

#[global] Instance Subject_eq_dec : EqDecision Subject.
Proof. solve_decision. Defined.

Module Alert.
Record t := mk {
  type : string;
  severity : string;
  subject : Subject;
  message : Message;
  timestamp : Z
}.
End Alert.

Module HealthResults.
Record t := mk {
  timestamp : Z;
  overall_status : string;
  services : list (string * Health.t);
  agents : list (string * Health.t);
  infrastructure : Infrastructure.t;
  alerts : list Alert.t;
  error : option string
}.

Definition set_services v (h : t) : t :=
  mk (timestamp h) (overall_status h) v (agents h) (infrastructure h)
     (alerts h) (error h).
Definition set_agents v (h : t) : t :=
  mk (timestamp h) (overall_status h) (services h) v (infrastructure h)
     (alerts h) (error h).
Definition set_infrastructure v (h : t) : t :=
  mk (timestamp h) (overall_status h) (services h) (agents h) v
     (alerts h) (error h).
Definition set_overall_status v (h : t) : t :=
  mk (timestamp h) v (services h) (agents h) (infrastructure h)
     (alerts h) (error h).
Definition set_alerts v (h : t) : t :=
  mk (timestamp h) (overall_status h) (services h) (agents h)
     (infrastructure h) v (error h).
Definition set_error v (h : t) : t :=
  mk (timestamp h) (overall_status h) (services h) (agents h)
     (infrastructure h) (alerts h) v.
End HealthResults.

(** One group of readings of a metric sample (system, agents, api or
    business counters): named numbers. *)
Definition Readings := list (string * Q).

Module MetricSample.
Record t := mk {
  timestamp : Z;
  system : Readings;
  agents : Readings;
  api : Readings;
  business : Readings
}.
End MetricSample.

(** What [systemHealth] maps a key to: a status string, a date, or a
    reference to a health-check result object. *)
Inductive HealthEntry :=
| HStatus (s : string)
| HDate (d : Z)
| HRef (r : nat).

(** The instance fields, and the heap of health-check result objects. *)
Record System := mkSystem {
  deploymentStatus : gmap string DeploymentJob.t;
  systemHealth : gmap string HealthEntry;
  alertThresholds : gmap string AlertThreshold.t;
  monitoringMetrics : gmap Z MetricSample.t;
  heap : list HealthResults.t
}.

Definition with_deploymentStatus f (s : System) : System :=
  mkSystem (f (deploymentStatus s)) (systemHealth s) (alertThresholds s)
           (monitoringMetrics s) (heap s).
Definition with_systemHealth f (s : System) : System :=
  mkSystem (deploymentStatus s) (f (systemHealth s)) (alertThresholds s)
           (monitoringMetrics s) (heap s).
Definition with_alertThresholds f (s : System) : System :=
  mkSystem (deploymentStatus s) (systemHealth s) (f (alertThresholds s))
           (monitoringMetrics s) (heap s).
Definition with_monitoringMetrics f (s : System) : System :=
  mkSystem (deploymentStatus s) (systemHealth s) (alertThresholds s)
           (f (monitoringMetrics s)) (heap s).
Definition with_heap f (s : System) : System :=
  mkSystem (deploymentStatus s) (systemHealth s) (alertThresholds s)
           (monitoringMetrics s) (f (heap s)).

(** The notification transports. *)
Inductive Channel := Email | WhatsApp.

(** The world outside the process: how many external events happened, and
    what the notification transports accepted. *)
Record World := mkWorld {
  ticks : nat;
  outbox : list (Channel * Alert.t)
}.

(** The body of the response of [getSystemHealth]. *)
Module SystemHealthReport.
Record t := mk {
  overall_status : option HealthEntry;
  uptime : Z;
  last_check : option Z;
  system_version : string;
  environment : option string;
  agents_deployed : nat;
  services_running : nat;
  health_score : Z
}.
End SystemHealthReport.

(** [req.body] of [deployFullSystem]: both fields are optional. *)
Module DeployRequest.
Record t := mk {
  environment : option string;
  config : option (gmap string Js.Val)
}.
End DeployRequest.

(** The body of the response of [deployFullSystem]. *)
Module DeployAccepted.
Record t := mk {
  success : bool;
  deployment_id : string;
  status : string;
  estimated_duration : string;
  tracking_url : string
}.
End DeployAccepted.

(** What a handler sends: [res.json(body)], or
    [res.status(500).json({ error })]. *)
Inductive Response (A : Type) :=
| json (body : A)
| status_500 (error : string).
Arguments json {A} body.
Arguments status_500 {A} error.

(** ** Effects *)

Inductive Result (A : Type) :=
| Ok (a : A)
| Throw (msg : string).
Arguments Ok {A} a.
Arguments Throw {A} msg.

(** A computation over a state [S] that returns or throws; the state
    changes made before a throw persist. *)
Definition Eff (S A : Type) : Type := S → Result A * S.

Abbreviation IO := (Eff World).
Abbreviation M := (Eff (System * World)).

Module Eff.
Section ops.
Context {S : Type}.

Definition ret {A} (a : A) : Eff S A := λ s, (Ok a, s).

Definition bind {A B} (k : A → Eff S B) (m : Eff S A) : Eff S B :=
  λ s, match m s with
       | (Ok a, s') => k a s'
       | (Throw e, s') => (Throw e, s')
       end.

Definition throw {A} (msg : string) : Eff S A := λ s, (Throw msg, s).

(** [try { body } catch (error) { handler(error.message) }] *)
Definition try_catch {A} (body : Eff S A) (handler : string → Eff S A)
  : Eff S A :=
  λ s, match body s with
       | (Ok a, s') => (Ok a, s')
       | (Throw e, s') => handler e s'
       end.

Definition gets {A} (f : S → A) : Eff S A := λ s, (Ok (f s), s).
Definition modify (f : S → S) : Eff S unit := λ s, (Ok tt, f s).
End ops.

(** An external-world computation run from a method of the class. *)
Definition lift {A} (io : IO A) : M A :=
  λ '(sys, w), let '(r, w') := io w in (r, (sys, w')).
End Eff.

#[global] Instance Eff_ret {S} : MRet (Eff S) := @Eff.ret S.
#[global] Instance Eff_bind {S} : MBind (Eff S) := @Eff.bind S.

(** [for (const x of xs) { await body(x) }]: stops at the first throw. *)
Fixpoint for_of {S A} (xs : list A) (body : A → Eff S unit) : Eff S unit :=
  match xs with
  | [] => mret tt
  | x :: rest => body x ;; for_of rest body
  end.

(** A loop that collects one result per element, in order. *)
Fixpoint for_collect {S A B} (xs : list A) (body : A → Eff S B)
  : Eff S (list B) :=
  match xs with
  | [] => mret []
  | x :: rest => y ← body x; ys ← for_collect rest body; mret (y :: ys)
  end.

(** ** The environment *)

Record Env := mkEnv {
  (** the wall clock read by [Date.now()] and [new Date()] *)
  clock : nat → Z;
  (** [Date.prototype.toISOString] *)
  toISOString : Z → string;
  process_env : gmap string string;
  (** [fs.writeFile] of the deployment configuration *)
  fs_writeFile : gmap string Js.Val → nat → Result unit;
  (** [child_process.exec] of a command line *)
  exec : string → nat → Result unit;
  (** the methods listed under "Mock implementation methods"
      ([deployService], [seedInitialData], [runIntegrationTests], ...),
      by method name and argument; the mocks of the source are the
      environment that always returns *)
  stage_impl : string → string → nat → Result unit;
  (** [fetch] of an agent's health endpoint: [response.ok], or a rejection *)
  fetch_health : string → nat → Result bool;
  (** the service probes the class calls but does not define
      ([checkVoiceEngineHealth], ...), by method name *)
  service_probe : string → nat → Result Health.t;
  (** [checkInfrastructureHealth], called but not defined by the class *)
  infrastructure_probe : nat → Result Infrastructure.t;
  (** [alertTransporter.sendMail] *)
  sendMail : Alert.t → nat → Result unit;
  (** the WhatsApp transport behind [sendWhatsAppAlert] *)
  whatsapp_send : Alert.t → nat → Result unit;
  (** the metric getters ([getSystemMetrics], [getAgentMetrics],
      [getAPIMetrics], [getBusinessMetrics]), by method name *)
  metric_source : string → nat → Result Readings
}.

Section WithEnv.
Variable E : Env.

(** One external event: its outcome is the oracle's at the current tick. *)
Definition external {A} (o : nat → Result A) : IO A :=
  λ w, (o (ticks w), mkWorld (S (ticks w)) (outbox w)).

(** [Date.now()], [new Date()] *)
Definition Date_now : IO Z := external (λ n, Ok (clock E n)).

(** A transport call that is recorded in the outbox when it succeeds. *)
Definition deliver (c : Channel) (o : Alert.t → nat → Result unit)
    (alert : Alert.t) : IO unit :=
  λ w, match o alert (ticks w) with
       | Ok _ => (Ok tt, mkWorld (S (ticks w)) (outbox w ++ [(c, alert)]))
       | Throw e => (Throw e, mkWorld (S (ticks w)) (outbox w))
       end.

(** *** Deployment *)

Definition updateDeploymentStep (deploymentId stepName status : string)
  : M unit :=
  deployment ← Eff.gets (λ s, deploymentStatus s.1 !! deploymentId);
  match deployment with
  | Some d =>
      now ← Eff.lift Date_now;
      Eff.modify (λ s,
        (with_deploymentStatus
           <[deploymentId :=
               DeploymentJob.push_step
                 (DeploymentStep.mk stepName status now) d]> s.1, s.2))
  | None => mret tt
  end.

Definition requiredVars : list string :=
  [ "SUPABASE_URL"; "SUPABASE_ANON_KEY"; "CLAUDE_API_KEY";
    "ELEVENLABS_API_KEY"; "OPENAI_API_KEY"; "WHATSAPP_ACCESS_TOKEN";
    "FLUTTERWAVE_SECRET_KEY"; "GMAIL_CLIENT_ID" ].

(** [{ NODE_ENV: environment, ODIA_VERSION: '1.0.0',
       DEPLOYMENT_TIME: ..., ...config }]: the keys of [config] win. *)
Definition envConfig (environment : string) (now : Z)
    (config : gmap string Js.Val) : gmap string Js.Val :=
  config ∪ <["NODE_ENV" := Js.str environment]>
             (<["ODIA_VERSION" := Js.str "1.0.0"]>
                (<["DEPLOYMENT_TIME" := Js.str (toISOString E now)]> ∅)).

Definition missing_var (cfg : gmap string Js.Val) (varName : string)
  : bool :=
  negb (Js.env_truthy (process_env E) varName)
  && negb (Js.truthy_at cfg varName).

Definition setupEnvironment (environment : string)
    (config : gmap string Js.Val) : IO unit :=
  now ← Date_now;
  let cfg := envConfig environment now config in
  for_of requiredVars (λ varName,
    if missing_var cfg varName
    then Eff.throw ("Missing required environment variable: " +:+ varName)
    else mret tt) ;;
  external (fs_writeFile E cfg).

Definition seedInitialData : IO unit :=
  external (stage_impl E "seedInitialData" "").

Definition runDatabaseMigrations : IO unit :=
  Eff.try_catch
    (external (exec E "npx supabase db reset --linked") ;;
     external (exec E "npx supabase db push --linked") ;;
     seedInitialData)
    (λ _, Eff.throw "Database migration failed").

Definition deployService (serviceName : string) : IO unit :=
  external (stage_impl E "deployService" serviceName).

Definition deployCoreServices : IO unit :=
  for_of [ "voice-processing"; "email-automation"; "payment-processing";
           "legal-services"; "business-intelligence";
           "whatsapp-integration" ] deployService.

Definition agentIds : list string :=
  [ "lexi-pro"; "atlas-corporate"; "miss-legal"; "paymaster";
    "crossai-emergency"; "miss-academic"; "tech-support";
    "luxury-service"; "med-assist"; "edu-kids"; "gov-connect" ].

Definition deployAgent (agentId : string) : IO unit :=
  Eff.try_catch
    (external (stage_impl E "loadAgentConfig" agentId) ;;
     external (stage_impl E "deployAgentService" agentId) ;;
     external (stage_impl E "configureAgentEndpoints" agentId) ;;
     external (stage_impl E "testAgentDeployment" agentId) ;;
     external (stage_impl E "updateAgentStatus" agentId))
    (λ msg, Eff.throw ("Failed to deploy agent " +:+ agentId +:+ ": "
                       +:+ msg)).

Definition deployAllAgents : IO unit := for_of agentIds deployAgent.

Definition runIntegrationTests : IO unit :=
  external (stage_impl E "runIntegrationTests" "").
Definition verifySystemHealth : IO unit :=
  external (stage_impl E "verifySystemHealth" "").
Definition activateProduction : IO unit :=
  external (stage_impl E "activateProduction" "").

(** Only logs; it reads [deployment.environment], which throws a
    [TypeError] when the job is unknown. *)
Definition sendDeploymentNotification (deploymentId : string) : M unit :=
  deployment ← Eff.gets (λ s, deploymentStatus s.1 !! deploymentId);
  match deployment with
  | Some _ => mret tt
  | None =>
      Eff.throw "Cannot read properties of undefined (reading 'environment')"
  end.

(** [deployment.status = ...; ...; deployment.<date field> = new Date()]
    on the job object of [deploymentId]; a [TypeError] at the first
    assignment when there is none. *)
Definition update_job (deploymentId : string)
    (f : Z → DeploymentJob.t → DeploymentJob.t) : M unit :=
  deployment ← Eff.gets (λ s, deploymentStatus s.1 !! deploymentId);
  match deployment with
  | Some d =>
      now ← Eff.lift Date_now;
      Eff.modify (λ s,
        (with_deploymentStatus <[deploymentId := f now d]> s.1, s.2))
  | None =>
      Eff.throw "Cannot set properties of undefined (setting 'status')"
  end.

(** The body of the [try] block of [executeFullDeployment]. *)
Definition executeFullDeployment_try (deploymentId environment : string)
    (config : gmap string Js.Val) : M unit :=
  updateDeploymentStep deploymentId "Environment Setup" "running" ;;
  Eff.lift (setupEnvironment environment config) ;;
  updateDeploymentStep deploymentId "Environment Setup" "completed" ;;
  updateDeploymentStep deploymentId "Database Migration" "running" ;;
  Eff.lift runDatabaseMigrations ;;
  updateDeploymentStep deploymentId "Database Migration" "completed" ;;
  updateDeploymentStep deploymentId "Core Services" "running" ;;
  Eff.lift deployCoreServices ;;
  updateDeploymentStep deploymentId "Core Services" "completed" ;;
  updateDeploymentStep deploymentId "AI Agents" "running" ;;
  Eff.lift deployAllAgents ;;
  updateDeploymentStep deploymentId "AI Agents" "completed" ;;
  updateDeploymentStep deploymentId "Integration Testing" "running" ;;
  Eff.lift runIntegrationTests ;;
  updateDeploymentStep deploymentId "Integration Testing" "completed" ;;
  updateDeploymentStep deploymentId "Health Verification" "running" ;;
  Eff.lift verifySystemHealth ;;
  updateDeploymentStep deploymentId "Health Verification" "completed" ;;
  updateDeploymentStep deploymentId "Production Activation" "running" ;;
  Eff.lift activateProduction ;;
  updateDeploymentStep deploymentId "Production Activation" "completed" ;;
  update_job deploymentId DeploymentJob.complete ;;
  sendDeploymentNotification deploymentId.

Definition executeFullDeployment (deploymentId environment : string)
    (config : gmap string Js.Val) : M unit :=
  Eff.try_catch
    (executeFullDeployment_try deploymentId environment config)
    (λ msg,
      update_job deploymentId (DeploymentJob.fail msg) ;;
      sendDeploymentNotification deploymentId).

(** Statements run one after the other; a throw ends the sequence. *)
Fixpoint run_actions (actions : list (M unit)) : M unit :=
  match actions with
  | [] => mret tt
  | a :: rest =>
      match rest with
      | [] => a
      | _ :: _ => a ;; run_actions rest
      end
  end.

(** The statements of the [try] block of [executeFullDeployment], one by
    one and in order. *)
Definition deployment_actions (deploymentId environment : string)
    (config : gmap string Js.Val) : list (M unit) :=
  [ updateDeploymentStep deploymentId "Environment Setup" "running";
    Eff.lift (setupEnvironment environment config);
    updateDeploymentStep deploymentId "Environment Setup" "completed";
    updateDeploymentStep deploymentId "Database Migration" "running";
    Eff.lift runDatabaseMigrations;
    updateDeploymentStep deploymentId "Database Migration" "completed";
    updateDeploymentStep deploymentId "Core Services" "running";
    Eff.lift deployCoreServices;
    updateDeploymentStep deploymentId "Core Services" "completed";
    updateDeploymentStep deploymentId "AI Agents" "running";
    Eff.lift deployAllAgents;
    updateDeploymentStep deploymentId "AI Agents" "completed";
    updateDeploymentStep deploymentId "Integration Testing" "running";
    Eff.lift runIntegrationTests;
    updateDeploymentStep deploymentId "Integration Testing" "completed";
    updateDeploymentStep deploymentId "Health Verification" "running";
    Eff.lift verifySystemHealth;
    updateDeploymentStep deploymentId "Health Verification" "completed";
    updateDeploymentStep deploymentId "Production Activation" "running";
    Eff.lift activateProduction;
    updateDeploymentStep deploymentId "Production Activation" "completed";
    update_job deploymentId DeploymentJob.complete;
    sendDeploymentNotification deploymentId ].

(** What is left of [executeFullDeployment] after its first [await]: the
    statements after the first [updateDeploymentStep], inside the same
    [try]. *)
Definition executeFullDeployment_rest (deploymentId environment : string)
    (config : gmap string Js.Val) : M unit :=
  Eff.try_catch
    (run_actions (tail (deployment_actions deploymentId environment
                                           config)))
    (λ msg,
      update_job deploymentId (DeploymentJob.fail msg) ;;
      sendDeploymentNotification deploymentId).

(** *** Health monitoring *)

(** [initializeMonitoring]: the alert thresholds and the initial health
    entries. *)
Definition initializeMonitoring : M unit :=
  Eff.modify (λ s, (with_alertThresholds
    (λ m, <["disk_usage" := AlertThreshold.mk 85 95]>
            (<["memory_usage" := AlertThreshold.mk 80 90]>
               (<["cpu_usage" := AlertThreshold.mk 70 85]>
                  (<["error_rate" := AlertThreshold.mk (5 # 100) (1 # 10)]>
                     (<["response_time" :=
                          AlertThreshold.mk 2000 5000]> m))))) s.1, s.2)) ;;
  Eff.modify (λ s, (with_systemHealth
    <["overall_status" := HStatus "healthy"]> s.1, s.2)) ;;
  (now ← Eff.lift Date_now;
   Eff.modify (λ s, (with_systemHealth
     <["last_check" := HDate now]> s.1, s.2))) ;;
  (now ← Eff.lift Date_now;
   Eff.modify (λ s, (with_systemHealth
     <["uptime_start" := HDate now]> s.1, s.2))).

(** [Object.values(o).filter(x => x.status === 'unhealthy').length] *)
Definition count_unhealthy (o : list (string * Health.t)) : nat :=
  length (filter (λ x, Health.status x = "unhealthy") o.*2).

(** [alerts.filter(a => a.severity === 'critical').length] *)
Definition count_critical (alerts : list Alert.t) : nat :=
  length (filter (λ a, Alert.severity a = "critical") alerts).

Definition evaluateOverallHealth (healthResults : HealthResults.t)
  : string :=
  let unhealthyServices :=
    count_unhealthy (HealthResults.services healthResults) in
  let unhealthyAgents :=
    count_unhealthy (HealthResults.agents healthResults) in
  let criticalAlerts :=
    count_critical (HealthResults.alerts healthResults) in
  if (0 <? criticalAlerts) || (2 <? unhealthyServices) then "critical"
  else if (0 <? unhealthyServices) || (3 <? unhealthyAgents) then "degraded"
  else if 0 <? unhealthyAgents then "warning"
  else "healthy".

(** The argument is [None] for a falsy [healthCheck] (no check stored
    yet). *)
Definition calculateHealthScore (healthCheck : option HealthResults.t)
  : Z :=
  match healthCheck with
  | None => 0
  | Some hc =>
      let score := 100 in
      let unhealthyServices := count_unhealthy (HealthResults.services hc) in
      let score := score - Z.of_nat unhealthyServices * 10 in
      let unhealthyAgents := count_unhealthy (HealthResults.agents hc) in
      let score := score - Z.of_nat unhealthyAgents * 5 in
      let criticalAlerts := count_critical (HealthResults.alerts hc) in
      let score := score - Z.of_nat criticalAlerts * 15 in
      Z.max 0 score
  end%Z.

Definition checkAgentHealth (agentId : string) : IO Health.t :=
  Eff.try_catch
    (startTime ← Date_now;
     isHealthy ← external (fetch_health E agentId);
     endTime ← Date_now;
     _ ← Date_now;
     mret (Health.mk (if isHealthy : bool then "healthy" else "unhealthy")
                     (Some (endTime - startTime)%Z)
                     (if isHealthy then Js.null
                      else Js.str "Endpoint not responding")))
    (λ msg,
      _ ← Date_now;
      mret (Health.mk "unhealthy" None (Js.str msg))).

(** The probes run one after the other, each awaited before the next
    starts. *)
Definition checkAgentsHealth : IO (list (string * Health.t)) :=
  for_collect agentIds (λ agentId,
    h ← checkAgentHealth agentId; mret (agentId, h)).

(** A mock in the source: it reads the clock and reports [healthy]. *)
Definition checkDatabaseHealth : IO Health.t :=
  Eff.try_catch
    (_ ← Date_now;
     _ ← Date_now;
     _ ← Date_now;
     mret (Health.mk "healthy" None Js.undefined))
    (λ msg, mret (Health.mk "unhealthy" None (Js.str msg))).

Definition checkServicesHealth : IO (list (string * Health.t)) :=
  database ← checkDatabaseHealth;
  voice_engine ← external (service_probe E "checkVoiceEngineHealth");
  email_system ← external (service_probe E "checkEmailSystemHealth");
  payment_system ← external (service_probe E "checkPaymentSystemHealth");
  whatsapp_api ← external (service_probe E "checkWhatsAppAPIHealth");
  knowledge_base ← external (service_probe E "checkKnowledgeBaseHealth");
  legal_services ← external (service_probe E "checkLegalServicesHealth");
  mret [ ("database", database); ("voice_engine", voice_engine);
         ("email_system", email_system);
         ("payment_system", payment_system);
         ("whatsapp_api", whatsapp_api);
         ("knowledge_base", knowledge_base);
         ("legal_services", legal_services) ].

(** *** Alerts *)

(** [this.alertThresholds.get(key).critical]: a [TypeError] when the key
    has no threshold. *)
Definition critical_threshold (thresholds : gmap string AlertThreshold.t)
    (key : string) : IO Q :=
  match thresholds !! key with
  | Some t => mret (AlertThreshold.critical t)
  | None =>
      Eff.throw "Cannot read properties of undefined (reading 'critical')"
  end.

Definition service_alert (entry : string * Health.t)
  : IO (list Alert.t) :=
  let '(service_, health) := entry in
  if bool_decide (Health.status health = "unhealthy") then
    now ← Date_now;
    mret [ Alert.mk "service_down" "critical" (service service_)
             (ServiceUnhealthy service_ (Health.error health)) now ]
  else mret [].

Definition agent_alerts (thresholds : gmap string AlertThreshold.t)
    (entry : string * Health.t) : IO (list Alert.t) :=
  let '(agentId, health) := entry in
  down ← (if bool_decide (Health.status health = "unhealthy") then
            now ← Date_now;
            mret [ Alert.mk "agent_down" "high" (agent agentId)
                     (AgentNotResponding agentId (Health.error health))
                     now ]
          else mret []);
  critical ← critical_threshold thresholds "response_time";
  slow ← (if Js.gt_or_null (inject_Z <$> Health.response_time health)
                           critical
          then
            critical' ← critical_threshold thresholds "response_time";
            now ← Date_now;
            mret [ Alert.mk "performance_degradation" "high" (agent agentId)
                     (ResponseTimeCritical agentId
                        (Health.response_time health) critical') now ]
          else mret []);
  mret (down ++ slow).

Definition infrastructure_alerts
    (thresholds : gmap string AlertThreshold.t)
    (infra : Infrastructure.t) : IO (list Alert.t) :=
  critical ← critical_threshold thresholds "cpu_usage";
  if Js.gt_or_undefined (Infrastructure.cpu_usage infra) critical then
    critical' ← critical_threshold thresholds "cpu_usage";
    now ← Date_now;
    mret [ Alert.mk "resource_critical" "critical" (resource "cpu")
             (CpuUsageCritical (Infrastructure.cpu_usage infra) critical')
             now ]
  else mret [].

(** The alerts are pushed in this order: services, then agents (for each
    agent [agent_down] before [performance_degradation]), then
    infrastructure. [thresholds] is [this.alertThresholds]. *)
Definition checkForAlerts (thresholds : gmap string AlertThreshold.t)
    (healthResults : HealthResults.t) : IO (list Alert.t) :=
  from_services ←
    for_collect (HealthResults.services healthResults) service_alert;
  from_agents ←
    for_collect (HealthResults.agents healthResults)
                (agent_alerts thresholds);
  from_infra ←
    infrastructure_alerts thresholds
      (HealthResults.infrastructure healthResults);
  mret (concat from_services ++ concat from_agents ++ from_infra).

Definition sendEmailAlert (alert : Alert.t) : IO unit :=
  deliver Email (sendMail E) alert.

Definition sendWhatsAppAlert (alert : Alert.t) : IO unit :=
  deliver WhatsApp (whatsapp_send E) alert.

(** The [try] encloses the whole loop. *)
Definition sendHealthAlerts (alerts : list Alert.t) : IO unit :=
  Eff.try_catch
    (for_of alerts (λ alert,
       sendEmailAlert alert ;;
       if bool_decide (Alert.severity alert = "critical")
       then sendWhatsAppAlert alert
       else mret tt))
    (λ _, mret tt).

(** *** The comprehensive health check *)

(** [const healthResults = { ... }]: a new object on the heap. *)
Definition alloc (h : HealthResults.t) : M nat :=
  λ s, (Ok (length (heap s.1)), (with_heap (λ hp, hp ++ [h]) s.1, s.2)).

(** Reading through a reference. *)
Definition deref (r : nat) : M HealthResults.t :=
  o ← Eff.gets (λ s, heap s.1 !! r);
  match o with
  | Some h => mret h
  | None => Eff.throw "Cannot read properties of undefined"
  end.

(** [healthResults.<field> = v]: the object is updated in place. *)
Definition assign (r : nat) (f : HealthResults.t → HealthResults.t)
  : M unit :=
  Eff.modify (λ s, (with_heap (alter f r) s.1, s.2)).

(** [this.systemHealth.set(key, v)] *)
Definition systemHealth_set (key : string) (v : HealthEntry) : M unit :=
  Eff.modify (λ s, (with_systemHealth <[key := v]> s.1, s.2)).

(** The body of the [try] block of [performHealthChecks];
    [healthResults] is the address of the result object. *)
Definition performHealthChecks_try (healthResults : nat) : M unit :=
  services ← Eff.lift checkServicesHealth;
  assign healthResults (HealthResults.set_services services) ;;
  agents ← Eff.lift checkAgentsHealth;
  assign healthResults (HealthResults.set_agents agents) ;;
  infra ← Eff.lift (external (infrastructure_probe E));
  assign healthResults (HealthResults.set_infrastructure infra) ;;
  hr ← deref healthResults;
  assign healthResults
    (HealthResults.set_overall_status (evaluateOverallHealth hr)) ;;
  hr ← deref healthResults;
  thresholds ← Eff.gets (λ s, alertThresholds s.1);
  alerts ← Eff.lift (checkForAlerts thresholds hr);
  assign healthResults (HealthResults.set_alerts alerts) ;;
  systemHealth_set "last_health_check" (HRef healthResults) ;;
  hr ← deref healthResults;
  systemHealth_set "overall_status"
    (HStatus (HealthResults.overall_status hr)) ;;
  hr ← deref healthResults;
  if 0 <? length (HealthResults.alerts hr)
  then Eff.lift (sendHealthAlerts (HealthResults.alerts hr))
  else mret tt.

Definition performHealthChecks : M unit :=
  now ← Eff.lift Date_now;
  healthResults ←
    alloc (HealthResults.mk now "healthy" [] [] Infrastructure.empty []
                            None);
  Eff.try_catch
    (performHealthChecks_try healthResults)
    (λ msg,
      assign healthResults (HealthResults.set_overall_status "unhealthy") ;;
      assign healthResults (HealthResults.set_error (Some msg))).

(** What the read endpoints see: [systemHealth.get('last_health_check')],
    followed through the heap. *)
Definition last_health_check (s : System) : option HealthResults.t :=
  match systemHealth s !! "last_health_check" with
  | Some (HRef r) => heap s !! r
  | _ => None
  end.

(** *** Metrics *)

Definition collectPerformanceMetrics : M unit :=
  timestamp ← Eff.lift Date_now;
  system ← Eff.lift (external (metric_source E "getSystemMetrics"));
  agents ← Eff.lift (external (metric_source E "getAgentMetrics"));
  api ← Eff.lift (external (metric_source E "getAPIMetrics"));
  business ← Eff.lift (external (metric_source E "getBusinessMetrics"));
  let metrics := MetricSample.mk timestamp system agents api business in
  now ← Eff.lift Date_now;
  Eff.modify (λ s, (with_monitoringMetrics <[now := metrics]> s.1, s.2)) ;;
  store ← Eff.gets (λ s, monitoringMetrics s.1);
  if 1000 <? size store then
    match Js.Math_min (map_to_list store).*1 with
    | Some oldestKey =>
        Eff.modify (λ s,
          (with_monitoringMetrics (delete oldestKey) s.1, s.2))
    | None => mret tt
    end
  else mret tt.

(** *** The scheduled tasks of [startHealthChecks]

    Each cron callback wraps its task in a [try] that logs the error. *)
Definition scheduled_health_check : M unit :=
  Eff.try_catch performHealthChecks (λ _, mret tt).

Definition scheduled_metrics_collection : M unit :=
  Eff.try_catch collectPerformanceMetrics (λ _, mret tt).

(** *** Starting a deployment

    [deployFullSystem] creates the job and calls [executeFullDeployment]
    without awaiting it. The call runs the deployment up to its first
    [await]: through the first [updateDeploymentStep], whose body has no
    [await] and so runs to its end at once. Then the handler answers.
    The rest of the deployment is left pending and runs after the handler
    has returned: it is returned next to the response. [body] is
    [req.body], [None] when the request carries none. *)
Definition deployFullSystem (body : option DeployRequest.t)
  : M (Response DeployAccepted.t * option (M unit)) :=
  Eff.try_catch
    (match body with
     | None =>
         Eff.throw "Cannot destructure property 'environment' of 'req.body' as it is undefined."
     | Some b =>
         let environment :=
           default "production" (DeployRequest.environment b) in
         let config := default ∅ (DeployRequest.config b) in
         now ← Eff.lift Date_now;
         let deploymentId := "deploy_" +:+ pretty now in
         started_at ← Eff.lift Date_now;
         Eff.modify (λ s,
           (with_deploymentStatus
              <[deploymentId :=
                  DeploymentJob.mk "initializing" started_at environment []
                                   None None None None]> s.1, s.2)) ;;
         updateDeploymentStep deploymentId "Environment Setup" "running" ;;
         let pending :=
           executeFullDeployment_rest deploymentId environment config in
         mret (json (DeployAccepted.mk true deploymentId "initiated"
                       "15-20 minutes"
                       ("/api/deploy/status?id=" +:+ deploymentId)),
               Some pending)
     end)
    (λ msg, mret (status_500 msg, None)).

(** *** Reading the health state *)

(** [uptimeStart.getTime()]: a [TypeError] when no date is stored. *)
Definition getTime (entry : option HealthEntry) : M Z :=
  match entry with
  | Some (HDate d) => mret d
  | _ => Eff.throw "Cannot read properties of undefined (reading 'getTime')"
  end.

Definition getSystemHealth : M (Response SystemHealthReport.t) :=
  Eff.try_catch
    (lastHealthCheck ← Eff.gets (λ s, last_health_check s.1);
     overallStatus ← Eff.gets (λ s, systemHealth s.1 !! "overall_status");
     uptimeStart ← Eff.gets (λ s, systemHealth s.1 !! "uptime_start");
     now ← Eff.lift Date_now;
     started ← getTime uptimeStart;
     mret (json (SystemHealthReport.mk
                   overallStatus
                   (now - started)%Z
                   (HealthResults.timestamp <$> lastHealthCheck)
                   "1.0.0"
                   (process_env E !! "NODE_ENV")
                   11
                   (match lastHealthCheck with
                    | Some hc => length (HealthResults.services hc)
                    | None => 0
                    end)
                   (calculateHealthScore lastHealthCheck))))
    (λ msg, mret (status_500 msg)).

(** *** Durations

    The time value of a valid date is a whole number of milliseconds of
    magnitude at most 8.64e15, and the source computes on doubles. A
    difference of magnitude at most 2^53 is exact; its quotient by 60000
    is then below 2^38 and rounded by less than 1/60000, so its floor is
    the floor of the exact quotient, and the remainder and the seconds
    part are exact. Beyond 2^53 the difference itself is rounded.
    [formatDuration] is embedded on the exact range and is [None] outside
    it. *)
Definition valid_time (t : Z) : bool :=
  bool_decide (Z.abs t ≤ 8640000000000000)%Z.

(** [diff = end.getTime() - start.getTime()],
    [minutes = Math.floor(diff / 60000)],
    [seconds = Math.floor((diff % 60000) / 1000)]: [%] takes the sign of
    [diff]. *)
Definition formatDuration (start end_ : Z) : option string :=
  let diff := (end_ - start)%Z in
  if valid_time start && valid_time end_
     && bool_decide (Z.abs diff ≤ 2 ^ 53)%Z
  then
    let minutes := (diff `div` 60000)%Z in
    let seconds := ((diff `rem` 60000) `div` 1000)%Z in
    Some (pretty minutes +:+ "m " +:+ pretty seconds +:+ "s")
  else None.

End WithEnv.

(** The fields of a new instance before [initializeMonitoring] runs. *)
Definition new_system : System := mkSystem ∅ ∅ ∅ ∅ [].
Definition new_world : World := mkWorld 0 [].

(** ** Vocabulary of the statements *)

Section DispatchVocabulary.
Variable E : Env.

(** The channel calls [sendHealthAlerts] makes when none fails: for each
    alert the mail, and for a critical alert the WhatsApp message after
    it. *)
Definition channel_calls (alerts : list Alert.t)
  : list (Channel * Alert.t) :=
  flat_map (λ alert,
    (Email, alert) ::
    (if bool_decide (Alert.severity alert = "critical")
     then [(WhatsApp, alert)] else [])) alerts.

(** The outcome of a channel call made at tick [n]. *)
Definition call_outcome (call : Channel * Alert.t) (n : nat)
  : Result unit :=
  match call.1 with
  | Email => sendMail E call.2 n
  | WhatsApp => whatsapp_send E call.2 n
  end.

Definition do_call (call : Channel * Alert.t) : IO unit :=
  match call.1 with
  | Email => sendEmailAlert E call.2
  | WhatsApp => sendWhatsAppAlert E call.2
  end.

(** Per-alert isolation of a dispatch: every alert of the list whose mail
    the transport accepts whenever it is called is delivered by mail,
    whatever happens to the other alerts. *)
Definition dispatch_isolated (alerts : list Alert.t) (w : World) : Prop :=
  ∀ alert, alert ∈ alerts →
    (∀ n, sendMail E alert n = Ok tt) →
    (Email, alert) ∈ outbox (sendHealthAlerts E alerts w).2.

End DispatchVocabulary.

(** The retention step at the end of [collectPerformanceMetrics], on the
    store as it is after the insertion. *)
Definition retain (store : gmap Z MetricSample.t) : gmap Z MetricSample.t :=
  if 1000 <? size store then
    match Js.Math_min (map_to_list store).*1 with
    | Some oldestKey => delete oldestKey store
    | None => store
    end
  else store.


(** *** Deployment jobs *)

(** [deploymentStatus.get(id)] becomes [d]. *)
Definition set_job (deploymentId : string) (d : DeploymentJob.t)
    (sys : System) : System :=
  with_deploymentStatus <[deploymentId := d]> sys.

(** The job [d] with [added] appended to its step log. *)
Definition push_steps (added : list DeploymentStep.t) (d : DeploymentJob.t)
  : DeploymentJob.t :=
  DeploymentJob.mk (DeploymentJob.status d) (DeploymentJob.started_at d)
    (DeploymentJob.environment d) (DeploymentJob.steps d ++ added)
    (DeploymentJob.completed_at d) (DeploymentJob.success d)
    (DeploymentJob.error d) (DeploymentJob.failed_at d).

(** A step without its timestamp. *)
Definition step_view (st : DeploymentStep.t) : string * string :=
  (DeploymentStep.name st, DeploymentStep.status st).

(** The stages of [executeFullDeployment], in order. *)
Definition stage_names : list string :=
  [ "Environment Setup"; "Database Migration"; "Core Services"; "AI Agents";
    "Integration Testing"; "Health Verification"; "Production Activation" ].

Definition pipeline (E : Env) (environment : string)
    (config : gmap string Js.Val) : list (string * IO unit) :=
  [ ("Environment Setup", setupEnvironment E environment config);
    ("Database Migration", runDatabaseMigrations E);
    ("Core Services", deployCoreServices E);
    ("AI Agents", deployAllAgents E);
    ("Integration Testing", runIntegrationTests E);
    ("Health Verification", verifySystemHealth E);
    ("Production Activation", activateProduction E) ].

(** The steps a stage that succeeds leaves in the log. *)
Definition stage_log (name : string) : list (string * string) :=
  [ (name, "running"); (name, "completed") ].

(** The steps logged when the stages before [name] succeed and the stage
    [name] throws. *)
Definition log_until_failure (before : list string) (name : string)
  : list (string * string) :=
  flat_map stage_log before ++ [ (name, "running") ].

(** Stages run one after the other, each between its [running] and its
    [completed] step, and then [k]. *)
Fixpoint run_stages (E : Env) (deploymentId : string)
    (stages : list (string * IO unit)) (k : M unit) : M unit :=
  match stages with
  | [] => k
  | (name, body) :: rest =>
      updateDeploymentStep E deploymentId name "running" ;;
      Eff.lift body ;;
      updateDeploymentStep E deploymentId name "completed" ;;
      run_stages E deploymentId rest k
  end.

(** The stage bodies alone, one after the other. *)
Definition stage_bodies (E : Env) (environment : string)
    (config : gmap string Js.Val) : IO unit :=
  for_of (pipeline E environment config) (λ stage, stage.2).

(** The step log of the job [deploymentId], when there is such a job. *)
Definition job_log (deploymentId : string) (s : System * World)
  : option (list DeploymentStep.t) :=
  DeploymentJob.steps <$> deploymentStatus s.1 !! deploymentId.

(** An action that, run on a state that holds the job, leaves its log as
    it is or adds one entry at the end, stamped with the clock reading of
    that moment. *)
Definition appends_at_most_one (E : Env) (deploymentId : string)
    (a : M unit) : Prop :=
  ∀ s log,
    job_log deploymentId s = Some log →
    job_log deploymentId (a s).2 = Some log
    ∨ ∃ name status,
        job_log deploymentId (a s).2
        = Some (log ++ [DeploymentStep.mk name status
                                          (clock E (ticks s.2))]).

(** The clock never goes back. *)
Definition clock_monotone (E : Env) : Prop :=
  ∀ i j, i ≤ j → (clock E i ≤ clock E j)%Z.

(** The steps of [added] carry clock readings taken at increasing ticks
    between [lo] and [hi]. *)
Inductive stamped (E : Env) : nat → nat → list DeploymentStep.t → Prop :=
| stamped_nil lo hi : lo ≤ hi → stamped E lo hi []
| stamped_cons lo hi t st rest :
    lo ≤ t →
    DeploymentStep.timestamp st = clock E t →
    stamped E (S t) hi rest →
    stamped E lo hi (st :: rest).

(** The timestamps along a step log never decrease. *)
Definition nondecreasing (steps : list DeploymentStep.t) : Prop :=
  StronglySorted Z.le (DeploymentStep.timestamp <$> steps).

(** An external computation only moves the world forward. *)
Definition advances {A} (io : IO A) : Prop :=
  ∀ w, ticks w ≤ ticks (io w).2.

(** *** Health-check result objects *)

(** The system with the heap [hp]. *)
Definition set_heap (hp : list HealthResults.t) (sys : System) : System :=
  with_heap (λ _, hp) sys.

(** The references held in [systemHealth] point to allocated objects. *)
Definition refs_allocated (sys : System) : Prop :=
  ∀ key a, systemHealth sys !! key = Some (HRef a) → a < length (heap sys).

(** The object literal [performHealthChecks] starts from. *)
Definition fresh_result (now : Z) : HealthResults.t :=
  HealthResults.mk now "healthy" [] [] Infrastructure.empty [] None.

(** The state in which the [try] block of [performHealthChecks] starts:
    the clock was read once and the result object allocated. *)
Definition health_check_started (E : Env) (s : System * World)
  : System * World :=
  (set_heap (heap s.1 ++ [fresh_result (clock E (ticks s.2))]) s.1,
   mkWorld (S (ticks s.2)) (outbox s.2)).

(** *** Alerts *)

(** The thresholds [initializeMonitoring] installs. *)
Definition default_thresholds : gmap string AlertThreshold.t :=
  <["disk_usage" := AlertThreshold.mk 85 95]>
    (<["memory_usage" := AlertThreshold.mk 80 90]>
       (<["cpu_usage" := AlertThreshold.mk 70 85]>
          (<["error_rate" := AlertThreshold.mk (5 # 100) (1 # 10)]>
             (<["response_time" := AlertThreshold.mk 2000 5000]> ∅)))).

(** An alert without its message and timestamp. *)
Definition alert_view (a : Alert.t) : string * string * Subject :=
  (Alert.type a, Alert.severity a, Alert.subject a).

Definition expected_service_alerts (entry : string * Health.t)
  : list (string * string * Subject) :=
  if bool_decide (Health.status entry.2 = "unhealthy")
  then [ ("service_down", "critical", service entry.1) ] else [].

Definition expected_agent_alerts (entry : string * Health.t)
  : list (string * string * Subject) :=
  (if bool_decide (Health.status entry.2 = "unhealthy")
   then [ ("agent_down", "high", agent entry.1) ] else [])
  ++ (if Js.gt_or_null (inject_Z <$> Health.response_time entry.2) 5000
      then [ ("performance_degradation", "high", agent entry.1) ] else []).

Definition expected_infrastructure_alerts (infra : Infrastructure.t)
  : list (string * string * Subject) :=
  if Js.gt_or_undefined (Infrastructure.cpu_usage infra) 85
  then [ ("resource_critical", "critical", resource "cpu") ] else [].

(** The alerts [checkForAlerts] emits under the default thresholds. *)
Definition expected_alerts (h : HealthResults.t)
  : list (string * string * Subject) :=
  flat_map expected_service_alerts (HealthResults.services h)
  ++ flat_map expected_agent_alerts (HealthResults.agents h)
  ++ expected_infrastructure_alerts (HealthResults.infrastructure h).

(** *** Comparing statuses and counting *)

(** How bad an overall status is. *)
Definition status_rank (status : string) : nat :=
  if bool_decide (status = "critical") then 3
  else if bool_decide (status = "degraded") then 2
  else if bool_decide (status = "warning") then 1
  else 0.

(** 1 when [cpu_usage] is above the default critical bound, else 0. *)
Definition cpu_critical (infra : Infrastructure.t) : nat :=
  if Js.gt_or_undefined (Infrastructure.cpu_usage infra) 85 then 1 else 0.

(** The keys of the object [checkServicesHealth] returns. *)
Definition service_names : list string :=
  [ "database"; "voice_engine"; "email_system"; "payment_system";
    "whatsapp_api"; "knowledge_base"; "legal_services" ].

(** The service probes of [checkServicesHealth], in the order they are
    called. *)
Definition service_probes : list string :=
  [ "checkVoiceEngineHealth"; "checkEmailSystemHealth";
    "checkPaymentSystemHealth"; "checkWhatsAppAPIHealth";
    "checkKnowledgeBaseHealth"; "checkLegalServicesHealth" ].

(** The entry [checkDatabaseHealth] reports. *)
Definition database_healthy : Health.t :=
  Health.mk "healthy" None Js.undefined.

(** The steps of [deployAgent], in order. *)
Definition agent_steps : list string :=
  [ "loadAgentConfig"; "deployAgentService"; "configureAgentEndpoints";
    "testAgentDeployment"; "updateAgentStatus" ].

(** The calls a rollout of [agents] makes when none fails, as pairs of
    method and agent: the five steps of each agent in turn. *)
Definition rollout_calls (agents : list string) : list (string * string) :=
  flat_map (λ agentId, (λ method, (method, agentId)) <$> agent_steps) agents.

(** The message [deployAgent] throws for the error [msg] of a step. *)
Definition deploy_agent_error (agentId msg : string) : string :=
  "Failed to deploy agent " +:+ agentId +:+ ": " +:+ msg.

(** The sample a call of [collectPerformanceMetrics] that starts at tick
    [t] stores, from the readings of the four getters. *)
Definition collected_sample (E : Env) (t : nat)
    (system agents api business : Readings) : MetricSample.t :=
  MetricSample.mk (clock E t) system agents api business.

(** ** Concrete inputs used by the examples below *)

Module Ex.

Definition up : Health.t := Health.mk "healthy" (Some 120%Z) Js.null.
Definition down : Health.t :=
  Health.mk "unhealthy" None (Js.str "connect ECONNREFUSED").

Definition result (services agents : list (string * Health.t))
    (alerts : list Alert.t) : HealthResults.t :=
  HealthResults.mk 0 "healthy" services agents Infrastructure.empty
                   alerts None.

Definition critical_alert : Alert.t :=
  Alert.mk "service_down" "critical" (service "database")
           (ServiceUnhealthy "database" (Js.str "connect ECONNREFUSED")) 0.

(** three services down, no alert *)
Definition three_services_down : HealthResults.t :=
  result [ ("database", down); ("voice_engine", down);
           ("email_system", down); ("payment_system", up) ]
         [ ("lexi-pro", up) ] [].

(** one service and four agents down, no alert *)
Definition one_service_four_agents_down : HealthResults.t :=
  result [ ("database", down); ("voice_engine", up) ]
         [ ("lexi-pro", down); ("atlas-corporate", down);
           ("miss-legal", down); ("paymaster", down);
           ("crossai-emergency", up) ] [].

(** two services and one agent down, one critical alert *)
Definition two_one_one : HealthResults.t :=
  result [ ("database", down); ("voice_engine", down);
           ("email_system", up) ]
         [ ("lexi-pro", down); ("atlas-corporate", up) ]
         [ critical_alert ].

(** *** Alert dispatch: three alerts, the mail for the second one is
    refused *)

Definition high_alert (agentId : string) : Alert.t :=
  Alert.mk "agent_down" "high" (agent agentId)
           (AgentNotResponding agentId (Js.str "timeout")) 0.

Definition a1 := high_alert "lexi-pro".
Definition a2 := high_alert "paymaster".
Definition a3 := high_alert "edu-kids".

Definition quiet_env : Env :=
  mkEnv (λ n, Z.of_nat n) (λ _, "1970-01-01T00:00:00.000Z") ∅
        (λ _ _, Ok tt) (λ _ _, Ok tt) (λ _ _ _, Ok tt)
        (λ _ _, Ok true) (λ _ _, Ok up)
        (λ _, Ok (Infrastructure.mk (Some 10%Q) (Some 20%Q) (Some 30%Q)))
        (λ _ _, Ok tt) (λ _ _, Ok tt) (λ _ _, Ok []).

(** as [quiet_env], but the mail transport refuses the alert about
    [paymaster] *)
Definition second_mail_fails : Env :=
  mkEnv (clock quiet_env) (toISOString quiet_env) (process_env quiet_env)
        (fs_writeFile quiet_env) (exec quiet_env) (stage_impl quiet_env)
        (fetch_health quiet_env) (service_probe quiet_env)
        (infrastructure_probe quiet_env)
        (λ alert _,
           if bool_decide (Alert.subject alert = agent "paymaster")
           then Throw "Connection timeout" else Ok tt)
        (whatsapp_send quiet_env) (metric_source quiet_env).

(** *** Alert evaluation: memory and disk above their critical bounds *)

Definition memory_disk_critical : HealthResults.t :=
  HealthResults.mk 0 "healthy"
    [ ("database", up) ] [ ("lexi-pro", up) ]
    (Infrastructure.mk (Some 10%Q) (Some 99%Q) (Some 99%Q)) [] None.

(** *** Metrics: a store at capacity, with the keys -1000 .. -1 *)

Definition sample (t : Z) : MetricSample.t := MetricSample.mk t [] [] [] [].

Definition full_store : gmap Z MetricSample.t :=
  list_to_map (map (λ i, let t := (- Z.of_nat i - 1)%Z in (t, sample t))
                   (seq 0 1000)).

Definition full_system : System := mkSystem ∅ ∅ ∅ full_store [].

(** *** Deployment: a job that was just created *)

Definition job0 : DeploymentJob.t :=
  DeploymentJob.mk "initializing" 0 "production" [] None None None None.

Definition deploying : System :=
  mkSystem {[ "deploy_1" := job0 ]} ∅ ∅ ∅ [].

Definition credentials : gmap string string :=
  list_to_map (map (λ v, (v, "secret")) requiredVars).

(** every required key is set, and deploying the service
    [payment-processing] is rejected *)
Definition core_services_fail : Env :=
  mkEnv (clock quiet_env) (toISOString quiet_env) credentials
        (fs_writeFile quiet_env) (exec quiet_env)
        (λ method arg _,
           if bool_decide (method = "deployService"
                           ∧ arg = "payment-processing")
           then Throw "service unavailable" else Ok tt)
        (fetch_health quiet_env) (service_probe quiet_env)
        (infrastructure_probe quiet_env) (sendMail quiet_env)
        (whatsapp_send quiet_env) (metric_source quiet_env).

(** every required key is set but [GMAIL_CLIENT_ID] *)
Definition no_gmail_client_id : Env :=
  mkEnv (clock quiet_env) (toISOString quiet_env)
        (delete "GMAIL_CLIENT_ID" credentials)
        (fs_writeFile quiet_env) (exec quiet_env) (stage_impl quiet_env)
        (fetch_health quiet_env) (service_probe quiet_env)
        (infrastructure_probe quiet_env) (sendMail quiet_env)
        (whatsapp_send quiet_env) (metric_source quiet_env).

(** *** Health check: the infrastructure probe is rejected *)

Definition infrastructure_probe_fails : Env :=
  mkEnv (clock quiet_env) (toISOString quiet_env) (process_env quiet_env)
        (fs_writeFile quiet_env) (exec quiet_env) (stage_impl quiet_env)
        (fetch_health quiet_env) (service_probe quiet_env)
        (λ _, Throw "metrics provider unreachable")
        (sendMail quiet_env) (whatsapp_send quiet_env)
        (metric_source quiet_env).

(** a system whose last health check found everything healthy *)
Definition previous_result : HealthResults.t :=
  result [ ("database", up) ] [ ("lexi-pro", up) ] [].

Definition monitored : System :=
  mkSystem ∅
    (<["last_health_check" := HRef 0]>
       (<["overall_status" := HStatus "healthy"]> ∅))
    default_thresholds ∅ [previous_result].

(** as [quiet_env], but the voice engine is down *)
Definition voice_engine_down : Env :=
  mkEnv (clock quiet_env) (toISOString quiet_env) (process_env quiet_env)
        (fs_writeFile quiet_env) (exec quiet_env) (stage_impl quiet_env)
        (fetch_health quiet_env)
        (λ probe _,
           if bool_decide (probe = "checkVoiceEngineHealth")
           then Ok down else Ok up)
        (infrastructure_probe quiet_env) (sendMail quiet_env)
        (whatsapp_send quiet_env) (metric_source quiet_env).

(** one service and five agents down, one critical alert *)
Definition worse : HealthResults.t :=
  result [ ("database", down); ("voice_engine", up) ]
         [ ("lexi-pro", down); ("atlas-corporate", down);
           ("miss-legal", down); ("paymaster", down);
           ("crossai-emergency", down) ] [ critical_alert ].

(** every required key is set, but [SUPABASE_URL] to the empty string *)
Definition empty_supabase_url : Env :=
  mkEnv (clock quiet_env) (toISOString quiet_env)
        (<["SUPABASE_URL" := ""]> credentials)
        (fs_writeFile quiet_env) (exec quiet_env) (stage_impl quiet_env)
        (fetch_health quiet_env) (service_probe quiet_env)
        (infrastructure_probe quiet_env) (sendMail quiet_env)
        (whatsapp_send quiet_env) (metric_source quiet_env).

(** a configuration that supplies every required key *)
Definition configured : gmap string Js.Val :=
  list_to_map (map (λ v, (v, Js.str "secret")) requiredVars).

(** as [quiet_env], but the clock was set back to before every stored
    key *)
Definition clock_set_back : Env :=
  mkEnv (λ n, (Z.of_nat n - 5000)%Z) (toISOString quiet_env)
        (process_env quiet_env) (fs_writeFile quiet_env) (exec quiet_env)
        (stage_impl quiet_env) (fetch_health quiet_env)
        (service_probe quiet_env) (infrastructure_probe quiet_env)
        (sendMail quiet_env) (whatsapp_send quiet_env)
        (metric_source quiet_env).

(** as [quiet_env], but the database reset command fails *)
Definition reset_fails : Env :=
  mkEnv (clock quiet_env) (toISOString quiet_env) (process_env quiet_env)
        (fs_writeFile quiet_env)
        (λ command _,
           if bool_decide (command = "npx supabase db reset --linked")
           then Throw "connection refused" else Ok tt)
        (stage_impl quiet_env) (fetch_health quiet_env)
        (service_probe quiet_env) (infrastructure_probe quiet_env)
        (sendMail quiet_env) (whatsapp_send quiet_env)
        (metric_source quiet_env).

(** as [quiet_env], but [getAPIMetrics] throws *)
Definition api_metrics_fail : Env :=
  mkEnv (clock quiet_env) (toISOString quiet_env) (process_env quiet_env)
        (fs_writeFile quiet_env) (exec quiet_env) (stage_impl quiet_env)
        (fetch_health quiet_env) (service_probe quiet_env)
        (infrastructure_probe quiet_env) (sendMail quiet_env)
        (whatsapp_send quiet_env)
        (λ getter _,
           if bool_decide (getter = "getAPIMetrics")
           then Throw "api metrics unavailable" else Ok []).

(** *** The step log: a job whose log already holds two steps, and a
    clock that is set back after its first four readings *)

Definition history : list DeploymentStep.t :=
  [ DeploymentStep.mk "Environment Setup" "running" (-20);
    DeploymentStep.mk "Environment Setup" "completed" (-10) ].

Definition redeployed : System :=
  mkSystem {[ "deploy_1" :=
                DeploymentJob.mk "initializing" (-30) "production" history
                                 None None None None ]} ∅ ∅ ∅ [].

Definition clock_set_back_mid_run : Env :=
  mkEnv (λ n, if n <? 4 then (5000 + Z.of_nat n)%Z else Z.of_nat n)
        (toISOString quiet_env) (process_env quiet_env)
        (fs_writeFile quiet_env) (exec quiet_env) (stage_impl quiet_env)
        (fetch_health quiet_env) (service_probe quiet_env)
        (infrastructure_probe quiet_env) (sendMail quiet_env)
        (whatsapp_send quiet_env) (metric_source quiet_env).

(** as [quiet_env], but testing the deployment of [miss-legal] fails *)
Definition agent_test_fails : Env :=
  mkEnv (clock quiet_env) (toISOString quiet_env) (process_env quiet_env)
        (fs_writeFile quiet_env) (exec quiet_env)
        (λ method arg _,
           if bool_decide (method = "testAgentDeployment"
                           ∧ arg = "miss-legal")
           then Throw "smoke test failed" else Ok tt)
        (fetch_health quiet_env) (service_probe quiet_env)
        (infrastructure_probe quiet_env) (sendMail quiet_env)
        (whatsapp_send quiet_env) (metric_source quiet_env).

(** as [quiet_env], but the payment system probe throws *)
Definition payment_probe_fails : Env :=
  mkEnv (clock quiet_env) (toISOString quiet_env) (process_env quiet_env)
        (fs_writeFile quiet_env) (exec quiet_env) (stage_impl quiet_env)
        (fetch_health quiet_env)
        (λ probe _,
           if bool_decide (probe = "checkPaymentSystemHealth")
           then Throw "gateway timeout" else Ok up)
        (infrastructure_probe quiet_env) (sendMail quiet_env)
        (whatsapp_send quiet_env) (metric_source quiet_env).

(** as [quiet_env], but every reading of the clock gives the same
    millisecond *)
Definition clock_stands_still : Env :=
  mkEnv (λ _, 1700000000000%Z) (toISOString quiet_env)
        (process_env quiet_env) (fs_writeFile quiet_env) (exec quiet_env)
        (stage_impl quiet_env) (fetch_health quiet_env)
        (service_probe quiet_env) (infrastructure_probe quiet_env)
        (sendMail quiet_env) (whatsapp_send quiet_env)
        (metric_source quiet_env).

(** a request that names the staging environment and no configuration *)
Definition staging_request : DeployRequest.t :=
  DeployRequest.mk (Some "staging") None.

End Ex.

(** ** Overall status and health score *)

Section Aggregation.
Implicit Types h : HealthResults.t.

Let us h := count_unhealthy (HealthResults.services h).
Let ua h := count_unhealthy (HealthResults.agents h).
Let ca h := count_critical (HealthResults.alerts h).

(** C1. The overall status derived by [evaluateOverallHealth] follows the
    four-level precedence: it is critical exactly when there is a critical
    alert or more than two unhealthy services; otherwise degraded exactly
    when a service is unhealthy or more than three agents are; otherwise
    warning exactly when an agent is unhealthy; otherwise healthy. No
    critical alert and three unhealthy services give critical; no critical
    alert, one unhealthy service and four unhealthy agents give
    degraded. *)
Theorem evaluateOverallHealth_precedence h :
  (evaluateOverallHealth h = "critical" ↔ ca h > 0 ∨ us h > 2) ∧
  (evaluateOverallHealth h = "degraded" ↔
     ¬ (ca h > 0 ∨ us h > 2) ∧ (us h > 0 ∨ ua h > 3)) ∧
  (evaluateOverallHealth h = "warning" ↔
     ¬ (ca h > 0 ∨ us h > 2) ∧ ¬ (us h > 0 ∨ ua h > 3) ∧ ua h > 0) ∧
  (evaluateOverallHealth h = "healthy" ↔
     ¬ (ca h > 0 ∨ us h > 2) ∧ ¬ (us h > 0 ∨ ua h > 3) ∧ ¬ ua h > 0) ∧
  (ca h = 0 → us h = 3 → evaluateOverallHealth h = "critical") ∧
  (ca h = 0 → us h = 1 → ua h = 4 →
     evaluateOverallHealth h = "degraded").
Proof.
  unfold evaluateOverallHealth. fold (us h) (ua h) (ca h).
  destruct (Nat.ltb_spec 0 (ca h)), (Nat.ltb_spec 2 (us h)),
    (Nat.ltb_spec 0 (us h)), (Nat.ltb_spec 3 (ua h)),
    (Nat.ltb_spec 0 (ua h)); simpl;
    repeat split; intros; try discriminate; try lia; try reflexivity.
Qed.

Lemma evaluateOverallHealth_precedence_witness :
  evaluateOverallHealth Ex.three_services_down = "critical" ∧
  evaluateOverallHealth Ex.one_service_four_agents_down = "degraded".
Proof.
  split.
  - apply (evaluateOverallHealth_precedence Ex.three_services_down);
      reflexivity.
  - apply (evaluateOverallHealth_precedence
             Ex.one_service_four_agents_down); reflexivity.
Defined.

(** C6. The health score is 100 minus 10 per unhealthy service, 5 per
    unhealthy agent and 15 per critical alert, floored at 0; two unhealthy
    services, one unhealthy agent and one critical alert score 60. *)
Theorem calculateHealthScore_formula h :
  let deduction :=
    (10 * Z.of_nat (us h) + 5 * Z.of_nat (ua h) + 15 * Z.of_nat (ca h))%Z in
  (deduction ≤ 100 → calculateHealthScore (Some h) = 100 - deduction)%Z ∧
  (100 < deduction → calculateHealthScore (Some h) = 0)%Z ∧
  (0 ≤ calculateHealthScore (Some h) ≤ 100)%Z ∧
  (us h = 2 → ua h = 1 → ca h = 1 → calculateHealthScore (Some h) = 60%Z).
Proof.
  unfold calculateHealthScore. fold (us h) (ua h) (ca h). cbv zeta.
  repeat split; intros; lia.
Qed.

Lemma calculateHealthScore_formula_witness :
  calculateHealthScore (Some Ex.two_one_one) = 60%Z.
Proof.
  apply (calculateHealthScore_formula Ex.two_one_one); reflexivity.
Defined.

End Aggregation.

(** ** The effect monad *)

Ltac eff_unfold :=
  unfold mbind, mret, Eff_bind, Eff_ret, Eff.bind, Eff.ret, Eff.throw,
    Eff.try_catch, Eff.gets, Eff.modify, Eff.lift in *.

Lemma bind_run {S A B} (m : Eff S A) (k : A → Eff S B) s :
  (m ≫= k) s = match m s with
               | (Ok a, s') => k a s'
               | (Throw e, s') => (Throw e, s')
               end.
Proof. reflexivity. Qed.

Lemma try_catch_run {S A} (body : Eff S A) handler s :
  Eff.try_catch body handler s = match body s with
                                 | (Ok a, s') => (Ok a, s')
                                 | (Throw e, s') => handler e s'
                                 end.
Proof. reflexivity. Qed.

Lemma Date_now_run E w :
  Date_now E w = (Ok (clock E (ticks w)), mkWorld (S (ticks w)) (outbox w)).
Proof. reflexivity. Qed.

Lemma gets_run {S A} (f : S → A) s : Eff.gets f s = (Ok (f s), s).
Proof. reflexivity. Qed.

Lemma lift_run {A} (io : IO A) sys w :
  Eff.lift io (sys, w) = ((io w).1, (sys, (io w).2)).
Proof. unfold Eff.lift. by destruct (io w). Qed.

(** ** Alert dispatch *)

Section Dispatch.
Variable E : Env.

Lemma do_call_run call w :
  do_call E call w =
    match call_outcome E call (ticks w) with
    | Ok _ => (Ok tt, mkWorld (S (ticks w)) (outbox w ++ [call]))
    | Throw e => (Throw e, mkWorld (S (ticks w)) (outbox w))
    end.
Proof.
  destruct call as [[] alert];
    unfold do_call, call_outcome, sendEmailAlert, sendWhatsAppAlert,
      deliver; simpl; reflexivity.
Qed.

Lemma dispatch_loop_calls alerts w :
  for_of alerts (λ alert,
      sendEmailAlert E alert ;;
      if bool_decide (Alert.severity alert = "critical")
      then sendWhatsAppAlert E alert
      else mret tt) w
  = for_of (channel_calls alerts) (do_call E) w.
Proof.
  revert w. induction alerts as [|alert alerts IH]; intros w; [done|].
  simpl. rewrite !bind_run.
  change (sendEmailAlert E alert w) with (do_call E (Email, alert) w).
  destruct (do_call E (Email, alert) w) as [[[]|e] w1]; [|done].
  case_bool_decide; simpl.
  - rewrite !bind_run.
    change (sendWhatsAppAlert E alert w1)
      with (do_call E (WhatsApp, alert) w1).
    destruct (do_call E (WhatsApp, alert) w1) as [[[]|e] w2]; [|done].
    apply IH.
  - apply IH.
Qed.

(** The loop over the calls delivers exactly the calls before the first
    one that fails, and throws exactly when one fails. *)
Lemma for_of_calls calls w :
  ∃ n,
    outbox (for_of calls (do_call E) w).2 = outbox w ++ take n calls ∧
    (∀ i call, i < n → calls !! i = Some call →
       call_outcome E call (ticks w + i) = Ok tt) ∧
    ((n = length calls ∧ (for_of calls (do_call E) w).1 = Ok tt) ∨
     (∃ call msg, calls !! n = Some call ∧
        call_outcome E call (ticks w + n) = Throw msg ∧
        (for_of calls (do_call E) w).1 = Throw msg)).
Proof.
  revert w. induction calls as [|call calls IH]; intros w.
  - exists 0. simpl. rewrite app_nil_r.
    split; [done|]. split; [intros; lia|]. by left.
  - simpl. rewrite bind_run, do_call_run.
    destruct (call_outcome E call (ticks w)) as [[]|e] eqn:Hc.
    + destruct (IH (mkWorld (S (ticks w)) (outbox w ++ [call])))
        as (n & Hout & Hbefore & Hend).
      simpl in *. exists (S n). split; [|split].
      * rewrite Hout. simpl. by rewrite <- app_assoc.
      * intros [|i] c Hi Hl; simpl in Hl.
        -- inversion Hl; subst. by rewrite Nat.add_0_r.
        -- replace (ticks w + S i) with (S (ticks w + i)) by lia.
           apply Hbefore; [lia|done].
      * destruct Hend as [[-> Hok]|(c & msg & Hl & Hthrow & Hres)].
        -- by left.
        -- right. exists c, msg. simpl.
           replace (ticks w + S n) with (S (ticks w + n)) by lia. done.
    + exists 0. simpl. rewrite app_nil_r. split; [done|].
      split; [intros; lia|]. right. exists call, e.
      by rewrite Nat.add_0_r.
Qed.

(** C4 (as amended). A failing channel call is caught, so
    [sendHealthAlerts] never throws, but it ends the dispatch: the
    transports receive exactly the channel calls that come before the
    first failing one, in order; no call is made for the rest of the
    failing alert or for any later alert. *)
Theorem sendHealthAlerts_stops_at_first_failure alerts w :
  (sendHealthAlerts E alerts w).1 = Ok tt ∧
  ∃ n,
    outbox (sendHealthAlerts E alerts w).2
      = outbox w ++ take n (channel_calls alerts) ∧
    (∀ i call, i < n → channel_calls alerts !! i = Some call →
       call_outcome E call (ticks w + i) = Ok tt) ∧
    (n = length (channel_calls alerts) ∨
     ∃ call msg, channel_calls alerts !! n = Some call ∧
       call_outcome E call (ticks w + n) = Throw msg).
Proof.
  unfold sendHealthAlerts. rewrite try_catch_run, dispatch_loop_calls.
  destruct (for_of_calls (channel_calls alerts) w)
    as (n & Hout & Hbefore & Hend).
  destruct (for_of (channel_calls alerts) (do_call E) w) as [[[]|e] w'];
    simpl in *.
  - split; [done|]. exists n. split; [done|]. split; [done|].
    destruct Hend as [[-> _]|(c & msg & Hl & Hthrow & _)]; [by left|].
    right. by exists c, msg.
  - split; [done|]. exists n. split; [done|]. split; [done|].
    destruct Hend as [[_ ?]|(c & msg & Hl & Hthrow & _)]; [done|].
    right. by exists c, msg.
Qed.

End Dispatch.

(** C4 (as stated) fails: of three alerts, when the mail for the second is
    refused, the first is delivered and the third, whose mail would be
    accepted, is not. *)
Lemma sendHealthAlerts_not_isolated :
  ¬ dispatch_isolated Ex.second_mail_fails [Ex.a1; Ex.a2; Ex.a3] new_world
  ∧ outbox (sendHealthAlerts Ex.second_mail_fails [Ex.a1; Ex.a2; Ex.a3]
                             new_world).2 = [(Email, Ex.a1)].
Proof.
  assert (Hout : outbox (sendHealthAlerts Ex.second_mail_fails
                           [Ex.a1; Ex.a2; Ex.a3] new_world).2
                 = [(Email, Ex.a1)]) by (vm_compute; reflexivity).
  split; [|exact Hout].
  intros Hiso. specialize (Hiso Ex.a3).
  rewrite Hout in Hiso.
  assert (Hin : (Email, Ex.a3) ∈ [(Email, Ex.a1)]).
  { apply Hiso; [set_solver|]. intros n. reflexivity. }
  apply list_elem_of_singleton in Hin. discriminate Hin.
Qed.

(** ** What alert evaluation emits *)

Lemma for_collect_run {S A B} (P : A → B → Prop) xs (body : A → Eff S B) :
  (∀ x s, ∃ y s', body x s = (Ok y, s') ∧ P x y) →
  ∀ s, ∃ ys s', for_collect xs body s = (Ok ys, s') ∧ Forall2 P xs ys.
Proof.
  intros Hbody. induction xs as [|x xs IH]; intros s; simpl.
  - by exists [], s.
  - rewrite bind_run. destruct (Hbody x s) as (y & s1 & -> & Hy).
    rewrite bind_run. destruct (IH s1) as (ys & s2 & -> & Hys).
    exists (y :: ys), s2. split; [done|]. by constructor.
Qed.

Lemma concat_views {A} (f : A → list (string * string * Subject)) xs yss :
  Forall2 (λ x ys, alert_view <$> ys = f x) xs yss →
  alert_view <$> concat yss = flat_map f xs.
Proof.
  induction 1 as [|x ys xs yss Hx _ IH]; simpl; [done|].
  by rewrite fmap_app, Hx, IH.
Qed.

Lemma service_alert_run E entry w :
  ∃ ys w', service_alert E entry w = (Ok ys, w') ∧
           alert_view <$> ys = expected_service_alerts entry.
Proof.
  destruct entry as [name h].
  unfold service_alert, expected_service_alerts. simpl.
  case_bool_decide.
  - rewrite bind_run, Date_now_run. by eexists _, _.
  - by eexists _, _.
Qed.

Lemma agent_alerts_run E entry w :
  ∃ ys w', agent_alerts E default_thresholds entry w = (Ok ys, w') ∧
           alert_view <$> ys = expected_agent_alerts entry.
Proof.
  destruct entry as [name h].
  unfold agent_alerts, expected_agent_alerts. simpl.
  rewrite bind_run.
  assert (Hdown : ∃ down w1,
    (if bool_decide (Health.status h = "unhealthy")
     then now ← Date_now E;
          mret [ Alert.mk "agent_down" "high" (agent name)
                   (AgentNotResponding name (Health.error h)) now ]
     else mret []) w = (Ok down, w1) ∧
    alert_view <$> down =
      (if bool_decide (Health.status h = "unhealthy")
       then [ ("agent_down", "high", agent name) ] else [])).
  { case_bool_decide.
    - rewrite bind_run, Date_now_run. by eexists _, _.
    - by eexists _, _. }
  destruct Hdown as (down & w1 & -> & Hview).
  change (critical_threshold default_thresholds "response_time")
    with (mret (M := IO) 5000%Q).
  rewrite bind_run. cbn [mret Eff_ret Eff.ret]. cbv beta iota.
  rewrite bind_run.
  destruct (Js.gt_or_null (inject_Z <$> Health.response_time h) 5000).
  - rewrite bind_run. cbn [mret Eff_ret Eff.ret]. cbv beta iota.
    rewrite bind_run, Date_now_run. cbv beta iota.
    eexists _, _. split; [reflexivity|]. by rewrite fmap_app, Hview.
  - eexists _, _. split; [reflexivity|]. by rewrite fmap_app, Hview.
Qed.

Lemma infrastructure_alerts_run E infra w :
  ∃ ys w', infrastructure_alerts E default_thresholds infra w = (Ok ys, w')
           ∧ alert_view <$> ys = expected_infrastructure_alerts infra.
Proof.
  unfold infrastructure_alerts, expected_infrastructure_alerts.
  change (critical_threshold default_thresholds "cpu_usage")
    with (mret (M := IO) 85%Q).
  rewrite bind_run. cbn [mret Eff_ret Eff.ret]. cbv beta iota.
  destruct (Js.gt_or_undefined (Infrastructure.cpu_usage infra) 85).
  - rewrite bind_run. cbn [mret Eff_ret Eff.ret]. cbv beta iota.
    rewrite bind_run, Date_now_run. by eexists _, _.
  - by eexists _, _.
Qed.

(** Under the thresholds of [initializeMonitoring], alert evaluation
    returns, in this order: a critical [service_down] alert per unhealthy
    service; per agent a high [agent_down] alert when it is unhealthy and a
    high [performance_degradation] alert when its response time exceeds
    5000; and one critical [resource_critical] alert when [cpu_usage]
    exceeds 85. Memory and disk usage raise nothing. *)
Lemma checkForAlerts_emits E h w :
  ∃ alerts w',
    checkForAlerts E default_thresholds h w = (Ok alerts, w') ∧
    alert_view <$> alerts = expected_alerts h.
Proof.
  unfold checkForAlerts, expected_alerts.
  rewrite bind_run.
  destruct (for_collect_run
              (λ x ys, alert_view <$> ys = expected_service_alerts x)
              (HealthResults.services h) (service_alert E)
              (service_alert_run E) w) as (ss & w1 & -> & Hss).
  rewrite bind_run.
  destruct (for_collect_run
              (λ x ys, alert_view <$> ys = expected_agent_alerts x)
              (HealthResults.agents h) (agent_alerts E default_thresholds)
              (agent_alerts_run E) w1) as (aa & w2 & -> & Haa).
  rewrite bind_run.
  destruct (infrastructure_alerts_run E (HealthResults.infrastructure h) w2)
    as (ii & w3 & -> & Hii).
  eexists _, _. split; [reflexivity|].
  by rewrite !fmap_app, (concat_views _ _ _ Hss), (concat_views _ _ _ Haa),
    Hii.
Qed.

(** ** Alert evaluation *)

(** [initializeMonitoring] installs the five thresholds. *)
Lemma initializeMonitoring_thresholds E w :
  alertThresholds (initializeMonitoring E (new_system, w)).2.1
  = default_thresholds.
Proof. reflexivity. Qed.

(** C5 (failing input). With memory and disk usage at 99, above their
    critical bounds of 90 and 95, and nothing else wrong,
    [checkForAlerts] returns no alert: only [cpu_usage] is compared with
    its threshold. *)
Theorem checkForAlerts_ignores_memory_and_disk E w :
  (checkForAlerts E default_thresholds Ex.memory_disk_critical w).1
  = Ok [].
Proof. reflexivity. Qed.

(** ** Metrics retention *)

Lemma Math_min_spec xs k :
  Js.Math_min xs = Some k → k ∈ xs ∧ ∀ x, x ∈ xs → (k ≤ x)%Z.
Proof.
  revert k. induction xs as [|x xs IH]; intros k; simpl; [done|].
  destruct (Js.Math_min xs) as [y|] eqn:Hmin; intros Hk;
    injection Hk as Hk; subst k.
  - destruct (IH y eq_refl) as [Hin Hle]. split.
    + apply elem_of_cons.
      destruct (Z.min_spec x y) as [[_ ->]|[_ ->]]; [by left|by right].
    + intros z [->|Hz]%elem_of_cons; [lia|].
      specialize (Hle z Hz). lia.
  - destruct xs as [|x' xs]; [|done]. split; [by apply elem_of_cons; left|].
    intros z Hz. apply list_elem_of_singleton in Hz. lia.
Qed.

Lemma Math_min_None xs : Js.Math_min xs = None → xs = [].
Proof. by destruct xs. Qed.

Lemma elem_of_keys (m : gmap Z MetricSample.t) k :
  k ∈ (map_to_list m).*1 ↔ k ∈ dom m.
Proof.
  rewrite elem_of_dom, list_elem_of_fmap. split.
  - intros [[k' v] [-> Hin]]. apply elem_of_map_to_list in Hin. by exists v.
  - intros [v Hv]. exists (k, v). split; [done|].
    by apply elem_of_map_to_list.
Qed.

(** What [retain] does to a store just over capacity: it removes the
    entry with the smallest key. *)
Lemma retain_evicts (m : gmap Z MetricSample.t) :
  1000 < size m →
  ∃ oldest, oldest ∈ dom m ∧ (∀ k, k ∈ dom m → (oldest ≤ k)%Z) ∧
            retain m = delete oldest m ∧ size (retain m) = pred (size m).
Proof.
  intros Hsize. unfold retain.
  destruct (Nat.ltb_spec 1000 (size m)) as [_|?]; [|lia].
  destruct (Js.Math_min (map_to_list m).*1) as [k|] eqn:Hmin.
  - destruct (Math_min_spec _ _ Hmin) as [Hin Hle].
    apply elem_of_keys in Hin. exists k. split; [done|]. split.
    + intros k' Hk'. apply Hle. by apply elem_of_keys.
    + split; [done|]. apply map_size_delete_Some. by apply elem_of_dom.
  - apply Math_min_None, fmap_nil_inv, map_to_list_empty_iff in Hmin.
    subst m. rewrite map_size_empty in Hsize. lia.
Qed.

Lemma retain_keeps (m : gmap Z MetricSample.t) :
  size m ≤ 1000 → retain m = m.
Proof.
  intros Hsize. unfold retain.
  by destruct (Nat.ltb_spec 1000 (size m)) as [?|_]; [lia|].
Qed.





(** On the store at capacity one more call inserts the sample under the
    clock reading 5 and evicts the entry with the key -1000. *)
Example collectPerformanceMetrics_evicts :
  let after :=
    monitoringMetrics
      (collectPerformanceMetrics Ex.quiet_env (Ex.full_system, new_world)).2.1
  in
  size Ex.full_store = 1000 ∧ size after = 1000 ∧
  after !! (-1000)%Z = None ∧ after !! (-999)%Z = Some (Ex.sample (-999)) ∧
  after !! 5%Z = Some (Ex.sample 0).
Proof. vm_compute. repeat split; reflexivity. Qed.

(** ** Deployment *)

(** *** External computations move the clock forward *)

Create HintDb advances.

Lemma advances_ret {A} (a : A) : advances (mret a).
Proof. intros w. simpl. done. Qed.

Lemma advances_throw {A} msg : advances (@Eff.throw World A msg).
Proof. intros w. simpl. done. Qed.

Lemma advances_external {A} (o : nat → Result A) : advances (external o).
Proof. intros w. simpl. lia. Qed.

Lemma advances_Date_now E : advances (Date_now E).
Proof. apply advances_external. Qed.

Lemma advances_bind {A B} (m : IO A) (k : A → IO B) :
  advances m → (∀ a, advances (k a)) → advances (m ≫= k).
Proof.
  intros Hm Hk w. rewrite bind_run. specialize (Hm w).
  destruct (m w) as [[a|e] w1]; simpl in *; [|done].
  specialize (Hk a w1). lia.
Qed.

Lemma advances_try_catch {A} (body : IO A) handler :
  advances body → (∀ e, advances (handler e)) →
  advances (Eff.try_catch body handler).
Proof.
  intros Hb Hh w. rewrite try_catch_run. specialize (Hb w).
  destruct (body w) as [[a|e] w1]; simpl in *; [done|].
  specialize (Hh e w1). lia.
Qed.

Lemma advances_for_of {A} (xs : list A) body :
  (∀ x, advances (body x)) → advances (for_of xs body).
Proof.
  intros Hb. induction xs as [|x xs IH]; simpl.
  - apply advances_ret.
  - apply advances_bind; [done|]. by intros _.
Qed.

Lemma advances_if {A} (b : bool) (m1 m2 : IO A) :
  advances m1 → advances m2 → advances (if b then m1 else m2).
Proof. by destruct b. Qed.

#[local] Hint Resolve advances_ret advances_throw advances_external
  advances_Date_now advances_bind advances_try_catch advances_for_of
  advances_if : advances.

Lemma advances_pipeline E environment config :
  Forall (λ stage, advances stage.2) (pipeline E environment config).
Proof.
  unfold pipeline, setupEnvironment, runDatabaseMigrations,
    deployCoreServices, deployAllAgents, deployAgent, deployService,
    seedInitialData, runIntegrationTests, verifySystemHealth,
    activateProduction.
  repeat constructor; cbn [snd]; auto 12 with advances.
Qed.

(** *** Jobs and step logs *)

Lemma set_job_lookup id d sys :
  deploymentStatus (set_job id d sys) !! id = Some d.
Proof. apply lookup_insert_eq. Qed.

Lemma set_job_lookup_ne id id' d sys :
  id ≠ id' →
  deploymentStatus (set_job id d sys) !! id' = deploymentStatus sys !! id'.
Proof. intros. by apply lookup_insert_ne. Qed.

Lemma set_job_set_job id d1 d2 sys :
  set_job id d2 (set_job id d1 sys) = set_job id d2 sys.
Proof.
  unfold set_job, with_deploymentStatus. simpl. f_equal.
  apply insert_insert_eq.
Qed.

Lemma set_job_id id d sys :
  deploymentStatus sys !! id = Some d → set_job id d sys = sys.
Proof.
  intros H. destruct sys. unfold set_job, with_deploymentStatus. simpl in *.
  f_equal. by apply insert_id.
Qed.

Lemma push_steps_nil d : push_steps [] d = d.
Proof. destruct d. unfold push_steps. simpl. by rewrite app_nil_r. Qed.

Lemma push_steps_app l1 l2 d :
  push_steps l2 (push_steps l1 d) = push_steps (l1 ++ l2) d.
Proof. unfold push_steps. simpl. by rewrite app_assoc. Qed.

Lemma push_step_push_steps st d :
  DeploymentJob.push_step st d = push_steps [st] d.
Proof. reflexivity. Qed.

Lemma updateDeploymentStep_run E id name status sys w d :
  deploymentStatus sys !! id = Some d →
  updateDeploymentStep E id name status (sys, w) =
    (Ok tt,
     (set_job id
        (push_steps [DeploymentStep.mk name status (clock E (ticks w))] d)
        sys,
      mkWorld (S (ticks w)) (outbox w))).
Proof.
  intros Hd. unfold updateDeploymentStep. rewrite bind_run.
  unfold Eff.gets at 1. simpl. rewrite Hd. reflexivity.
Qed.

Lemma update_job_run E id f sys w d :
  deploymentStatus sys !! id = Some d →
  update_job E id f (sys, w) =
    (Ok tt, (set_job id (f (clock E (ticks w)) d) sys,
             mkWorld (S (ticks w)) (outbox w))).
Proof.
  intros Hd. unfold update_job. rewrite bind_run.
  unfold Eff.gets at 1. simpl. rewrite Hd. reflexivity.
Qed.

Lemma sendDeploymentNotification_run id sys w d :
  deploymentStatus sys !! id = Some d →
  sendDeploymentNotification id (sys, w) = (Ok tt, (sys, w)).
Proof.
  intros Hd. unfold sendDeploymentNotification. rewrite bind_run.
  unfold Eff.gets at 1. simpl. by rewrite Hd.
Qed.

(** *** Timestamps *)

Lemma stamped_le E lo hi l : stamped E lo hi l → lo ≤ hi.
Proof. induction 1; lia. Qed.

Lemma stamped_weaken E lo lo' hi hi' l :
  stamped E lo hi l → lo' ≤ lo → hi ≤ hi' → stamped E lo' hi' l.
Proof.
  intros H. revert lo' hi'. induction H; intros lo' hi' ? ?.
  - constructor. lia.
  - econstructor; [|done|]; [lia|]. apply IHstamped; lia.
Qed.

Lemma stamped_app E lo mid hi l1 l2 :
  stamped E lo mid l1 → stamped E mid hi l2 → stamped E lo hi (l1 ++ l2).
Proof.
  induction 1; intros H2; simpl.
  - eapply stamped_weaken; [done|lia|lia].
  - econstructor; [done|done|]. by apply IHstamped.
Qed.

Lemma stamped_bound E lo hi l :
  clock_monotone E → stamped E lo hi l →
  Forall (λ st, (clock E lo ≤ DeploymentStep.timestamp st)%Z) l.
Proof.
  intros Hmono. induction 1 as [|lo hi t st rest Hlo Hst _ IH];
    constructor.
  - rewrite Hst. by apply Hmono.
  - eapply Forall_impl; [exact IH|]. simpl. intros st' Hst'.
    etrans; [|exact Hst']. apply Hmono. lia.
Qed.

Lemma stamped_nondecreasing E lo hi l :
  clock_monotone E → stamped E lo hi l → nondecreasing l.
Proof.
  intros Hmono. unfold nondecreasing.
  induction 1 as [|lo hi t st rest Hlo Hst Hrest IH]; simpl;
    constructor; [done|].
  apply Forall_fmap. eapply Forall_impl;
    [exact (stamped_bound _ _ _ _ Hmono Hrest)|].
  simpl. intros st' Hst'. rewrite Hst. etrans; [|exact Hst'].
  apply Hmono. lia.
Qed.

(** Appending steps stamped from the current tick on keeps a log in
    order, when the log holds nothing later than the current reading. *)
Lemma nondecreasing_app E lo hi old added :
  clock_monotone E →
  nondecreasing old →
  Forall (λ st, (DeploymentStep.timestamp st ≤ clock E lo)%Z) old →
  stamped E lo hi added →
  nondecreasing (old ++ added).
Proof.
  intros Hmono Hold Hbound Hadded. unfold nondecreasing.
  rewrite fmap_app. apply StronglySorted_app_2.
  - intros x1 x2 [st1 [-> H1]]%list_elem_of_fmap
      [st2 [-> H2]]%list_elem_of_fmap.
    rewrite Forall_forall in Hbound.
    pose proof (stamped_bound _ _ _ _ Hmono Hadded) as Hb.
    rewrite Forall_forall in Hb.
    etrans; [by apply Hbound|by apply Hb].
  - done.
  - by eapply stamped_nondecreasing.
Qed.

(** *** The pipeline *)

Lemma executeFullDeployment_try_pipeline E id environment config :
  executeFullDeployment_try E id environment config =
    run_stages E id (pipeline E environment config)
      (update_job E id DeploymentJob.complete ;;
       sendDeploymentNotification id).
Proof. reflexivity. Qed.

(** Running stages on an existing job either runs them all, logging two
    steps per stage, or stops at the first stage whose body throws, with
    the [running] step of that stage last in the log. *)
Lemma run_stages_run E id stages k :
  Forall (λ stage, advances stage.2) stages →
  ∀ sys w d,
    deploymentStatus sys !! id = Some d →
    (∃ added w',
        step_view <$> added = flat_map stage_log stages.*1 ∧
        stamped E (ticks w) (ticks w') added ∧
        run_stages E id stages k (sys, w)
          = k (set_job id (push_steps added d) sys, w'))
    ∨ (∃ j name body added w' w1 msg,
        stages !! j = Some (name, body) ∧
        step_view <$> added = log_until_failure (take j stages.*1) name ∧
        stamped E (ticks w) (ticks w') added ∧
        (body w1).1 = Throw msg ∧
        run_stages E id stages k (sys, w)
          = (Throw msg, (set_job id (push_steps added d) sys, w'))).
Proof.
  induction 1 as [|[name body] rest Hadv _ IH]; intros sys w d Hd.
  - left. exists [], w. split; [done|]. split; [by constructor|].
    simpl. by rewrite push_steps_nil, set_job_id.
  - simpl in Hadv. simpl run_stages.
    rewrite bind_run, (updateDeploymentStep_run _ _ _ _ _ _ _ Hd).
    set (st1 := DeploymentStep.mk name "running" (clock E (ticks w))).
    set (w1 := mkWorld (S (ticks w)) (outbox w)).
    rewrite bind_run, lift_run.
    pose proof (Hadv w1) as Hw2.
    destruct (body w1) as [[[]|e] w2] eqn:Hbody; simpl in Hw2 |- *.
    + rewrite bind_run,
        (updateDeploymentStep_run _ _ _ _ _ _ _ (set_job_lookup _ _ _)).
      set (st2 := DeploymentStep.mk name "completed" (clock E (ticks w2))).
      rewrite set_job_set_job, push_steps_app. simpl app.
      set (w3 := mkWorld (S (ticks w2)) (outbox w2)).
      destruct (IH (set_job id (push_steps [st1; st2] d) sys) w3
                   (push_steps [st1; st2] d) (set_job_lookup _ _ _))
        as [(added & w' & Hview & Hst & Hrun)
           |(j & n & b & added & w' & wb & msg & Hj & Hview & Hst & Hb
             & Hrun)].
      * left. exists ([st1; st2] ++ added), w'.
        rewrite Hrun, set_job_set_job, push_steps_app.
        split; [|split; [|done]].
        -- rewrite fmap_app, Hview. reflexivity.
        -- simpl. econstructor; [done|done|].
           econstructor; [exact Hw2|done|]. exact Hst.
      * right. exists (S j), n, b, ([st1; st2] ++ added), w', wb, msg.
        rewrite Hrun, set_job_set_job, push_steps_app.
        split; [done|]. split; [|split; [|done]].
        -- rewrite fmap_app, Hview. reflexivity.
        -- simpl. econstructor; [done|done|].
           econstructor; [exact Hw2|done|]. exact Hst.
    + right. exists 0, name, body, [st1], w2, w1, e.
      split; [done|]. split; [done|]. split.
      * econstructor; [done|done|]. by constructor.
      * by rewrite Hbody.
Qed.

(** The outcome of a deployment of an existing job: it never throws, and
    the job ends [completed] with the full log, or [failed] with the log
    up to the [running] step of the stage whose body threw. *)
Lemma executeFullDeployment_run E id environment config sys w d :
  deploymentStatus sys !! id = Some d →
  ∃ added w' now,
    stamped E (ticks w) (ticks w') added ∧
    ((executeFullDeployment_try E id environment config (sys, w)).1 = Ok tt
     ∧ step_view <$> added = flat_map stage_log stage_names
     ∧ executeFullDeployment E id environment config (sys, w)
       = (Ok tt,
          (set_job id (DeploymentJob.complete now (push_steps added d)) sys,
           w'))
     ∨ ∃ j name body w1 msg,
         pipeline E environment config !! j = Some (name, body)
         ∧ (body w1).1 = Throw msg
         ∧ (executeFullDeployment_try E id environment config (sys, w)).1
           = Throw msg
         ∧ step_view <$> added
           = log_until_failure (take j stage_names) name
         ∧ executeFullDeployment E id environment config (sys, w)
           = (Ok tt,
              (set_job id (DeploymentJob.fail msg now (push_steps added d))
                       sys,
               w'))).
Proof.
  intros Hd. unfold executeFullDeployment.
  rewrite try_catch_run, executeFullDeployment_try_pipeline.
  destruct (run_stages_run E id (pipeline E environment config)
              (update_job E id DeploymentJob.complete ;;
               sendDeploymentNotification id)
              (advances_pipeline E environment config) sys w d Hd)
    as [(added & w' & Hview & Hst & Hrun)
       |(j & n & b & added & w' & wb & msg & Hj & Hview & Hst & Hb & Hrun)];
    rewrite Hrun.
  - rewrite bind_run,
      (update_job_run _ _ _ _ _ _ (set_job_lookup _ _ _)),
      (sendDeploymentNotification_run _ _ _ _ (set_job_lookup _ _ _)),
      set_job_set_job.
    exists added, (mkWorld (S (ticks w')) (outbox w')), (clock E (ticks w')).
    split; [eapply stamped_weaken; [done|lia|simpl; lia]|].
    left. done.
  - rewrite bind_run,
      (update_job_run _ _ _ _ _ _ (set_job_lookup _ _ _)),
      (sendDeploymentNotification_run _ _ _ _ (set_job_lookup _ _ _)),
      set_job_set_job.
    exists added, (mkWorld (S (ticks w')) (outbox w')), (clock E (ticks w')).
    split; [eapply stamped_weaken; [done|lia|simpl; lia]|].
    right. exists j, n, b, wb, msg. done.
Qed.

(** *** Failing deployments *)

Lemma stage_names_pipeline E environment config :
  (pipeline E environment config).*1 = stage_names.
Proof. reflexivity. Qed.

Ltac split_elem_of H :=
  repeat match type of H with
         | _ ∈ _ :: _ => apply elem_of_cons in H as [H|H]
         | _ ∈ [] => by apply elem_of_nil in H
         end.

(** The log of a failed run holds no [failed] step and no step of a stage
    after the failing one. *)
Lemma log_until_failure_shape j name (added : list DeploymentStep.t) :
  stage_names !! j = Some name →
  step_view <$> added = log_until_failure (take j stage_names) name →
  last (step_view <$> added) = Some (name, "running") ∧
  (∀ st, st ∈ added → DeploymentStep.status st ≠ "failed") ∧
  (∀ st later, st ∈ added → later ∈ drop (S j) stage_names →
     DeploymentStep.name st ≠ later).
Proof.
  intros Hj Hview. split; [|split].
  - rewrite Hview. unfold log_until_failure. apply last_snoc.
  - intros st Hst Hfailed.
    assert (step_view st ∈ step_view <$> added) as Hin
      by (apply list_elem_of_fmap; eauto).
    rewrite Hview in Hin. unfold step_view in Hin. rewrite Hfailed in Hin.
    do 7 (destruct j as [|j]; [simpl in Hj; injection Hj as <-;
      unfold log_until_failure, stage_names in Hin; simpl in Hin;
      split_elem_of Hin; discriminate Hin|]).
    discriminate Hj.
  - intros st later Hst Hlater Hname.
    assert (step_view st ∈ step_view <$> added) as Hin
      by (apply list_elem_of_fmap; eauto).
    rewrite Hview in Hin. unfold step_view in Hin. rewrite Hname in Hin.
    do 7 (destruct j as [|j]; [simpl in Hj; injection Hj as <-;
      unfold stage_names in Hlater; simpl in Hlater;
      split_elem_of Hlater; subst later;
      unfold log_until_failure, stage_names in Hin; simpl in Hin;
      split_elem_of Hin; discriminate Hin|]).
    discriminate Hj.
Qed.

(** C3 (as amended). When a stage of the pipeline throws, the job ends
    with status [failed] and the error message, the deployment itself
    returns normally, and the steps added to the log are the [running] and
    [completed] steps of the stages before the failing one followed by the
    [running] step of the failing stage: no step with status [failed] is
    recorded, and no step of a later stage. *)
Theorem executeFullDeployment_stage_failure
    E id environment config sys w d msg :
  deploymentStatus sys !! id = Some d →
  (executeFullDeployment_try E id environment config (sys, w)).1
    = Throw msg →
  let r := executeFullDeployment E id environment config (sys, w) in
  r.1 = Ok tt ∧
  ∃ d' j name body w1 added,
    pipeline E environment config !! j = Some (name, body) ∧
    (body w1).1 = Throw msg ∧
    deploymentStatus r.2.1 !! id = Some d' ∧
    DeploymentJob.status d' = "failed" ∧
    DeploymentJob.error d' = Some msg ∧
    DeploymentJob.steps d' = DeploymentJob.steps d ++ added ∧
    step_view <$> added = log_until_failure (take j stage_names) name ∧
    last (step_view <$> added) = Some (name, "running") ∧
    (∀ st, st ∈ added → DeploymentStep.status st ≠ "failed") ∧
    (∀ st later, st ∈ added → later ∈ drop (S j) stage_names →
       DeploymentStep.name st ≠ later).
Proof.
  intros Hd Hthrow. cbv zeta.
  destruct (executeFullDeployment_run E id environment config sys w d Hd)
    as (added & w' & now & _ &
        [(Hok & _)|(j & name & body & w1 & msg' & Hj & Hb & Hthrow' & Hview
                    & Hrun)]).
  { rewrite Hok in Hthrow. discriminate Hthrow. }
  rewrite Hthrow' in Hthrow. injection Hthrow as ->.
  rewrite Hrun. split; [done|].
  assert (stage_names !! j = Some name) as Hname.
  { change stage_names with (pipeline E environment config).*1.
    rewrite list_lookup_fmap. exact (f_equal (fmap fst) Hj). }
  destruct (log_until_failure_shape j name added Hname Hview)
    as (Hlast & Hnofail & Hnolater).
  exists (DeploymentJob.fail msg now (push_steps added d)), j, name, body,
    w1, added.
  cbn [fst snd]. rewrite set_job_lookup. done.
Qed.

Lemma executeFullDeployment_stage_failure_witness :
  (executeFullDeployment Ex.core_services_fail "deploy_1" "production" ∅
                         (Ex.deploying, new_world)).1 = Ok tt.
Proof.
  assert (H1 : deploymentStatus Ex.deploying !! "deploy_1" = Some Ex.job0)
    by reflexivity.
  assert (H2 : (executeFullDeployment_try Ex.core_services_fail "deploy_1"
                  "production" ∅ (Ex.deploying, new_world)).1
               = Throw "service unavailable")
    by (vm_compute; reflexivity).
  exact (proj1 (executeFullDeployment_stage_failure
                  Ex.core_services_fail "deploy_1" "production" ∅
                  Ex.deploying new_world Ex.job0 "service unavailable"
                  H1 H2)).
Defined.

(** C3 (as stated) fails: when deploying a core service is rejected, the
    job ends [failed] and its log stops at the [running] step of
    "Core Services"; it holds no step with status [failed]. *)
Lemma executeFullDeployment_records_no_failed_step :
  let r := executeFullDeployment Ex.core_services_fail "deploy_1"
             "production" ∅ (Ex.deploying, new_world) in
  ∃ d',
    deploymentStatus r.2.1 !! "deploy_1" = Some d' ∧
    DeploymentJob.status d' = "failed" ∧
    DeploymentJob.error d' = Some "service unavailable" ∧
    step_view <$> DeploymentJob.steps d' =
      [ ("Environment Setup", "running"); ("Environment Setup", "completed");
        ("Database Migration", "running");
        ("Database Migration", "completed");
        ("Core Services", "running") ] ∧
    ¬ ∃ st, st ∈ DeploymentJob.steps d' ∧
            DeploymentStep.status st = "failed".
Proof.
  cbv zeta.
  assert (Hrun :
    deploymentStatus
      (executeFullDeployment Ex.core_services_fail "deploy_1" "production"
         ∅ (Ex.deploying, new_world)).2.1 !! "deploy_1"
    = Some (DeploymentJob.mk "failed" 0 "production"
              [ DeploymentStep.mk "Environment Setup" "running" 0;
                DeploymentStep.mk "Environment Setup" "completed" 3;
                DeploymentStep.mk "Database Migration" "running" 4;
                DeploymentStep.mk "Database Migration" "completed" 8;
                DeploymentStep.mk "Core Services" "running" 9 ]
              None None (Some "service unavailable") (Some 13%Z)))
    by (vm_compute; reflexivity).
  eexists. split; [exact Hrun|]. simpl.
  split; [done|]. split; [done|]. split; [done|].
  intros (st & Hin & Hfailed). split_elem_of Hin; subst st;
    discriminate Hfailed.
Qed.

(** *** Missing configuration *)

(** A loop whose body throws on the elements that satisfy [p] stops at the
    first of them. *)
Lemma for_of_throw_find {S A} (p : A → bool) (f : A → string) xs (s : S) :
  for_of xs (λ x, if p x then Eff.throw (f x) else mret tt) s =
    match List.find p xs with
    | Some x => (Throw (f x), s)
    | None => (Ok tt, s)
    end.
Proof.
  induction xs as [|x xs IH]; simpl; [done|].
  rewrite bind_run. destruct (p x); simpl; [done|]. apply IH.
Qed.

(** The required keys are not among the keys [envConfig] adds. *)
Lemma envConfig_required E environment now config v :
  v ∈ requiredVars →
  envConfig E environment now config !! v = config !! v.
Proof.
  intros Hv. unfold envConfig. rewrite lookup_union.
  unfold requiredVars in Hv. split_elem_of Hv; subst v;
    rewrite !lookup_insert_ne, lookup_empty by done;
    by destruct (config !! _).
Qed.

Lemma missing_var_absent E environment now config v :
  v ∈ requiredVars →
  process_env E !! v = None → config !! v = None →
  missing_var E (envConfig E environment now config) v = true.
Proof.
  intros Hv Henv Hcfg. unfold missing_var, Js.env_truthy, Js.truthy_at.
  by rewrite Henv, envConfig_required, Hcfg.
Qed.

(** When a required key is not set, [setupEnvironment] throws the error
    that names the first such key of the list, after one clock reading. *)
Lemma setupEnvironment_missing E environment config w v :
  v ∈ requiredVars →
  process_env E !! v = None → config !! v = None →
  ∃ v',
    v' ∈ requiredVars ∧
    Js.env_truthy (process_env E) v' = false ∧
    Js.truthy_at config v' = false ∧
    setupEnvironment E environment config w =
      (Throw ("Missing required environment variable: " +:+ v'),
       mkWorld (S (ticks w)) (outbox w)).
Proof.
  intros Hv Henv Hcfg. unfold setupEnvironment.
  rewrite bind_run, Date_now_run. cbv beta iota zeta.
  rewrite bind_run, for_of_throw_find.
  set (cfg := envConfig E environment (clock E (ticks w)) config).
  destruct (List.find (missing_var E cfg) requiredVars) as [v'|] eqn:Hfind.
  - apply find_some in Hfind as [Hin Hmiss].
    apply list_elem_of_In in Hin. exists v'. split; [done|].
    unfold missing_var, Js.truthy_at in Hmiss.
    unfold cfg in Hmiss. rewrite envConfig_required in Hmiss by done.
    apply andb_true_iff in Hmiss as [H1 H2].
    apply negb_true_iff in H1, H2. done.
  - exfalso. apply list_elem_of_In in Hv.
    pose proof (find_none _ _ Hfind v Hv) as Hnot.
    apply list_elem_of_In in Hv.
    unfold cfg in Hnot. by rewrite missing_var_absent in Hnot.
Qed.

(** C7. When a required configuration key is absent from both the process
    environment and the supplied configuration, the environment-setup
    stage throws the error that names a required key that is not set
    before any later stage runs; the job becomes [failed] with that error
    and only the [running] step of "Environment Setup" added to its log,
    the deployment returns normally, and nothing else of the system
    changes: the other jobs, the health state and the metrics are as
    before. *)
Theorem missing_required_key_fails_job
    E id environment config sys w d v :
  deploymentStatus sys !! id = Some d →
  v ∈ requiredVars →
  process_env E !! v = None →
  config !! v = None →
  let r := executeFullDeployment E id environment config (sys, w) in
  r.1 = Ok tt ∧
  ∃ v' d',
    v' ∈ requiredVars ∧
    Js.env_truthy (process_env E) v' = false ∧
    Js.truthy_at config v' = false ∧
    deploymentStatus r.2.1 !! id = Some d' ∧
    DeploymentJob.status d' = "failed" ∧
    DeploymentJob.error d'
      = Some ("Missing required environment variable: " +:+ v') ∧
    DeploymentJob.steps d'
      = DeploymentJob.steps d
        ++ [DeploymentStep.mk "Environment Setup" "running"
                              (clock E (ticks w))] ∧
    (∀ id', id ≠ id' →
       deploymentStatus r.2.1 !! id' = deploymentStatus sys !! id') ∧
    systemHealth r.2.1 = systemHealth sys ∧
    alertThresholds r.2.1 = alertThresholds sys ∧
    monitoringMetrics r.2.1 = monitoringMetrics sys ∧
    heap r.2.1 = heap sys.
Proof.
  intros Hd Hv Henv Hcfg. cbv zeta.
  unfold executeFullDeployment, executeFullDeployment_try.
  rewrite try_catch_run, bind_run,
    (updateDeploymentStep_run _ _ _ _ _ _ _ Hd), bind_run, lift_run.
  destruct (setupEnvironment_missing E environment config
              (mkWorld (S (ticks w)) (outbox w)) v Hv Henv Hcfg)
    as (v' & Hv' & Henv' & Hcfg' & ->).
  cbn [fst snd].
  rewrite bind_run,
    (update_job_run _ _ _ _ _ _ (set_job_lookup _ _ _)),
    (sendDeploymentNotification_run _ _ _ _ (set_job_lookup _ _ _)),
    set_job_set_job.
  cbn [fst snd]. split; [done|].
  eexists v', _. rewrite set_job_lookup.
  split; [done|]. split; [done|]. split; [done|]. split; [done|].
  split; [done|]. split; [done|]. split; [done|].
  split; [|done]. intros id' Hne. by apply set_job_lookup_ne.
Qed.

Lemma missing_required_key_fails_job_witness :
  (executeFullDeployment Ex.no_gmail_client_id "deploy_1" "production" ∅
                         (Ex.deploying, new_world)).1 = Ok tt.
Proof.
  assert (H1 : deploymentStatus Ex.deploying !! "deploy_1" = Some Ex.job0)
    by reflexivity.
  assert (H2 : "GMAIL_CLIENT_ID" ∈ requiredVars)
    by (unfold requiredVars; set_solver).
  assert (H3 : process_env Ex.no_gmail_client_id !! "GMAIL_CLIENT_ID"
               = None) by reflexivity.
  assert (H4 : (∅ : gmap string Js.Val) !! "GMAIL_CLIENT_ID" = None)
    by reflexivity.
  exact (proj1 (missing_required_key_fails_job
                  Ex.no_gmail_client_id "deploy_1" "production" ∅
                  Ex.deploying new_world Ex.job0 "GMAIL_CLIENT_ID"
                  H1 H2 H3 H4)).
Defined.

(** With only [GMAIL_CLIENT_ID] missing, that is the key the error
    names. *)
Example missing_gmail_client_id :
  DeploymentJob.error <$>
    deploymentStatus
      (executeFullDeployment Ex.no_gmail_client_id "deploy_1" "production"
         ∅ (Ex.deploying, new_world)).2.1 !! "deploy_1"
  = Some (Some "Missing required environment variable: GMAIL_CLIENT_ID").
Proof. vm_compute. reflexivity. Qed.

(** *** The step log *)

Lemma quiet_clock_monotone : clock_monotone Ex.quiet_env.
Proof. intros i j Hij. simpl. lia. Qed.

Lemma job_log_lookup id sys w log :
  job_log id (sys, w) = Some log ↔
  ∃ d, deploymentStatus sys !! id = Some d ∧ DeploymentJob.steps d = log.
Proof.
  unfold job_log. cbn [fst].
  destruct (deploymentStatus sys !! id) as [d|]; simpl; split.
  - intros [= <-]. by exists d.
  - by intros (d' & [= <-] & <-).
  - done.
  - by intros (d' & ? & _).
Qed.

Lemma job_log_set_job id d sys w :
  job_log id (set_job id d sys, w) = Some (DeploymentJob.steps d).
Proof. unfold job_log. cbn [fst]. by rewrite set_job_lookup. Qed.

Lemma updateDeploymentStep_appends E id name status :
  appends_at_most_one E id (updateDeploymentStep E id name status).
Proof.
  intros [sys w] log Hlog. apply job_log_lookup in Hlog as (d & Hd & <-).
  right. exists name, status.
  rewrite (updateDeploymentStep_run _ _ _ _ _ _ _ Hd). cbn [snd].
  by rewrite job_log_set_job.
Qed.

Lemma lift_appends E id (io : IO unit) :
  appends_at_most_one E id (Eff.lift io).
Proof. intros [sys w] log Hlog. left. by rewrite lift_run. Qed.

Lemma update_job_appends E id f :
  (∀ now d, DeploymentJob.steps (f now d) = DeploymentJob.steps d) →
  appends_at_most_one E id (update_job E id f).
Proof.
  intros Hf [sys w] log Hlog. apply job_log_lookup in Hlog as (d & Hd & <-).
  left. rewrite (update_job_run _ _ _ _ _ _ Hd). cbn [snd].
  by rewrite job_log_set_job, Hf.
Qed.

Lemma sendDeploymentNotification_appends E id :
  appends_at_most_one E id (sendDeploymentNotification id).
Proof.
  intros [sys w] log Hlog. left.
  pose proof Hlog as (d & Hd & _)%job_log_lookup.
  by rewrite (sendDeploymentNotification_run _ _ _ _ Hd).
Qed.

Lemma deployment_actions_append E id environment config :
  Forall (appends_at_most_one E id)
         (deployment_actions E id environment config).
Proof.
  unfold deployment_actions.
  repeat (constructor;
          [solve [ apply updateDeploymentStep_appends
                 | apply lift_appends
                 | by apply update_job_appends
                 | apply sendDeploymentNotification_appends ]|]).
  constructor.
Qed.

Lemma executeFullDeployment_try_actions E id environment config :
  executeFullDeployment_try E id environment config
  = run_actions (deployment_actions E id environment config).
Proof. reflexivity. Qed.

Lemma run_actions_cons a rest s :
  run_actions (a :: rest) s = match a s with
                              | (Ok _, s1) => run_actions rest s1
                              | (Throw e, s1) => (Throw e, s1)
                              end.
Proof.
  destruct rest as [|b rest].
  - simpl. by destruct (a s) as [[[]|e] s1].
  - change (run_actions (a :: b :: rest))
      with (a ;; run_actions (b :: rest)).
    by rewrite bind_run.
Qed.

Lemma run_actions_app l1 l2 s :
  run_actions (l1 ++ l2) s = match run_actions l1 s with
                             | (Ok _, s1) => run_actions l2 s1
                             | (Throw e, s1) => (Throw e, s1)
                             end.
Proof.
  revert s. induction l1 as [|a l1 IH]; intros s; [done|].
  rewrite <- app_comm_cons, !run_actions_cons.
  destruct (a s) as [[[]|e] s1]; [apply IH|done].
Qed.

Lemma appends_prefix E id a s log :
  appends_at_most_one E id a →
  job_log id s = Some log →
  ∃ log', job_log id (a s).2 = Some log' ∧ log `prefix_of` log'.
Proof.
  intros Ha Hlog.
  destruct (Ha s log Hlog) as [H|(name & status & H)]; eexists;
    (split; [exact H|]); [done|by eexists].
Qed.

(** A sequence of such actions only extends the log, whether it runs to
    its end or stops at a throw. *)
Lemma run_actions_append E id actions :
  Forall (appends_at_most_one E id) actions →
  ∀ s log,
    job_log id s = Some log →
    ∃ log', job_log id (run_actions actions s).2 = Some log'
            ∧ log `prefix_of` log'.
Proof.
  induction 1 as [|a rest Ha _ IH]; intros s log Hlog.
  - by exists log.
  - rewrite run_actions_cons.
    destruct (appends_prefix E id a s log Ha Hlog) as (l1 & H1 & Hp1).
    destruct (a s) as [[[]|e] s1]; cbn [snd] in H1.
    + destruct (IH s1 l1 H1) as (l2 & H2 & Hp2).
      exists l2. split; [done|by etrans].
    + by exists l1.
Qed.

(** The logs after two prefixes of a sequence of actions are prefixes of
    one another, in the order of the prefixes. *)
Lemma run_actions_chain E id actions :
  Forall (appends_at_most_one E id) actions →
  ∀ n m s log,
    n ≤ m →
    job_log id s = Some log →
    ∃ ln lm,
      job_log id (run_actions (take n actions) s).2 = Some ln ∧
      job_log id (run_actions (take m actions) s).2 = Some lm ∧
      log `prefix_of` ln ∧ ln `prefix_of` lm.
Proof.
  intros Hall n m s log Hnm Hlog.
  destruct (run_actions_append E id (take n actions)
              (Forall_take _ n _ Hall) s log Hlog) as (ln & Hn & Hpn).
  exists ln.
  assert (take m actions = take n actions ++ drop n (take m actions))
    as Hsplit.
  { rewrite <- (take_drop n (take m actions)) at 1.
    by rewrite take_take, Nat.min_l by lia. }
  rewrite Hsplit, run_actions_app.
  destruct (run_actions (take n actions) s) as [[[]|e] s1]; cbn [snd] in Hn.
  - destruct (run_actions_append E id (drop n (take m actions))
                (Forall_drop _ n _ (Forall_take _ m _ Hall)) s1 ln Hn)
      as (lm & Hm & Hpm).
    by exists lm.
  - by exists ln.
Qed.

(** The [catch] block of [executeFullDeployment] adds no step. *)
Lemma executeFullDeployment_keeps_try_log E id environment config s log :
  job_log id (executeFullDeployment_try E id environment config s).2
    = Some log →
  job_log id (executeFullDeployment E id environment config s).2 = Some log.
Proof.
  unfold executeFullDeployment. rewrite try_catch_run.
  destruct (executeFullDeployment_try E id environment config s)
    as [[[]|e] [sys w]]; cbn [snd]; [done|].
  intros (d & Hd & <-)%job_log_lookup.
  rewrite bind_run, (update_job_run _ _ _ _ _ _ Hd),
    (sendDeploymentNotification_run _ _ _ _ (set_job_lookup _ _ _)).
  cbn [snd]. by rewrite job_log_set_job.
Qed.

(** C8 (as amended). The step log of a job is append-only.
    [updateDeploymentStep] adds one entry at the end, stamped with the
    clock reading of that moment. A run of [executeFullDeployment] is a
    sequence of actions each of which leaves the log as it is or adds one
    entry at its end; the log at any point of the run is a prefix of the
    log at every later point, so no entry is ever changed or removed and
    no step leaves the status it was written with. The run adds the
    [running] and [completed] steps of the stages in order (up to the
    [running] step of a stage that throws), and the [catch] block adds
    none. The timestamps are non-decreasing along the list when the clock
    never goes back and the log held nothing later than the current
    reading when the run began; the code itself does not compare
    timestamps. *)
Theorem step_log_append_only E id sys w log :
  job_log id (sys, w) = Some log →
  (∀ name status,
     job_log id (updateDeploymentStep E id name status (sys, w)).2
     = Some (log ++ [DeploymentStep.mk name status (clock E (ticks w))])) ∧
  (∀ environment config,
     let actions := deployment_actions E id environment config in
     let log_after n :=
       job_log id (run_actions (take n actions) (sys, w)).2 in
     let s' := (executeFullDeployment E id environment config (sys, w)).2 in
     executeFullDeployment_try E id environment config
       = run_actions actions ∧
     Forall (appends_at_most_one E id) actions ∧
     (∀ n m, n ≤ m →
        ∃ ln lm, log_after n = Some ln ∧ log_after m = Some lm ∧
                 log `prefix_of` ln ∧ ln `prefix_of` lm) ∧
     ∃ added,
       job_log id s' = Some (log ++ added) ∧
       log_after (length actions) = Some (log ++ added) ∧
       (step_view <$> added = flat_map stage_log stage_names
        ∨ ∃ j name,
            stage_names !! j = Some name ∧
            step_view <$> added
            = log_until_failure (take j stage_names) name) ∧
       stamped E (ticks w) (ticks s'.2) added ∧
       (clock_monotone E →
        nondecreasing log →
        Forall (λ st, (DeploymentStep.timestamp st ≤ clock E (ticks w))%Z)
               log →
        nondecreasing (log ++ added))).
Proof.
  intros Hlog. pose proof Hlog as (d & Hd & Hsteps)%job_log_lookup.
  split.
  - intros name status.
    rewrite (updateDeploymentStep_run _ _ _ _ _ _ _ Hd). cbn [snd].
    by rewrite job_log_set_job, <- Hsteps.
  - intros environment config. cbv zeta.
    pose proof (deployment_actions_append E id environment config) as Hall.
    split; [reflexivity|]. split; [exact Hall|].
    split; [intros n m Hnm; by apply (run_actions_chain E id)|].
    destruct (run_actions_append E id _ Hall (sys, w) log Hlog)
      as (l1 & Htry & _).
    pose proof (executeFullDeployment_keeps_try_log E id environment config
                  (sys, w) l1 Htry) as Hkept.
    rewrite firstn_all.
    destruct (executeFullDeployment_run E id environment config sys w d Hd)
      as (added & w' & now & Hst &
          [(_ & Hview & Hrun)
          |(j & name & body & w1 & msg & Hj & _ & _ & Hview & Hrun)]);
      rewrite Hrun in Hkept |- *; cbn [fst snd] in Hkept |- *;
      rewrite job_log_set_job in Hkept |- *; simpl in Hkept;
      rewrite Hsteps in Hkept; injection Hkept as <-;
      exists added; simpl; rewrite Hsteps;
      (split; [done|]); (split; [exact Htry|]).
    + split; [by left|]. split; [done|]. intros Hmono Hsorted Hbound.
      by eapply (nondecreasing_app E (ticks w) (ticks w')).
    + split; [|split; [done|]].
      * right. exists j, name. split; [|done].
        change stage_names with (pipeline E environment config).*1.
        rewrite list_lookup_fmap. exact (f_equal (fmap fst) Hj).
      * intros Hmono Hsorted Hbound.
        by eapply (nondecreasing_app E (ticks w) (ticks w')).
Qed.

Lemma step_log_append_only_witness :
  ∃ added,
    job_log "deploy_1"
      (executeFullDeployment Ex.quiet_env "deploy_1" "production"
         Ex.configured (Ex.redeployed, new_world)).2
    = Some (Ex.history ++ added) ∧
    length added = 14 ∧
    nondecreasing (Ex.history ++ added).
Proof.
  assert (H1 : job_log "deploy_1" (Ex.redeployed, new_world)
               = Some Ex.history) by reflexivity.
  destruct (proj2 (step_log_append_only Ex.quiet_env "deploy_1"
                     Ex.redeployed new_world Ex.history H1)
                  "production" Ex.configured)
    as (_ & _ & _ & added & Hfinal & _ & Hview & _ & Hsorted).
  exists added. split; [exact Hfinal|]. split.
  - assert (Hrun :
      length <$> job_log "deploy_1"
        (executeFullDeployment Ex.quiet_env "deploy_1" "production"
           Ex.configured (Ex.redeployed, new_world)).2 = Some 16)
      by (vm_compute; reflexivity).
    rewrite Hfinal in Hrun. simpl in Hrun. injection Hrun as Hrun. lia.
  - apply Hsorted.
    + exact quiet_clock_monotone.
    + unfold nondecreasing, Ex.history. simpl.
      repeat (constructor; [repeat constructor; lia|]). constructor.
    + unfold Ex.history. repeat constructor; simpl; lia.
Defined.

(** C8 (as stated) fails for the order of the timestamps: a step is
    stamped with whatever the clock reads. When the clock is set back
    during a run, the log is still only appended to, and a later entry
    carries an earlier timestamp than the one before it. *)
Lemma step_log_timestamps_can_decrease :
  let s' := (executeFullDeployment Ex.clock_set_back_mid_run "deploy_1"
               "production" Ex.configured (Ex.deploying, new_world)).2 in
  ∃ steps,
    job_log "deploy_1" s' = Some steps ∧
    take 3 steps
    = [ DeploymentStep.mk "Environment Setup" "running" 5000;
        DeploymentStep.mk "Environment Setup" "completed" 5003;
        DeploymentStep.mk "Database Migration" "running" 4 ] ∧
    ¬ nondecreasing steps.
Proof.
  cbv zeta.
  destruct (job_log "deploy_1"
              (executeFullDeployment Ex.clock_set_back_mid_run "deploy_1"
                 "production" Ex.configured (Ex.deploying, new_world)).2)
    as [steps|] eqn:Hrun; [|by vm_compute in Hrun].
  exists steps. split; [done|].
  assert (Hhead : take 3 steps
    = [ DeploymentStep.mk "Environment Setup" "running" 5000;
        DeploymentStep.mk "Environment Setup" "completed" 5003;
        DeploymentStep.mk "Database Migration" "running" 4 ]).
  { apply (inj Some). change (Some (take 3 steps)) with (take 3 <$> Some steps).
    rewrite <- Hrun. vm_compute. reflexivity. }
  split; [exact Hhead|].
  destruct steps as [|a [|b [|c rest]]]; try discriminate Hhead.
  injection Hhead as -> -> ->. unfold nondecreasing. simpl.
  intros Hsorted.
  apply StronglySorted_inv in Hsorted as [Hrest _].
  apply StronglySorted_inv in Hrest as [_ Hall].
  apply Forall_inv in Hall. lia.
Qed.

(** ** The comprehensive health check *)

Lemma sendHealthAlerts_returns E alerts w :
  (sendHealthAlerts E alerts w).1 = Ok tt.
Proof.
  unfold sendHealthAlerts. rewrite try_catch_run.
  by destruct (for_of alerts _ w) as [[[]|e] w'].
Qed.

Lemma alter_last {A} (f : A → A) (l : list A) x :
  alter f (length l) (l ++ [x]) = l ++ [f x].
Proof. induction l as [|y l IH]; [done|]. simpl. f_equal. exact IH. Qed.

Lemma alloc_run h sys w :
  alloc h (sys, w) = (Ok (length (heap sys)),
                      (set_heap (heap sys ++ [h]) sys, w)).
Proof. reflexivity. Qed.

Lemma assign_run f hp h sys w :
  assign (length hp) f (set_heap (hp ++ [h]) sys, w)
  = (Ok tt, (set_heap (hp ++ [f h]) sys, w)).
Proof.
  unfold assign, Eff.modify, set_heap, with_heap.
  cbn [fst snd heap deploymentStatus systemHealth alertThresholds
       monitoringMetrics].
  by rewrite alter_last.
Qed.

Lemma deref_run hp h sys w :
  deref (length hp) (set_heap (hp ++ [h]) sys, w)
  = (Ok h, (set_heap (hp ++ [h]) sys, w)).
Proof.
  unfold deref. rewrite bind_run. unfold Eff.gets at 1. simpl.
  rewrite lookup_app_r, Nat.sub_diag by done. reflexivity.
Qed.

Lemma systemHealth_set_run key v hp sys w :
  systemHealth_set key v (set_heap hp sys, w)
  = (Ok tt, (set_heap hp (with_systemHealth <[key := v]> sys), w)).
Proof. reflexivity. Qed.

(** The [try] block of a health check on the result object [h0] at the
    end of the heap either runs to its end, storing the reference to the
    object and its status in [systemHealth], or throws before it has
    written anything to [systemHealth]. The status it stores was
    evaluated before the alerts of this check were computed. *)
Lemma performHealthChecks_try_run E hp h0 sys w :
  (∃ h' w',
     performHealthChecks_try E (length hp) (set_heap (hp ++ [h0]) sys, w)
     = (Ok tt,
        (set_heap (hp ++ [h'])
           (with_systemHealth
              (λ m, <["overall_status" :=
                        HStatus (HealthResults.overall_status h')]>
                      (<["last_health_check" := HRef (length hp)]> m))
              sys), w')) ∧
     HealthResults.overall_status h'
     = evaluateOverallHealth
         (HealthResults.set_alerts (HealthResults.alerts h0) h'))
  ∨ (∃ msg h' w',
       performHealthChecks_try E (length hp) (set_heap (hp ++ [h0]) sys, w)
       = (Throw msg, (set_heap (hp ++ [h']) sys, w'))).
Proof.
  unfold performHealthChecks_try.
  rewrite bind_run, lift_run.
  destruct (checkServicesHealth E w) as [[services|e] w1]; cbn [fst snd];
    [|right; by eexists _, _, _].
  rewrite bind_run, assign_run, bind_run, lift_run.
  destruct (checkAgentsHealth E w1) as [[agents|e] w2]; cbn [fst snd];
    [|right; by eexists _, _, _].
  rewrite bind_run, assign_run, bind_run, lift_run.
  destruct (external (infrastructure_probe E) w2) as [[infra|e] w3];
    cbn [fst snd]; [|right; by eexists _, _, _].
  rewrite bind_run, assign_run, bind_run, deref_run.
  rewrite bind_run, assign_run, bind_run, deref_run.
  rewrite bind_run, gets_run. cbv beta iota.
  rewrite bind_run, lift_run.
  destruct (checkForAlerts E _ _ w3) as [[alerts|e] w4]; cbn [fst snd];
    [|right; by eexists _, _, _].
  rewrite bind_run, assign_run, bind_run, systemHealth_set_run.
  rewrite bind_run, deref_run, bind_run, systemHealth_set_run.
  rewrite bind_run, deref_run.
  left. cbn [HealthResults.alerts HealthResults.set_alerts].
  destruct (0 <? length alerts).
  - rewrite lift_run, sendHealthAlerts_returns. by eexists _, _.
  - by eexists _, _.
Qed.

(** C10. When the [try] block of a comprehensive health check throws,
    the stored health state is as before: [systemHealth] is unchanged, so
    neither [last_health_check] nor [overall_status] is updated, every
    result object that existed keeps its content, and readers see the
    previous snapshot. The result object of the failing check, with
    [overall_status] set to [unhealthy] and the error message, is
    referenced from nowhere in [systemHealth]. The check itself returns
    normally. *)
Theorem performHealthChecks_error_keeps_state E s msg :
  (performHealthChecks_try E (length (heap s.1))
     (health_check_started E s)).1 = Throw msg →
  let r := performHealthChecks E s in
  r.1 = Ok tt ∧
  systemHealth r.2.1 = systemHealth s.1 ∧
  (∀ a h, heap s.1 !! a = Some h → heap r.2.1 !! a = Some h) ∧
  (refs_allocated s.1 → last_health_check r.2.1 = last_health_check s.1) ∧
  (∃ discarded,
     heap r.2.1 !! length (heap s.1) = Some discarded ∧
     HealthResults.overall_status discarded = "unhealthy" ∧
     HealthResults.error discarded = Some msg) ∧
  deploymentStatus r.2.1 = deploymentStatus s.1 ∧
  alertThresholds r.2.1 = alertThresholds s.1 ∧
  monitoringMetrics r.2.1 = monitoringMetrics s.1.
Proof.
  destruct s as [sys w]. unfold health_check_started. cbn [fst snd].
  intros Hthrow. cbv zeta. unfold performHealthChecks.
  rewrite bind_run, lift_run, Date_now_run. cbn [fst snd].
  rewrite bind_run, alloc_run, try_catch_run.
  fold (fresh_result (clock E (ticks w))) in *.
  destruct (performHealthChecks_try_run E (heap sys)
              (fresh_result (clock E (ticks w))) sys
              (mkWorld (S (ticks w)) (outbox w)))
    as [(h' & w' & Hrun & _)|(msg' & h' & w' & Hrun)];
    rewrite Hrun in Hthrow |- *; cbn [fst snd] in Hthrow.
  { discriminate Hthrow. }
  injection Hthrow as ->.
  rewrite bind_run, assign_run, assign_run. cbn [fst snd].
  split; [done|]. split; [done|]. split; [|split; [|split]].
  - intros a h Ha. simpl. by apply lookup_app_l_Some.
  - intros Hrefs. unfold last_health_check. simpl.
    destruct (systemHealth sys !! "last_health_check") as [[| |a]|] eqn:Hk;
      try done.
    apply lookup_app_l. by apply (Hrefs "last_health_check").
  - eexists. simpl. rewrite lookup_app_r, Nat.sub_diag by done.
    split; [reflexivity|]. done.
  - done.
Qed.

Lemma monitored_refs_allocated : refs_allocated Ex.monitored.
Proof.
  intros key a. unfold Ex.monitored. simpl.
  rewrite lookup_insert. case_decide.
  - intros [= <-]. lia.
  - rewrite lookup_insert. case_decide; [done|].
    by rewrite lookup_empty.
Qed.

Lemma performHealthChecks_error_keeps_state_witness :
  let r := performHealthChecks Ex.infrastructure_probe_fails
             (Ex.monitored, new_world) in
  r.1 = Ok tt ∧
  systemHealth r.2.1 = systemHealth Ex.monitored ∧
  last_health_check r.2.1 = Some Ex.previous_result.
Proof.
  assert (H : (performHealthChecks_try Ex.infrastructure_probe_fails
                 (length (heap (Ex.monitored, new_world).1))
                 (health_check_started Ex.infrastructure_probe_fails
                    (Ex.monitored, new_world))).1
              = Throw "metrics provider unreachable")
    by (vm_compute; reflexivity).
  destruct (performHealthChecks_error_keeps_state
              Ex.infrastructure_probe_fails (Ex.monitored, new_world)
              "metrics provider unreachable" H)
    as (Hret & Hhealth & _ & Hlast & _).
  split; [exact Hret|]. split; [exact Hhealth|].
  exact (Hlast monitored_refs_allocated).
Defined.

(** The references of [systemHealth] stay allocated over a health check,
    whether it fails or not. *)
Lemma performHealthChecks_refs_allocated E s :
  refs_allocated s.1 → refs_allocated (performHealthChecks E s).2.1.
Proof.
  destruct s as [sys w]. cbn [fst snd]. intros Hrefs.
  unfold performHealthChecks.
  rewrite bind_run, lift_run, Date_now_run. cbn [fst snd].
  rewrite bind_run, alloc_run, try_catch_run.
  destruct (performHealthChecks_try_run E (heap sys)
              (HealthResults.mk (clock E (ticks w)) "healthy" [] []
                                Infrastructure.empty [] None) sys
              (mkWorld (S (ticks w)) (outbox w)))
    as [(h' & w' & -> & _)|(msg' & h' & w' & ->)].
  - intros key a. simpl. rewrite length_app. simpl.
    rewrite lookup_insert. case_decide; [done|].
    rewrite lookup_insert. case_decide.
    + intros [= <-]. lia.
    + intros Ha. specialize (Hrefs key a Ha). lia.
  - rewrite bind_run, assign_run, assign_run. cbn [fst snd].
    intros key a Ha. simpl in *. rewrite length_app. simpl.
    specialize (Hrefs key a Ha). lia.
Qed.

(** A check that runs to its end stores the status it evaluated before
    the alerts were computed: with the voice engine down the stored status
    is [degraded], and the stored result holds the critical [service_down]
    alert raised afterwards. *)
Example performHealthChecks_status_precedes_alerts :
  let s' := (performHealthChecks Ex.voice_engine_down
               (Ex.monitored, new_world)).2 in
  systemHealth s'.1 !! "overall_status" = Some (HStatus "degraded") ∧
  (HealthResults.overall_status <$> last_health_check s'.1)
    = Some "degraded" ∧
  (count_critical ∘ HealthResults.alerts <$> last_health_check s'.1)
    = Some 1.
Proof. vm_compute. repeat split; reflexivity. Qed.

(** ** The scheduler *)

(** The scheduled tasks never throw into the scheduler. *)
Lemma scheduled_tasks_return E s :
  (scheduled_health_check E s).1 = Ok tt ∧
  (scheduled_metrics_collection E s).1 = Ok tt.
Proof.
  unfold scheduled_health_check, scheduled_metrics_collection.
  rewrite !try_catch_run. split.
  - by destruct (performHealthChecks E s) as [[[]|e] s'].
  - by destruct (collectPerformanceMetrics E s) as [[[]|e] s'].
Qed.

(** ** Further properties of the aggregation *)

(** X1. The overall status is monotone in the three counts: a result with
    at least as many critical alerts, unhealthy services and unhealthy
    agents as another never gets a better status. *)
Theorem evaluateOverallHealth_monotone (h1 h2 : HealthResults.t) :
  count_critical (HealthResults.alerts h1)
    ≤ count_critical (HealthResults.alerts h2) →
  count_unhealthy (HealthResults.services h1)
    ≤ count_unhealthy (HealthResults.services h2) →
  count_unhealthy (HealthResults.agents h1)
    ≤ count_unhealthy (HealthResults.agents h2) →
  status_rank (evaluateOverallHealth h1)
    ≤ status_rank (evaluateOverallHealth h2).
Proof.
  unfold evaluateOverallHealth. intros Hc Hs Ha.
  destruct (Nat.ltb_spec 0 (count_critical (HealthResults.alerts h1))),
    (Nat.ltb_spec 2 (count_unhealthy (HealthResults.services h1))),
    (Nat.ltb_spec 0 (count_unhealthy (HealthResults.services h1))),
    (Nat.ltb_spec 3 (count_unhealthy (HealthResults.agents h1))),
    (Nat.ltb_spec 0 (count_unhealthy (HealthResults.agents h1))),
    (Nat.ltb_spec 0 (count_critical (HealthResults.alerts h2))),
    (Nat.ltb_spec 2 (count_unhealthy (HealthResults.services h2))),
    (Nat.ltb_spec 0 (count_unhealthy (HealthResults.services h2))),
    (Nat.ltb_spec 3 (count_unhealthy (HealthResults.agents h2))),
    (Nat.ltb_spec 0 (count_unhealthy (HealthResults.agents h2)));
    simpl; try lia; vm_compute; lia.
Qed.

Lemma evaluateOverallHealth_monotone_witness :
  status_rank (evaluateOverallHealth Ex.one_service_four_agents_down)
    ≤ status_rank (evaluateOverallHealth Ex.worse).
Proof.
  apply evaluateOverallHealth_monotone; vm_compute; lia.
Defined.

(** X2. Score and status agree on the same result: the score is 100
    exactly when the status is healthy; a warning scores between 85 and
    95, a degraded result at most 90 and a critical one at most 85. *)
Theorem score_agrees_with_status (h : HealthResults.t) :
  (calculateHealthScore (Some h) = 100%Z ↔
     evaluateOverallHealth h = "healthy") ∧
  (evaluateOverallHealth h = "warning" →
     (85 ≤ calculateHealthScore (Some h) ≤ 95)%Z) ∧
  (evaluateOverallHealth h = "degraded" →
     (calculateHealthScore (Some h) ≤ 90)%Z) ∧
  (evaluateOverallHealth h = "critical" →
     (calculateHealthScore (Some h) ≤ 85)%Z).
Proof.
  unfold evaluateOverallHealth, calculateHealthScore. cbv zeta.
  destruct (Nat.ltb_spec 0 (count_critical (HealthResults.alerts h))),
    (Nat.ltb_spec 2 (count_unhealthy (HealthResults.services h))),
    (Nat.ltb_spec 0 (count_unhealthy (HealthResults.services h))),
    (Nat.ltb_spec 3 (count_unhealthy (HealthResults.agents h))),
    (Nat.ltb_spec 0 (count_unhealthy (HealthResults.agents h)));
    simpl; repeat split; intros; try discriminate; try lia.
Qed.

Lemma score_agrees_with_status_witness :
  (calculateHealthScore (Some Ex.two_one_one) ≤ 90)%Z.
Proof.
  apply (score_agrees_with_status Ex.two_one_one). reflexivity.
Defined.

(** ** Durations *)

(** X3. For two valid dates no more than 2^53 milliseconds apart,
    [formatDuration] renders the floor of the difference in minutes and a
    seconds part. For an end not before the start the minutes are not
    negative, the seconds part lies between 0 and 59, and together they
    give the duration to within a second. For an end before the start the
    minutes are negative and the seconds part lies between -60 and 0: the
    text is not the elapsed time with a sign. *)
Theorem formatDuration_parts (start end_ : Z) :
  valid_time start = true →
  valid_time end_ = true →
  (Z.abs (end_ - start) ≤ 2 ^ 53)%Z →
  ∃ minutes seconds : Z,
    formatDuration start end_
    = Some (pretty minutes +:+ "m " +:+ pretty seconds +:+ "s") ∧
    (60000 * minutes ≤ end_ - start < 60000 * minutes + 60000)%Z ∧
    (1000 * seconds ≤ (end_ - start) `rem` 60000
     < 1000 * seconds + 1000)%Z ∧
    ((start ≤ end_)%Z →
       (0 ≤ minutes)%Z ∧ (0 ≤ seconds ≤ 59)%Z ∧
       (60000 * minutes + 1000 * seconds ≤ end_ - start)%Z ∧
       (end_ - start < 60000 * minutes + 1000 * seconds + 1000)%Z) ∧
    ((end_ < start)%Z → (minutes < 0)%Z ∧ (-60 ≤ seconds ≤ 0)%Z).
Proof.
  intros Hstart Hend Hexact. unfold formatDuration. cbv zeta.
  rewrite Hstart, Hend, (bool_decide_eq_true_2 _ Hexact). cbn [andb].
  set (diff := (end_ - start)%Z).
  exists (diff `div` 60000)%Z, ((diff `rem` 60000) `div` 1000)%Z.
  split; [reflexivity|].
  pose proof (Z.div_mod diff 60000 ltac:(lia)) as Hdm.
  pose proof (Z.mod_pos_bound diff 60000 ltac:(lia)) as Hmb.
  pose proof (Z.div_mod (diff `rem` 60000) 1000 ltac:(lia)) as Hdm2.
  pose proof (Z.mod_pos_bound (diff `rem` 60000) 1000 ltac:(lia)) as Hmb2.
  split; [lia|]. split; [lia|]. split.
  - intros Hle. assert (0 ≤ diff)%Z as Hdiff by (unfold diff; lia).
    rewrite Z.rem_mod_nonneg in * by lia.
    assert (0 ≤ diff `div` 60000)%Z by (apply Z.div_pos; lia).
    assert (0 ≤ (diff `mod` 60000) `div` 1000)%Z
      by (apply Z.div_pos; lia).
    assert ((diff `mod` 60000) `div` 1000 < 60)%Z
      by (apply Z.div_lt_upper_bound; lia).
    lia.
  - intros Hlt. assert (diff < 0)%Z as Hdiff by (unfold diff; lia).
    split.
    + apply Z.div_lt_upper_bound; lia.
    + pose proof (Z.rem_bound_pos_neg diff 60000 ltac:(lia) ltac:(lia))
        as Hrb.
      split.
      * apply Z.div_le_lower_bound; lia.
      * apply Z.div_le_upper_bound; lia.
Qed.

Lemma formatDuration_parts_witness :
  ∃ minutes seconds : Z,
    formatDuration 1000 1086500
    = Some (pretty minutes +:+ "m " +:+ pretty seconds +:+ "s") ∧
    (0 ≤ seconds ≤ 59)%Z.
Proof.
  destruct (formatDuration_parts 1000 1086500)
    as (minutes & seconds & Htext & _ & _ & Hpos & _).
  - reflexivity.
  - reflexivity.
  - vm_compute. discriminate.
  - exists minutes, seconds. split; [exact Htext|].
    apply Hpos. lia.
Defined.

(** 18 minutes and 5.5 seconds; and an end half a second before the
    start. *)
Example formatDuration_examples :
  formatDuration 1000 1086500 = Some "18m 5s" ∧
  formatDuration 1000 500 = Some "-1m -1s".
Proof. split; vm_compute; reflexivity. Qed.

(** ** Further properties of the deployment stages *)

Lemma external_run {A} (o : nat → Result A) w :
  external o w = (o (ticks w), mkWorld (S (ticks w)) (outbox w)).
Proof. reflexivity. Qed.

(** X4. [setupEnvironment] returns exactly when every required key has a
    truthy value in [process.env] or in the supplied configuration (an
    empty string does not count) and writing the configuration file
    succeeds. *)
Theorem setupEnvironment_ok_iff E environment config w :
  (setupEnvironment E environment config w).1 = Ok tt ↔
  (∀ v, v ∈ requiredVars →
     Js.env_truthy (process_env E) v = true
     ∨ Js.truthy_at config v = true) ∧
  fs_writeFile E (envConfig E environment (clock E (ticks w)) config)
               (S (ticks w)) = Ok tt.
Proof.
  unfold setupEnvironment.
  rewrite bind_run, Date_now_run. cbv beta iota zeta.
  rewrite bind_run, for_of_throw_find.
  set (cfg := envConfig E environment (clock E (ticks w)) config).
  destruct (List.find (missing_var E cfg) requiredVars) as [v'|] eqn:Hfind.
  - apply find_some in Hfind as [Hin Hmiss].
    apply list_elem_of_In in Hin.
    unfold missing_var, Js.truthy_at, cfg in Hmiss.
    rewrite envConfig_required in Hmiss by done.
    apply andb_true_iff in Hmiss as [H1 H2].
    apply negb_true_iff in H1, H2.
    split; [done|]. intros [Hall _].
    destruct (Hall v' Hin) as [H|H]; unfold Js.truthy_at in H; congruence.
  - rewrite external_run. cbn [fst ticks]. split.
    + intros Hw. split; [|done]. intros v Hv.
      apply list_elem_of_In in Hv.
      pose proof (find_none _ _ Hfind v Hv) as Hnot.
      apply list_elem_of_In in Hv.
      unfold missing_var, Js.truthy_at, cfg in Hnot.
      rewrite envConfig_required in Hnot by done.
      apply andb_false_iff in Hnot as [H|H]; apply negb_false_iff in H;
        [by left|by right].
    + by intros [_ Hw].
Qed.

(** An empty string in [process.env] leaves the key missing. *)
Example setupEnvironment_empty_string :
  (setupEnvironment Ex.empty_supabase_url "production" ∅ new_world).1
  = Throw "Missing required environment variable: SUPABASE_URL".
Proof. vm_compute. reflexivity. Qed.

(** X5. [runDatabaseMigrations] returns exactly when the two commands and
    the seeding succeed, in that order; any failure surfaces as the one
    error "Database migration failed", whatever the original message, and
    a failing first command keeps the second from running. *)
Theorem runDatabaseMigrations_outcome E w :
  let reset := exec E "npx supabase db reset --linked" (ticks w) in
  let push := exec E "npx supabase db push --linked" (S (ticks w)) in
  let seed := stage_impl E "seedInitialData" "" (S (S (ticks w))) in
  ((runDatabaseMigrations E w).1 = Ok tt ↔
     reset = Ok tt ∧ push = Ok tt ∧ seed = Ok tt) ∧
  ((runDatabaseMigrations E w).1 = Ok tt ∨
   (runDatabaseMigrations E w).1 = Throw "Database migration failed") ∧
  (∀ msg, reset = Throw msg →
     ticks (runDatabaseMigrations E w).2 = S (ticks w)).
Proof.
  cbv zeta. unfold runDatabaseMigrations, seedInitialData.
  rewrite try_catch_run, bind_run, external_run.
  destruct (exec E "npx supabase db reset --linked" (ticks w)) as [[]|e1];
    cbn [fst snd ticks outbox].
  - rewrite bind_run, external_run. cbn [ticks outbox].
    destruct (exec E "npx supabase db push --linked" (S (ticks w)))
      as [[]|e2]; cbn [fst snd ticks outbox].
    + rewrite external_run. cbn [ticks outbox].
      destruct (stage_impl E "seedInitialData" "" (S (S (ticks w))))
        as [[]|e3]; cbn [fst snd]; (split; [|split]);
        try (by left); try (by right); try done; split; try done;
        intros (_ & _ & ?); done.
    + split; [|split]; try (by right); try done.
      split; [done|]. intros (_ & ? & _). done.
  - split; [|split]; try (by right); try done.
    split; [done|]. intros (? & _). done.
Qed.

Lemma runDatabaseMigrations_outcome_witness :
  ticks (runDatabaseMigrations Ex.reset_fails new_world).2 = 1.
Proof.
  apply (runDatabaseMigrations_outcome Ex.reset_fails new_world)
    with (msg := "connection refused").
  reflexivity.
Defined.

Tactic Notation "earlier_calls" ident(j) ident(Hlt) ident(Hlook) :=
  repeat (destruct j as [|j];
          [cbv in Hlook; injection Hlook as <-; simpl; solve [eauto]|]);
  cbv in Hlook; first [discriminate Hlook | lia].

(** [deployAgent] either makes its five calls, or stops at the first one
    that throws and wraps its error. *)
Lemma deployAgent_first_failure E agentId w :
  ((∀ i method, agent_steps !! i = Some method →
      stage_impl E method agentId (i + ticks w) = Ok tt) ∧
   deployAgent E agentId w = (Ok tt, mkWorld (5 + ticks w) (outbox w)))
  ∨ (∃ i method msg,
       agent_steps !! i = Some method ∧
       (∀ j earlier, j < i → agent_steps !! j = Some earlier →
          stage_impl E earlier agentId (j + ticks w) = Ok tt) ∧
       stage_impl E method agentId (i + ticks w) = Throw msg ∧
       deployAgent E agentId w
       = (Throw (deploy_agent_error agentId msg),
          mkWorld (S i + ticks w) (outbox w))).
Proof.
  unfold deployAgent. rewrite try_catch_run.
  rewrite bind_run, external_run.
  destruct (stage_impl E "loadAgentConfig" agentId (ticks w))
    as [[]|e] eqn:H0; cbn [ticks outbox].
  2: { right. exists 0, "loadAgentConfig", e.
       split; [done|]. split; [|by split].
       intros j earlier Hlt Hlook. lia. }
  rewrite bind_run, external_run. cbn [ticks outbox].
  destruct (stage_impl E "deployAgentService" agentId (S (ticks w)))
    as [[]|e] eqn:H1; cbn [ticks outbox].
  2: { right. exists 1, "deployAgentService", e.
       split; [done|]. split; [|by split].
       intros j earlier Hlt Hlook. earlier_calls j Hlt Hlook. }
  rewrite bind_run, external_run. cbn [ticks outbox].
  destruct (stage_impl E "configureAgentEndpoints" agentId
                       (S (S (ticks w)))) as [[]|e] eqn:H2;
    cbn [ticks outbox].
  2: { right. exists 2, "configureAgentEndpoints", e.
       split; [done|]. split; [|by split].
       intros j earlier Hlt Hlook. earlier_calls j Hlt Hlook. }
  rewrite bind_run, external_run. cbn [ticks outbox].
  destruct (stage_impl E "testAgentDeployment" agentId
                       (S (S (S (ticks w))))) as [[]|e] eqn:H3;
    cbn [ticks outbox].
  2: { right. exists 3, "testAgentDeployment", e.
       split; [done|]. split; [|by split].
       intros j earlier Hlt Hlook. earlier_calls j Hlt Hlook. }
  rewrite external_run. cbn [ticks outbox].
  destruct (stage_impl E "updateAgentStatus" agentId
                       (S (S (S (S (ticks w)))))) as [[]|e] eqn:H4;
    cbn [ticks outbox].
  2: { right. exists 4, "updateAgentStatus", e.
       split; [done|]. split; [|by split].
       intros j earlier Hlt Hlook. earlier_calls j Hlt Hlook. }
  left. split; [|done].
  intros i method Hlook.
  assert (i < 5) as Hlt by (by apply lookup_lt_Some in Hlook).
  earlier_calls i Hlt Hlook.
Qed.

Lemma rollout_calls_cons agentId agents :
  rollout_calls (agentId :: agents)
  = ((λ method, (method, agentId)) <$> agent_steps) ++ rollout_calls agents.
Proof. reflexivity. Qed.

Lemma rollout_calls_lookup agentId agents i call :
  rollout_calls (agentId :: agents) !! i = Some call →
  (i < 5 ∧ call.2 = agentId ∧ agent_steps !! i = Some call.1)
  ∨ (5 ≤ i ∧ rollout_calls agents !! (i - 5) = Some call).
Proof.
  rewrite rollout_calls_cons. intros [Hi|[Hlen Hi]]%lookup_app_Some.
  - left. rewrite list_lookup_fmap in Hi.
    destruct (agent_steps !! i) as [method|] eqn:Hm; [|done].
    injection Hi as <-. apply lookup_lt_Some in Hm. done.
  - right. by rewrite length_fmap in Hlen, Hi.
Qed.

(** A rollout makes the calls of [rollout_calls] in order, one per tick,
    and stops at the first that throws: no call follows it. *)
Lemma rollout_run E agents w :
  ((∀ i call, rollout_calls agents !! i = Some call →
      stage_impl E call.1 call.2 (i + ticks w) = Ok tt) ∧
   for_of agents (deployAgent E) w
   = (Ok tt, mkWorld (length (rollout_calls agents) + ticks w) (outbox w)))
  ∨ (∃ i call msg,
       rollout_calls agents !! i = Some call ∧
       (∀ j earlier, j < i → rollout_calls agents !! j = Some earlier →
          stage_impl E earlier.1 earlier.2 (j + ticks w) = Ok tt) ∧
       stage_impl E call.1 call.2 (i + ticks w) = Throw msg ∧
       for_of agents (deployAgent E) w
       = (Throw (deploy_agent_error call.2 msg),
          mkWorld (S i + ticks w) (outbox w))).
Proof.
  revert w. induction agents as [|a rest IH]; intros w.
  - left. split; [done|]. by destruct w.
  - cbn [for_of]. rewrite bind_run.
    destruct (deployAgent_first_failure E a w)
      as [(Hall & ->)|(i & m & msg & Hi & Hbefore & Hthrow & ->)].
    + destruct (IH (mkWorld (5 + ticks w) (outbox w)))
        as [(Hrest & ->)|(i & call & msg & Hi & Hbefore & Hthrow & ->)];
        cbn [ticks outbox] in *.
      * left. split.
        -- intros i call [(Hlt & Ha & Hm)|[Hge Hcall]]%rollout_calls_lookup.
           ++ rewrite Ha. by apply Hall.
           ++ replace (i + ticks w) with (i - 5 + (5 + ticks w)) by lia.
              by apply Hrest.
        -- rewrite rollout_calls_cons, length_app, length_fmap.
           replace (length agent_steps + length (rollout_calls rest)
                    + ticks w)
             with (length (rollout_calls rest) + (5 + ticks w))
             by (simpl; lia).
           done.
      * right. exists (5 + i), call, msg. split; [|split; [|split]].
        -- rewrite rollout_calls_cons, lookup_app_r, length_fmap
             by (rewrite length_fmap; simpl; lia).
           by replace (5 + i - length agent_steps) with i by (simpl; lia).
        -- intros j earlier Hlt
             [(Hj & Ha & Hm)|[Hge Hcall]]%rollout_calls_lookup.
           ++ rewrite Ha. by apply Hall.
           ++ replace (j + ticks w) with (j - 5 + (5 + ticks w)) by lia.
              apply Hbefore; [lia|done].
        -- by replace (5 + i + ticks w) with (i + (5 + ticks w)) by lia.
        -- by replace (S (5 + i) + ticks w) with (S i + (5 + ticks w))
             by lia.
    + right. exists i, (m, a), msg.
      pose proof (lookup_lt_Some _ _ _ Hi) as Hlt.
      split; [|split; [|split]]; [| |done|done].
      * rewrite rollout_calls_cons, lookup_app_l
          by (by rewrite length_fmap).
        by rewrite list_lookup_fmap, Hi.
      * intros j earlier Hj
          [(_ & Ha & Hm)|[Hge _]]%rollout_calls_lookup.
        -- rewrite Ha. by apply Hbefore.
        -- simpl in Hlt. lia.
Qed.

(** X6. Agent rollout is fail-fast. [deployAllAgents] makes its 55 calls
    (the five steps of each of the eleven agents, in roster order) one
    after the other. When all of them return it returns after the 55th.
    When one throws while the calls before it returned, it throws the
    error of that first failing call, wrapped as "Failed to deploy agent
    <id>: <message>" with the agent of that call, and no call follows:
    the rollout ends right after the failing call. One of the two always
    happens. *)
Theorem deployAllAgents_fail_fast E w :
  let calls := rollout_calls agentIds in
  let outcome i (call : string * string) :=
    stage_impl E call.1 call.2 (i + ticks w) in
  length calls = 55 ∧
  ((∀ i call, calls !! i = Some call → outcome i call = Ok tt) →
   deployAllAgents E w = (Ok tt, mkWorld (55 + ticks w) (outbox w))) ∧
  (∀ i call msg,
     calls !! i = Some call →
     (∀ j earlier, j < i → calls !! j = Some earlier →
        outcome j earlier = Ok tt) →
     outcome i call = Throw msg →
     deployAllAgents E w
     = (Throw (deploy_agent_error call.2 msg),
        mkWorld (S i + ticks w) (outbox w))) ∧
  ((∀ i call, calls !! i = Some call → outcome i call = Ok tt)
   ∨ ∃ i call msg,
       calls !! i = Some call ∧
       (∀ j earlier, j < i → calls !! j = Some earlier →
          outcome j earlier = Ok tt) ∧
       outcome i call = Throw msg).
Proof.
  cbv zeta. unfold deployAllAgents. split; [reflexivity|].
  destruct (rollout_run E agentIds w)
    as [(Hall & Hrun)|(i & call & msg & Hi & Hbefore & Hthrow & Hrun)].
  - split; [by intros _|]. split; [|by left].
    intros i call msg Hi _ Hthrow.
    rewrite (Hall i call Hi) in Hthrow. discriminate Hthrow.
  - split; [|split].
    + intros Hall. rewrite (Hall i call Hi) in Hthrow. discriminate Hthrow.
    + intros i' call' msg' Hi' Hbefore' Hthrow'.
      destruct (Nat.lt_trichotomy i i') as [Hlt|[<-|Hlt]].
      * rewrite (Hbefore' i call Hlt Hi) in Hthrow. discriminate Hthrow.
      * rewrite Hi in Hi'. injection Hi' as <-.
        rewrite Hthrow in Hthrow'. injection Hthrow' as <-. exact Hrun.
      * rewrite (Hbefore i' call' Hlt Hi') in Hthrow'.
        discriminate Hthrow'.
    + right. by exists i, call, msg.
Qed.

Lemma deployAllAgents_fail_fast_witness :
  deployAllAgents Ex.agent_test_fails new_world
  = (Throw (deploy_agent_error "miss-legal" "smoke test failed"),
     mkWorld 14 []).
Proof.
  apply (proj1 (proj2 (proj2 (deployAllAgents_fail_fast
                                Ex.agent_test_fails new_world)))
               13 ("testAgentDeployment", "miss-legal")
               "smoke test failed").
  - reflexivity.
  - intros j earlier Hlt Hlook.
    do 13 (destruct j as [|j];
           [injection Hlook as <-; reflexivity|]).
    lia.
  - reflexivity.
Defined.

(** ** Further properties of a deployment run *)

(** X7. A deployment of an existing job always ends the job in a terminal
    status and never throws: either every stage returned, and the job is
    [completed] with [success] set, a completion date and the [running]
    and [completed] steps of all seven stages appended in order, or a
    stage threw and the job is [failed] with the error and a failure
    date. The start date and the environment of the job are kept. *)
Theorem executeFullDeployment_terminal
    E id environment config sys w d :
  deploymentStatus sys !! id = Some d →
  let r := executeFullDeployment E id environment config (sys, w) in
  r.1 = Ok tt ∧
  ∃ d' added,
    deploymentStatus r.2.1 !! id = Some d' ∧
    DeploymentJob.steps d' = DeploymentJob.steps d ++ added ∧
    DeploymentJob.started_at d' = DeploymentJob.started_at d ∧
    DeploymentJob.environment d' = DeploymentJob.environment d ∧
    (((executeFullDeployment_try E id environment config (sys, w)).1
        = Ok tt ∧
      DeploymentJob.status d' = "completed" ∧
      DeploymentJob.success d' = Some true ∧
      is_Some (DeploymentJob.completed_at d') ∧
      DeploymentJob.error d' = DeploymentJob.error d ∧
      step_view <$> added = flat_map stage_log stage_names)
     ∨ (∃ msg,
          (executeFullDeployment_try E id environment config (sys, w)).1
            = Throw msg ∧
          DeploymentJob.status d' = "failed" ∧
          DeploymentJob.error d' = Some msg ∧
          is_Some (DeploymentJob.failed_at d') ∧
          DeploymentJob.success d' = DeploymentJob.success d ∧
          DeploymentJob.completed_at d' = DeploymentJob.completed_at d)).
Proof.
  intros Hd. cbv zeta.
  destruct (executeFullDeployment_run E id environment config sys w d Hd)
    as (added & w' & now & _ &
        [(Hok & Hview & ->)
        |(j & name & body & w1 & msg & _ & _ & Hthrow & _ & ->)]);
    cbn [fst snd]; (split; [done|]); eexists _, added;
    rewrite set_job_lookup; (split; [done|]); (split; [done|]);
    (split; [done|]); (split; [done|]).
  - left. simpl. eauto 10.
  - right. exists msg. simpl. eauto 10.
Qed.

Lemma executeFullDeployment_terminal_witness :
  (executeFullDeployment Ex.quiet_env "deploy_1" "production"
     Ex.configured (Ex.deploying, new_world)).1 = Ok tt.
Proof.
  assert (H1 : deploymentStatus Ex.deploying !! "deploy_1" = Some Ex.job0)
    by reflexivity.
  exact (proj1 (executeFullDeployment_terminal
                  Ex.quiet_env "deploy_1" "production" Ex.configured
                  Ex.deploying new_world Ex.job0 H1)).
Defined.

(** With every key supplied in the configuration and no stage failing the
    job completes with fourteen steps. *)
Example executeFullDeployment_completes :
  (λ d, (DeploymentJob.status d, length (DeploymentJob.steps d))) <$>
    deploymentStatus
      (executeFullDeployment Ex.quiet_env "deploy_1" "production"
         Ex.configured (Ex.deploying, new_world)).2.1 !! "deploy_1"
  = Some ("completed", 14).
Proof. vm_compute. reflexivity. Qed.

(** X8. A deployment of an existing job changes nothing but that job: the
    other jobs, the health state, the thresholds, the metrics and the
    health-check result objects are as before. *)
Theorem executeFullDeployment_frame
    E id environment config sys w d :
  deploymentStatus sys !! id = Some d →
  let s' := (executeFullDeployment E id environment config (sys, w)).2 in
  (∀ id', id ≠ id' →
     deploymentStatus s'.1 !! id' = deploymentStatus sys !! id') ∧
  systemHealth s'.1 = systemHealth sys ∧
  alertThresholds s'.1 = alertThresholds sys ∧
  monitoringMetrics s'.1 = monitoringMetrics sys ∧
  heap s'.1 = heap sys.
Proof.
  intros Hd. cbv zeta.
  destruct (executeFullDeployment_run E id environment config sys w d Hd)
    as (added & w' & now & _ &
        [(_ & _ & ->)|(j & name & body & w1 & msg & _ & _ & _ & _ & ->)]);
    cbn [fst snd]; (split; [|done]); intros id' Hne;
    by apply set_job_lookup_ne.
Qed.

Lemma executeFullDeployment_frame_witness :
  systemHealth
    (executeFullDeployment Ex.quiet_env "deploy_1" "production"
       Ex.configured (Ex.deploying, new_world)).2.1
  = systemHealth Ex.deploying.
Proof.
  assert (H1 : deploymentStatus Ex.deploying !! "deploy_1" = Some Ex.job0)
    by reflexivity.
  exact (proj1 (proj2 (executeFullDeployment_frame
                         Ex.quiet_env "deploy_1" "production" Ex.configured
                         Ex.deploying new_world Ex.job0 H1))).
Defined.

Lemma updateDeploymentStep_absent E id name status sys w :
  deploymentStatus sys !! id = None →
  updateDeploymentStep E id name status (sys, w) = (Ok tt, (sys, w)).
Proof.
  intros Hd. unfold updateDeploymentStep. rewrite bind_run, gets_run.
  cbn [fst snd]. by rewrite Hd.
Qed.

(** Without the job no step is logged: the stages run as their bodies
    alone. *)
Lemma run_stages_absent E id stages k sys w :
  deploymentStatus sys !! id = None →
  run_stages E id stages k (sys, w)
  = match for_of stages (λ stage, stage.2) w with
    | (Ok _, w') => k (sys, w')
    | (Throw e, w') => (Throw e, (sys, w'))
    end.
Proof.
  intros Hd. revert w.
  induction stages as [|[name body] rest IH]; intros w; [done|].
  simpl run_stages. cbn [for_of].
  rewrite bind_run, (updateDeploymentStep_absent _ _ _ _ _ _ Hd).
  rewrite bind_run, lift_run, (bind_run (body : IO unit)).
  cbn [snd].
  destruct (body w) as [[[]|e] w1]; cbn [fst snd]; [|done].
  rewrite bind_run, (updateDeploymentStep_absent _ _ _ _ _ _ Hd).
  apply IH.
Qed.

Lemma update_job_absent E id f sys w :
  deploymentStatus sys !! id = None →
  update_job E id f (sys, w)
  = (Throw "Cannot set properties of undefined (setting 'status')",
     (sys, w)).
Proof.
  intros Hd. unfold update_job. rewrite bind_run, gets_run.
  cbn [fst snd]. by rewrite Hd.
Qed.

(** X9. A deployment run for an identifier that has no job first runs
    the stage bodies, in order and up to the first that throws, without
    logging a step or reading the clock for one. Its [try] block then
    always throws: the error of the failing stage, or the [TypeError] of
    the assignment to the missing job when every stage returned. The
    [catch] block throws that [TypeError] itself, whatever it caught, so
    the run throws out of its own handler and the error of a failing
    stage is lost. The fields of the instance are left as they were. *)
Theorem executeFullDeployment_unknown_job E id environment config sys w :
  deploymentStatus sys !! id = None →
  let type_error :=
    "Cannot set properties of undefined (setting 'status')" in
  let stages := stage_bodies E environment config w in
  (∃ msg,
     executeFullDeployment_try E id environment config (sys, w)
     = (Throw msg, (sys, stages.2)) ∧
     (stages.1 = Ok tt → msg = type_error) ∧
     (∀ e, stages.1 = Throw e → msg = e)) ∧
  (∀ msg w0,
     (update_job E id (DeploymentJob.fail msg) ;;
      sendDeploymentNotification id) (sys, w0)
     = (Throw type_error, (sys, w0))) ∧
  executeFullDeployment E id environment config (sys, w)
  = (Throw type_error, (sys, stages.2)).
Proof.
  intros Hd. cbv zeta.
  assert (Hhandler : ∀ msg w0,
    (update_job E id (DeploymentJob.fail msg) ;;
     sendDeploymentNotification id) (sys, w0)
    = (Throw "Cannot set properties of undefined (setting 'status')",
       (sys, w0))).
  { intros msg w0. by rewrite bind_run, (update_job_absent _ _ _ _ _ Hd). }
  unfold executeFullDeployment.
  rewrite try_catch_run, executeFullDeployment_try_pipeline,
    (run_stages_absent _ _ _ _ _ _ Hd).
  unfold stage_bodies.
  destruct (for_of (pipeline E environment config) (λ stage, stage.2) w)
    as [[[]|e] w'] eqn:Hstages; cbn [fst snd].
  - rewrite bind_run, (update_job_absent _ _ _ _ _ Hd).
    split; [|split; [exact Hhandler|apply Hhandler]].
    eexists. split; [reflexivity|]. split; [done|]. by intros e.
  - split; [|split; [exact Hhandler|apply Hhandler]].
    exists e. split; [reflexivity|]. split; [done|]. by intros e' [= ->].
Qed.

Lemma executeFullDeployment_unknown_job_witness :
  executeFullDeployment Ex.quiet_env "deploy_2" "production"
    Ex.configured (Ex.deploying, new_world)
  = (Throw "Cannot set properties of undefined (setting 'status')",
     (Ex.deploying, mkWorld 69 [])).
Proof.
  assert (H1 : deploymentStatus Ex.deploying !! "deploy_2" = None)
    by reflexivity.
  rewrite (proj2 (proj2 (executeFullDeployment_unknown_job
                           Ex.quiet_env "deploy_2" "production"
                           Ex.configured Ex.deploying new_world H1))).
  do 2 f_equal.
Defined.

(** When a stage fails for an unknown job, its error does not reach the
    caller. *)
Example executeFullDeployment_unknown_job_loses_error :
  (executeFullDeployment_try Ex.core_services_fail "deploy_2" "production"
     ∅ (Ex.deploying, new_world)).1 = Throw "service unavailable" ∧
  (executeFullDeployment Ex.core_services_fail "deploy_2" "production"
     ∅ (Ex.deploying, new_world)).1
  = Throw "Cannot set properties of undefined (setting 'status')".
Proof. split; vm_compute; reflexivity. Qed.

(** ** Starting a deployment *)

Lemma executeFullDeployment_resumes E id environment config sys w d :
  deploymentStatus sys !! id = Some d →
  executeFullDeployment E id environment config (sys, w)
  = executeFullDeployment_rest E id environment config
      (updateDeploymentStep E id "Environment Setup" "running" (sys, w)).2.
Proof.
  intros Hd. unfold executeFullDeployment, executeFullDeployment_rest.
  rewrite !try_catch_run.
  change (executeFullDeployment_try E id environment config)
    with (updateDeploymentStep E id "Environment Setup" "running" ;;
          run_actions (tail (deployment_actions E id environment config))).
  by rewrite bind_run, (updateDeploymentStep_run _ _ _ _ _ _ _ Hd).
Qed.

(** X10. [deployFullSystem] answers before the deployment has run. For a
    request with a body it reads the clock three times and nothing else
    of the world, answers with the identifier "deploy_" followed by the
    first reading and the tracking address built from it, and leaves
    under that identifier a new job, [initializing], for the requested
    environment ([production] when the request names none), whose log
    holds exactly the [running] step of "Environment Setup"; a job that
    was stored under the identifier is replaced, the other jobs are as
    before. The rest of the deployment is left pending; run from there,
    it ends as [executeFullDeployment] ends on the job as created. A
    request without a body is answered with status 500, starts nothing
    and changes nothing. *)
Theorem deployFullSystem_answers_first E b sys w :
  let environment := default "production" (DeployRequest.environment b) in
  let config := default ∅ (DeployRequest.config b) in
  let id := "deploy_" +:+ pretty (clock E (ticks w)) in
  let created :=
    DeploymentJob.mk "initializing" (clock E (S (ticks w))) environment []
                     None None None None in
  let pending := executeFullDeployment_rest E id environment config in
  let r := deployFullSystem E (Some b) (sys, w) in
  r.1 = Ok (json (DeployAccepted.mk true id "initiated" "15-20 minutes"
                    ("/api/deploy/status?id=" +:+ id)),
            Some pending) ∧
  r.2.2 = mkWorld (3 + ticks w) (outbox w) ∧
  deploymentStatus r.2.1 !! id
  = Some (DeploymentJob.push_step
            (DeploymentStep.mk "Environment Setup" "running"
                               (clock E (S (S (ticks w))))) created) ∧
  (∀ id', id ≠ id' →
     deploymentStatus r.2.1 !! id' = deploymentStatus sys !! id') ∧
  pending r.2
  = executeFullDeployment E id environment config
      (set_job id created sys, mkWorld (2 + ticks w) (outbox w)) ∧
  ∃ msg,
    deployFullSystem E None (sys, w) = (Ok (status_500 msg, None), (sys, w)).
Proof.
  cbv zeta.
  set (environment := default "production" (DeployRequest.environment b)).
  set (config := default ∅ (DeployRequest.config b)).
  set (id := "deploy_" +:+ pretty (clock E (ticks w))).
  set (created := DeploymentJob.mk "initializing" (clock E (S (ticks w)))
                    environment [] None None None None).
  set (first_step := DeploymentStep.mk "Environment Setup" "running"
                                      (clock E (S (S (ticks w))))).
  assert (Hrun : deployFullSystem E (Some b) (sys, w)
    = (Ok (json (DeployAccepted.mk true id "initiated" "15-20 minutes"
                   ("/api/deploy/status?id=" +:+ id)),
           Some (executeFullDeployment_rest E id environment config)),
       (set_job id (DeploymentJob.push_step first_step created) sys,
        mkWorld (3 + ticks w) (outbox w)))).
  { unfold deployFullSystem. rewrite try_catch_run. cbv zeta.
    rewrite bind_run, lift_run, Date_now_run. cbn [fst snd].
    rewrite bind_run, lift_run, Date_now_run. cbn [fst snd].
    rewrite bind_run. unfold Eff.modify at 1. cbn [fst snd ticks outbox].
    fold environment. fold config. fold id. fold created.
    change (with_deploymentStatus <[id := created]> sys)
      with (set_job id created sys).
    rewrite bind_run,
      (updateDeploymentStep_run _ _ _ _ _ _ _ (set_job_lookup _ _ _)).
    cbn [ticks outbox]. by rewrite set_job_set_job. }
  rewrite Hrun. cbn [fst snd].
  split; [done|]. split; [done|]. split; [by rewrite set_job_lookup|].
  split; [intros id' Hne; by apply set_job_lookup_ne|].
  split; [|by eexists].
  rewrite (executeFullDeployment_resumes E id environment config _ _
             created (set_job_lookup _ _ _)).
  rewrite (updateDeploymentStep_run _ _ _ _ _ _ _ (set_job_lookup _ _ _)).
  cbn [snd ticks outbox]. by rewrite set_job_set_job.
Qed.

(** Two requests that read the same clock value get the same identifier,
    and the second replaces the job of the first. *)
Example deployFullSystem_same_identifier :
  let first := deployFullSystem Ex.clock_stands_still
                 (Some Ex.staging_request) (new_system, new_world) in
  let second := deployFullSystem Ex.clock_stands_still
                  (Some (DeployRequest.mk None None)) first.2 in
  (λ job, (job.1, DeploymentJob.environment job.2,
           length (DeploymentJob.steps job.2)))
    <$> map_to_list (deploymentStatus second.2.1)
  = [ ("deploy_1700000000000", "production", 1) ].
Proof. vm_compute. reflexivity. Qed.

(** ** Further properties of the probes *)

(** X11. An agent probe never throws. The agent is [healthy] exactly when
    the request resolves with an ok response; a response that is not ok
    and a rejected request both give [unhealthy], the latter with no
    response time and the error message of the rejection. With a clock
    that never goes back a response time is never negative. *)
Theorem checkAgentHealth_absorbs E agentId w :
  let outcome := fetch_health E agentId (S (ticks w)) in
  ∃ h,
    (checkAgentHealth E agentId w).1 = Ok h ∧
    (Health.status h = "healthy" ∨ Health.status h = "unhealthy") ∧
    (Health.status h = "healthy" ↔ outcome = Ok true) ∧
    (Health.response_time h = None ↔ ∃ msg, outcome = Throw msg) ∧
    (∀ msg, outcome = Throw msg → Health.error h = Js.str msg) ∧
    (clock_monotone E →
     ∀ rt, Health.response_time h = Some rt → (0 ≤ rt)%Z).
Proof.
  cbv zeta. unfold checkAgentHealth.
  rewrite try_catch_run, bind_run, Date_now_run. cbv beta iota.
  rewrite bind_run, external_run. cbn [ticks outbox].
  destruct (fetch_health E agentId (S (ticks w))) as [[|]|e].
  - rewrite bind_run, Date_now_run. cbv beta iota.
    rewrite bind_run, Date_now_run. cbv beta iota.
    eexists. split; [reflexivity|]. simpl.
    split; [by left|]. split; [done|]. split; [|split; [done|]].
    + split; [done|]. by intros [msg ?].
    + intros Hmono rt [= <-].
      pose proof (Hmono (ticks w) (S (S (ticks w))) ltac:(lia)). lia.
  - rewrite bind_run, Date_now_run. cbv beta iota.
    rewrite bind_run, Date_now_run. cbv beta iota.
    eexists. split; [reflexivity|]. simpl.
    split; [by right|]. split; [done|]. split; [|split; [done|]].
    + split; [done|]. by intros [msg ?].
    + intros Hmono rt [= <-].
      pose proof (Hmono (ticks w) (S (S (ticks w))) ltac:(lia)). lia.
  - cbv beta iota. rewrite bind_run, Date_now_run. cbv beta iota.
    eexists. split; [reflexivity|]. simpl.
    split; [by right|]. split; [done|]. split; [|split].
    + split; [by exists e|done].
    + by intros msg [= ->].
    + by intros _ rt.
Qed.

Lemma checkAgentHealth_absorbs_witness :
  ∃ h, (checkAgentHealth Ex.quiet_env "lexi-pro" new_world).1 = Ok h ∧
       ∀ rt, Health.response_time h = Some rt → (0 ≤ rt)%Z.
Proof.
  destruct (checkAgentHealth_absorbs Ex.quiet_env "lexi-pro" new_world)
    as (h & Hrun & _ & _ & _ & _ & Hrt).
  exists h. split; [exact Hrun|]. exact (Hrt quiet_clock_monotone).
Defined.

Lemma checkAgentHealth_run E agentId w :
  ∃ h w', checkAgentHealth E agentId w = (Ok h, w') ∧
          (Health.status h = "healthy" ∨ Health.status h = "unhealthy").
Proof.
  unfold checkAgentHealth.
  rewrite try_catch_run, bind_run, Date_now_run. cbv beta iota.
  rewrite bind_run, external_run. cbn [ticks outbox].
  destruct (fetch_health E agentId (S (ticks w))) as [[|]|e].
  - rewrite bind_run, Date_now_run. cbv beta iota.
    rewrite bind_run, Date_now_run. cbv beta iota.
    eexists _, _. split; [reflexivity|]. by left.
  - rewrite bind_run, Date_now_run. cbv beta iota.
    rewrite bind_run, Date_now_run. cbv beta iota.
    eexists _, _. split; [reflexivity|]. by right.
  - cbv beta iota. rewrite bind_run, Date_now_run. cbv beta iota.
    eexists _, _. split; [reflexivity|]. by right.
Qed.

Lemma Forall2_keyed {A B} (Q : A * B → Prop) (xs : list A)
    (ys : list (A * B)) :
  Forall2 (λ x y, y.1 = x ∧ Q y) xs ys → ys.*1 = xs ∧ Forall Q ys.
Proof.
  induction 1 as [|x y xs ys [Hx Hy] _ [IH1 IH2]]; [done|].
  split; [by rewrite fmap_cons, Hx, IH1|by constructor].
Qed.

Lemma checkAgentsHealth_run E w :
  ∃ agents w',
    checkAgentsHealth E w = (Ok agents, w') ∧
    Forall2 (λ (agentId : string) (entry : string * Health.t),
               entry.1 = agentId ∧
               (Health.status entry.2 = "healthy"
                ∨ Health.status entry.2 = "unhealthy"))
            agentIds agents.
Proof.
  unfold checkAgentsHealth. apply for_collect_run.
  intros agentId w0. rewrite bind_run.
  destruct (checkAgentHealth_run E agentId w0) as (h & w1 & -> & Hst).
  by eexists _, _.
Qed.

(** X12. The agent sweep never throws and reports every agent of the
    roster once, in roster order, each as [healthy] or [unhealthy]. *)
Theorem checkAgentsHealth_roster E w :
  ∃ agents,
    (checkAgentsHealth E w).1 = Ok agents ∧
    agents.*1 = agentIds ∧
    Forall (λ entry, Health.status entry.2 = "healthy"
                     ∨ Health.status entry.2 = "unhealthy") agents ∧
    count_unhealthy agents ≤ 11.
Proof.
  destruct (checkAgentsHealth_run E w) as (agents & w' & Hrun & Hall).
  exists agents. rewrite Hrun. split; [done|].
  destruct (Forall2_keyed _ _ _ Hall) as [Hkeys Hstatus].
  split; [done|]. split; [done|].
  unfold count_unhealthy.
  etrans; [apply length_filter|].
  by rewrite length_fmap, <- (length_fmap fst), Hkeys.
Qed.

Lemma checkServicesHealth_run E w :
  (∃ h1 h2 h3 h4 h5 h6 w',
     checkServicesHealth E w =
       (Ok [ ("database", Health.mk "healthy" None Js.undefined);
             ("voice_engine", h1); ("email_system", h2);
             ("payment_system", h3); ("whatsapp_api", h4);
             ("knowledge_base", h5); ("legal_services", h6) ], w'))
  ∨ (∃ msg probe n w',
       checkServicesHealth E w = (Throw msg, w') ∧
       service_probe E probe n = Throw msg).
Proof.
  unfold checkServicesHealth. rewrite bind_run.
  change (checkDatabaseHealth E w)
    with (Ok (Health.mk "healthy" None Js.undefined),
          mkWorld (S (S (S (ticks w)))) (outbox w)).
  cbv beta iota.
  rewrite bind_run, external_run.
  destruct (service_probe E "checkVoiceEngineHealth" _) as [h1|e] eqn:H1;
    cbn [ticks outbox]; [|right; by eexists _, _, _, _].
  rewrite bind_run, external_run.
  destruct (service_probe E "checkEmailSystemHealth" _) as [h2|e] eqn:H2;
    cbn [ticks outbox]; [|right; by eexists _, _, _, _].
  rewrite bind_run, external_run.
  destruct (service_probe E "checkPaymentSystemHealth" _) as [h3|e] eqn:H3;
    cbn [ticks outbox]; [|right; by eexists _, _, _, _].
  rewrite bind_run, external_run.
  destruct (service_probe E "checkWhatsAppAPIHealth" _) as [h4|e] eqn:H4;
    cbn [ticks outbox]; [|right; by eexists _, _, _, _].
  rewrite bind_run, external_run.
  destruct (service_probe E "checkKnowledgeBaseHealth" _) as [h5|e] eqn:H5;
    cbn [ticks outbox]; [|right; by eexists _, _, _, _].
  rewrite bind_run, external_run.
  destruct (service_probe E "checkLegalServicesHealth" _) as [h6|e] eqn:H6;
    cbn [ticks outbox]; [|right; by eexists _, _, _, _].
  left. by eexists _, _, _, _, _, _, _.
Qed.

Tactic Notation "probe_returned" ident(j) ident(Hlt) ident(Hlook) :=
  repeat (destruct j as [|j];
          [cbv in Hlook; injection Hlook as <-; simpl;
           solve [eexists; eassumption]|]);
  cbv in Hlook; first [discriminate Hlook | lia].

(** The case of [checkServicesHealth] in which the probe number [k] is
    the first to throw. *)
Ltac first_probe_throws k :=
  split; [|split];
  [ intros g1 g2 g3 g4 g5 g6 G1 G2 G3 G4 G5 G6; simpl in *; congruence
  | let i := fresh "i" in
    let Hlook := fresh "Hlook" in
    let Hbefore := fresh "Hbefore" in
    let Hthrow := fresh "Hthrow" in
    let Hh := fresh "Hh" in
    intros i probe msg Hlook Hbefore Hthrow;
    destruct i as [|[|[|[|[|[|i]]]]]]; cbv in Hlook;
    try discriminate Hlook; injection Hlook as <-; simpl in Hthrow;
    try (simpl; congruence);
    destruct (Hbefore k _ ltac:(lia) eq_refl) as [? Hh];
    simpl in Hh; congruence
  | right; eexists k, _, _; split; [reflexivity|];
    split; [|simpl; eassumption];
    let j := fresh "j" in
    let Hlt := fresh "Hlt" in
    let Hlook := fresh "Hlook" in
    intros j earlier Hlt Hlook; probe_returned j Hlt Hlook ].

(** X13. Service probes are not absorbed. [checkServicesHealth] reads the
    clock three times for the database entry, which is always [healthy],
    and then calls the six service probes in order. When all six return,
    it returns the seven entries in their fixed order with the results of
    the probes. When a probe throws while the probes before it returned,
    the sweep throws that error, and no later probe is called: the sweep
    ends right after the failing probe. One of the two always happens. *)
Theorem checkServicesHealth_outcome E w :
  let outcome i probe := service_probe E probe (i + 3 + ticks w) in
  (∀ h1 h2 h3 h4 h5 h6,
     outcome 0 "checkVoiceEngineHealth" = Ok h1 →
     outcome 1 "checkEmailSystemHealth" = Ok h2 →
     outcome 2 "checkPaymentSystemHealth" = Ok h3 →
     outcome 3 "checkWhatsAppAPIHealth" = Ok h4 →
     outcome 4 "checkKnowledgeBaseHealth" = Ok h5 →
     outcome 5 "checkLegalServicesHealth" = Ok h6 →
     checkServicesHealth E w
     = (Ok [ ("database", database_healthy); ("voice_engine", h1);
             ("email_system", h2); ("payment_system", h3);
             ("whatsapp_api", h4); ("knowledge_base", h5);
             ("legal_services", h6) ],
        mkWorld (9 + ticks w) (outbox w))) ∧
  (∀ i probe msg,
     service_probes !! i = Some probe →
     (∀ j earlier, j < i → service_probes !! j = Some earlier →
        ∃ h, outcome j earlier = Ok h) →
     outcome i probe = Throw msg →
     checkServicesHealth E w
     = (Throw msg, mkWorld (S (i + 3 + ticks w)) (outbox w))) ∧
  ((∀ i probe, service_probes !! i = Some probe →
      ∃ h, outcome i probe = Ok h)
   ∨ ∃ i probe msg,
       service_probes !! i = Some probe ∧
       (∀ j earlier, j < i → service_probes !! j = Some earlier →
          ∃ h, outcome j earlier = Ok h) ∧
       outcome i probe = Throw msg).
Proof.
  cbv zeta. unfold checkServicesHealth. rewrite bind_run.
  change (checkDatabaseHealth E w)
    with (Ok database_healthy, mkWorld (S (S (S (ticks w)))) (outbox w)).
  cbv beta iota.
  rewrite bind_run, external_run. cbn [ticks outbox].
  destruct (service_probe E "checkVoiceEngineHealth" (S (S (S (ticks w)))))
    as [h1|e] eqn:H1; [|first_probe_throws 0].
  rewrite bind_run, external_run. cbn [ticks outbox].
  destruct (service_probe E "checkEmailSystemHealth"
              (S (S (S (S (ticks w)))))) as [h2|e] eqn:H2;
    [|first_probe_throws 1].
  rewrite bind_run, external_run. cbn [ticks outbox].
  destruct (service_probe E "checkPaymentSystemHealth"
              (S (S (S (S (S (ticks w))))))) as [h3|e] eqn:H3;
    [|first_probe_throws 2].
  rewrite bind_run, external_run. cbn [ticks outbox].
  destruct (service_probe E "checkWhatsAppAPIHealth"
              (S (S (S (S (S (S (ticks w)))))))) as [h4|e] eqn:H4;
    [|first_probe_throws 3].
  rewrite bind_run, external_run. cbn [ticks outbox].
  destruct (service_probe E "checkKnowledgeBaseHealth"
              (S (S (S (S (S (S (S (ticks w))))))))) as [h5|e] eqn:H5;
    [|first_probe_throws 4].
  rewrite bind_run, external_run. cbn [ticks outbox].
  destruct (service_probe E "checkLegalServicesHealth"
              (S (S (S (S (S (S (S (S (ticks w)))))))))) as [h6|e] eqn:H6;
    [|first_probe_throws 5].
  split; [|split].
  - intros g1 g2 g3 g4 g5 g6 G1 G2 G3 G4 G5 G6.
    simpl in G1, G2, G3, G4, G5, G6.
    rewrite H1 in G1. rewrite H2 in G2. rewrite H3 in G3.
    rewrite H4 in G4. rewrite H5 in G5. rewrite H6 in G6.
    injection G1 as <-. injection G2 as <-. injection G3 as <-.
    injection G4 as <-. injection G5 as <-. injection G6 as <-.
    reflexivity.
  - intros i probe msg Hlook _ Hthrow.
    destruct i as [|[|[|[|[|[|i]]]]]]; cbv in Hlook;
      try discriminate Hlook; injection Hlook as <-; simpl in Hthrow;
      congruence.
  - left. intros i probe Hlook.
    assert (i < 6) as Hlt by (by apply lookup_lt_Some in Hlook).
    probe_returned i Hlt Hlook.
Qed.

Lemma checkServicesHealth_outcome_witness :
  checkServicesHealth Ex.payment_probe_fails new_world
  = (Throw "gateway timeout", mkWorld 6 []).
Proof.
  apply (proj1 (proj2 (checkServicesHealth_outcome
                         Ex.payment_probe_fails new_world))
               2 "checkPaymentSystemHealth" "gateway timeout").
  - reflexivity.
  - intros j earlier Hlt Hlook.
    do 2 (destruct j as [|j];
          [injection Hlook as <-; by exists Ex.up|]).
    lia.
  - reflexivity.
Defined.

(** ** Further properties of alert evaluation and dispatch *)

Lemma count_critical_views alerts :
  count_critical alerts
  = length (filter (λ v, v.1.2 = "critical") (alert_view <$> alerts)).
Proof.
  unfold count_critical. induction alerts as [|a alerts IH]; [done|].
  rewrite fmap_cons.
  destruct (decide (Alert.severity a = "critical")) as [Hc|Hc].
  - rewrite !filter_cons_True by done. simpl. by rewrite IH.
  - by rewrite !filter_cons_False by done.
Qed.

Lemma critical_service_views services :
  length (filter (λ v : string * string * Subject, v.1.2 = "critical")
                 (flat_map expected_service_alerts services))
  = count_unhealthy services.
Proof.
  unfold count_unhealthy. induction services as [|[name h] rest IH];
    [done|].
  cbn [flat_map]. rewrite filter_app, length_app, IH, fmap_cons.
  unfold expected_service_alerts. cbn [fst snd].
  destruct (decide (Health.status h = "unhealthy")) as [Hu|Hu].
  - rewrite bool_decide_eq_true_2, filter_cons_True by done.
    by rewrite filter_cons_True by done.
  - rewrite bool_decide_eq_false_2, filter_cons_False by done.
    by rewrite filter_nil.
Qed.

Lemma critical_agent_views agents :
  filter (λ v : string * string * Subject, v.1.2 = "critical")
         (flat_map expected_agent_alerts agents) = [].
Proof.
  induction agents as [|[name h] rest IH]; [done|].
  cbn [flat_map]. rewrite filter_app, IH. unfold expected_agent_alerts.
  cbn [fst snd].
  by destruct (bool_decide _), (Js.gt_or_null _ _).
Qed.

Lemma critical_expected h :
  length (filter (λ v : string * string * Subject, v.1.2 = "critical")
                 (expected_alerts h))
  = count_unhealthy (HealthResults.services h)
    + cpu_critical (HealthResults.infrastructure h).
Proof.
  unfold expected_alerts.
  rewrite !filter_app, !length_app, critical_service_views,
    critical_agent_views.
  unfold expected_infrastructure_alerts, cpu_critical.
  by destruct (Js.gt_or_undefined _ _).
Qed.

(** X14. With the thresholds of [initializeMonitoring], alert evaluation
    never throws and returns, in order: a critical [service_down] alert per
    unhealthy service; per agent a high [agent_down] alert when it is
    unhealthy and a high [performance_degradation] alert when its response
    time exceeds 5000; a critical [resource_critical] alert when
    [cpu_usage] exceeds 85. Its critical alerts are therefore one per
    unhealthy service, plus one for the CPU. *)
Theorem checkForAlerts_default_alerts E h w :
  ∃ alerts,
    (checkForAlerts E default_thresholds h w).1 = Ok alerts ∧
    alert_view <$> alerts = expected_alerts h ∧
    count_critical alerts
    = count_unhealthy (HealthResults.services h)
      + cpu_critical (HealthResults.infrastructure h).
Proof.
  destruct (checkForAlerts_emits E h w) as (alerts & w' & Hrun & Hview).
  exists alerts. rewrite Hrun. split; [done|]. split; [done|].
  by rewrite count_critical_views, Hview, critical_expected.
Qed.

(** X15. Without a threshold for [cpu_usage], alert evaluation throws for
    every health-check result, also for one with nothing wrong. *)
Theorem checkForAlerts_missing_threshold E thresholds h w :
  thresholds !! "cpu_usage" = None →
  ∃ msg, (checkForAlerts E thresholds h w).1 = Throw msg.
Proof.
  intros Hnone. unfold checkForAlerts. rewrite bind_run.
  destruct (for_collect_run
              (λ x ys, alert_view <$> ys = expected_service_alerts x)
              (HealthResults.services h) (service_alert E)
              (service_alert_run E) w) as (ss & w1 & -> & _).
  rewrite bind_run.
  destruct (for_collect (HealthResults.agents h) (agent_alerts E thresholds)
                        w1) as [[aa|e] w2]; [|by exists e].
  rewrite bind_run. unfold infrastructure_alerts.
  rewrite bind_run. unfold critical_threshold. rewrite Hnone.
  by eexists.
Qed.

Lemma checkForAlerts_missing_threshold_witness :
  ∃ msg, (checkForAlerts Ex.quiet_env ∅ Ex.previous_result new_world).1
         = Throw msg.
Proof.
  apply checkForAlerts_missing_threshold. reflexivity.
Defined.

(** X16. When every channel call is accepted, a dispatch sends each alert
    by mail and each critical alert by WhatsApp as well, in the order of
    the list, and nothing else. *)
Theorem sendHealthAlerts_all_delivered E alerts w :
  (∀ call n, call ∈ channel_calls alerts → call_outcome E call n = Ok tt) →
  outbox (sendHealthAlerts E alerts w).2 = outbox w ++ channel_calls alerts.
Proof.
  intros Hok. unfold sendHealthAlerts.
  rewrite try_catch_run, dispatch_loop_calls.
  destruct (for_of_calls E (channel_calls alerts) w)
    as (n & Hout & _ & Hend).
  assert (n = length (channel_calls alerts)) as ->.
  { destruct Hend as [[-> _]|(c & msg & Hl & Hthrow & _)]; [done|].
    rewrite Hok in Hthrow; [done|]. by eapply list_elem_of_lookup_2. }
  rewrite firstn_all in Hout.
  by destruct (for_of (channel_calls alerts) (do_call E) w) as [[[]|e] w'].
Qed.

Lemma sendHealthAlerts_all_delivered_witness :
  outbox (sendHealthAlerts Ex.quiet_env [Ex.a1; Ex.critical_alert]
                           new_world).2
  = [ (Email, Ex.a1); (Email, Ex.critical_alert);
      (WhatsApp, Ex.critical_alert) ].
Proof.
  apply (sendHealthAlerts_all_delivered Ex.quiet_env
           [Ex.a1; Ex.critical_alert] new_world).
  intros [[] alert] n _; reflexivity.
Defined.

(** ** Further properties of the comprehensive health check *)

Lemma alertThresholds_set_heap hp sys :
  alertThresholds (set_heap hp sys) = alertThresholds sys.
Proof. reflexivity. Qed.

(** With the default thresholds the [try] block of a health check throws
    only from a service probe or the infrastructure probe; when it runs to
    its end, the result object holds what the probes returned, the status
    evaluated before the alerts were there, and the alerts evaluated
    last. *)
Lemma performHealthChecks_try_default E hp h0 sys w :
  alertThresholds sys = default_thresholds →
  (∃ services agents infra alerts w',
     services.*1 = service_names ∧
     agents.*1 = agentIds ∧
     let probed :=
       HealthResults.mk (HealthResults.timestamp h0)
         (HealthResults.overall_status h0) services agents infra
         (HealthResults.alerts h0) (HealthResults.error h0) in
     let h' :=
       HealthResults.mk (HealthResults.timestamp h0)
         (evaluateOverallHealth probed) services agents infra alerts
         (HealthResults.error h0) in
     alert_view <$> alerts = expected_alerts h' ∧
     performHealthChecks_try E (length hp) (set_heap (hp ++ [h0]) sys, w)
     = (Ok tt,
        (set_heap (hp ++ [h'])
           (with_systemHealth
              (λ m, <["overall_status" :=
                        HStatus (HealthResults.overall_status h')]>
                      (<["last_health_check" := HRef (length hp)]> m))
              sys), w')))
  ∨ (∃ msg h' w',
       performHealthChecks_try E (length hp) (set_heap (hp ++ [h0]) sys, w)
       = (Throw msg, (set_heap (hp ++ [h']) sys, w'))).
Proof.
  intros Hth. unfold performHealthChecks_try.
  rewrite bind_run, lift_run.
  destruct (checkServicesHealth_run E w)
    as [(h1 & h2 & h3 & h4 & h5 & h6 & w1 & ->)
       |(msg & probe & n & w1 & -> & _)];
    cbn [fst snd]; [|right; by eexists _, _, _].
  set (services := [ ("database", _); ("voice_engine", h1);
                     ("email_system", h2); ("payment_system", h3);
                     ("whatsapp_api", h4); ("knowledge_base", h5);
                     ("legal_services", h6) ]).
  assert (services.*1 = service_names) as Hnames by reflexivity.
  rewrite bind_run, assign_run, bind_run, lift_run.
  destruct (checkAgentsHealth_run E w1) as (agents & w2 & -> & Hall).
  destruct (Forall2_keyed _ _ _ Hall) as [Hroster _].
  cbn [fst snd].
  rewrite bind_run, assign_run, bind_run, lift_run.
  destruct (external (infrastructure_probe E) w2) as [[infra|e] w3];
    cbn [fst snd]; [|right; by eexists _, _, _].
  rewrite bind_run, assign_run, bind_run, deref_run.
  rewrite bind_run, assign_run, bind_run, deref_run.
  rewrite bind_run, gets_run. cbv beta iota. cbn [fst].
  rewrite alertThresholds_set_heap, Hth.
  rewrite bind_run, lift_run.
  match goal with
  | |- context [checkForAlerts E default_thresholds ?h w3] =>
      destruct (checkForAlerts_emits E h w3) as (alerts & w4 & -> & Hview)
  end.
  cbn [fst snd].
  rewrite bind_run, assign_run, bind_run, systemHealth_set_run.
  rewrite bind_run, deref_run, bind_run, systemHealth_set_run.
  rewrite bind_run, deref_run.
  left. cbn [HealthResults.alerts HealthResults.set_alerts].
  destruct (0 <? length alerts).
  - rewrite lift_run.
    pose proof (sendHealthAlerts_returns E alerts w4) as Hret.
    destruct (sendHealthAlerts E alerts w4) as [r5 w5].
    cbn [fst snd] in Hret |- *. subst r5.
    by eexists services, agents, infra, alerts, _.
  - by eexists services, agents, infra, alerts, _.
Qed.

Lemma evaluateOverallHealth_no_alerts h :
  HealthResults.alerts h = [] →
  (evaluateOverallHealth h = "critical" ↔
     2 < count_unhealthy (HealthResults.services h)).
Proof.
  intros Hnil. unfold evaluateOverallHealth. rewrite Hnil. simpl.
  destruct (Nat.ltb_spec 2 (count_unhealthy (HealthResults.services h))),
    (Nat.ltb_spec 0 (count_unhealthy (HealthResults.services h))),
    (Nat.ltb_spec 3 (count_unhealthy (HealthResults.agents h))),
    (Nat.ltb_spec 0 (count_unhealthy (HealthResults.agents h)));
    simpl; split; intros; try discriminate; try lia; done.
Qed.

(** A health check that runs to its end under the default thresholds. *)
Lemma performHealthChecks_run_default E sys w :
  alertThresholds sys = default_thresholds →
  (performHealthChecks_try E (length (heap sys))
     (health_check_started E (sys, w))).1 = Ok tt →
  ∃ h,
    last_health_check (performHealthChecks E (sys, w)).2.1 = Some h ∧
    systemHealth (performHealthChecks E (sys, w)).2.1 !! "overall_status"
      = Some (HStatus (HealthResults.overall_status h)) ∧
    HealthResults.timestamp h = clock E (ticks w) ∧
    (HealthResults.services h).*1 = service_names ∧
    (HealthResults.agents h).*1 = agentIds ∧
    alert_view <$> HealthResults.alerts h = expected_alerts h ∧
    HealthResults.overall_status h
      = evaluateOverallHealth (HealthResults.set_alerts [] h).
Proof.
  intros Hth Hok. unfold health_check_started in Hok. cbn [fst snd] in Hok.
  unfold performHealthChecks.
  rewrite bind_run, lift_run, Date_now_run. cbn [fst snd].
  rewrite bind_run, alloc_run, try_catch_run.
  fold (fresh_result (clock E (ticks w))) in *.
  destruct (performHealthChecks_try_default E (heap sys)
              (fresh_result (clock E (ticks w))) sys
              (mkWorld (S (ticks w)) (outbox w)) Hth)
    as [(services & agents & infra & alerts & w' & Hnames & Hroster & Hrun)
       |(msg & h' & w' & Hrun)]; cbv zeta in Hrun.
  - destruct Hrun as [Hview Hrun]. rewrite Hrun. cbn [fst snd].
    eexists. split.
    + unfold last_health_check. simpl.
      rewrite lookup_insert_ne, lookup_insert_eq by done.
      rewrite lookup_app_r, Nat.sub_diag by done. reflexivity.
    + simpl. rewrite lookup_insert_eq. done.
  - rewrite Hrun in Hok. discriminate Hok.
Qed.

(** X17. A health check that runs to its end stores the new result and
    its status, but the status was evaluated while the result had no
    alerts yet: under the default thresholds the stored status is
    [critical] exactly when more than two services are unhealthy, however
    many critical alerts the stored result holds. *)
Theorem performHealthChecks_status_ignores_alerts E sys w :
  alertThresholds sys = default_thresholds →
  (performHealthChecks_try E (length (heap sys))
     (health_check_started E (sys, w))).1 = Ok tt →
  let s' := (performHealthChecks E (sys, w)).2 in
  ∃ h,
    last_health_check s'.1 = Some h ∧
    systemHealth s'.1 !! "overall_status"
      = Some (HStatus (HealthResults.overall_status h)) ∧
    HealthResults.overall_status h
      = evaluateOverallHealth (HealthResults.set_alerts [] h) ∧
    (HealthResults.overall_status h = "critical" ↔
       2 < count_unhealthy (HealthResults.services h)) ∧
    count_critical (HealthResults.alerts h)
      = count_unhealthy (HealthResults.services h)
        + cpu_critical (HealthResults.infrastructure h).
Proof.
  intros Hth Hok. cbv zeta.
  destruct (performHealthChecks_run_default E sys w Hth Hok)
    as (h & Hlast & Hstored & _ & _ & _ & Hview & Hstatus).
  exists h. split; [done|]. split; [done|]. split; [done|]. split.
  - rewrite Hstatus.
    by apply (evaluateOverallHealth_no_alerts
                (HealthResults.set_alerts [] h)).
  - by rewrite count_critical_views, Hview, critical_expected.
Qed.

Lemma performHealthChecks_status_ignores_alerts_witness :
  ∃ h,
    last_health_check
      (performHealthChecks Ex.voice_engine_down
         (Ex.monitored, new_world)).2.1 = Some h ∧
    (HealthResults.overall_status h = "critical" ↔
       2 < count_unhealthy (HealthResults.services h)).
Proof.
  assert (H1 : alertThresholds Ex.monitored = default_thresholds)
    by reflexivity.
  assert (H2 : (performHealthChecks_try Ex.voice_engine_down
                  (length (heap Ex.monitored))
                  (health_check_started Ex.voice_engine_down
                     (Ex.monitored, new_world))).1 = Ok tt)
    by (vm_compute; reflexivity).
  destruct (performHealthChecks_status_ignores_alerts
              Ex.voice_engine_down Ex.monitored new_world H1 H2)
    as (h & Hlast & _ & _ & Hcrit & _).
  exists h. split; [exact Hlast|exact Hcrit].
Defined.

(** X18. After a health check that runs to its end under the default
    thresholds, the health score of the stored result is 100 minus 25 per
    unhealthy service (10 for the service and 15 for the critical alert it
    raised), 5 per unhealthy agent and 15 for a critical CPU reading,
    floored at 0; the result lists the seven services and the eleven
    agents. *)
Theorem performHealthChecks_stored_score E sys w :
  alertThresholds sys = default_thresholds →
  (performHealthChecks_try E (length (heap sys))
     (health_check_started E (sys, w))).1 = Ok tt →
  let s' := (performHealthChecks E (sys, w)).2 in
  ∃ h,
    last_health_check s'.1 = Some h ∧
    length (HealthResults.services h) = 7 ∧
    length (HealthResults.agents h) = 11 ∧
    calculateHealthScore (last_health_check s'.1)
    = Z.max 0
        (100 - 25 * Z.of_nat (count_unhealthy (HealthResults.services h))
         - 5 * Z.of_nat (count_unhealthy (HealthResults.agents h))
         - 15 * Z.of_nat (cpu_critical (HealthResults.infrastructure h)))%Z.
Proof.
  intros Hth Hok. cbv zeta.
  destruct (performHealthChecks_run_default E sys w Hth Hok)
    as (h & Hlast & _ & _ & Hnames & Hroster & Hview & _).
  exists h. split; [done|].
  split; [by rewrite <- (length_fmap fst), Hnames|].
  split; [by rewrite <- (length_fmap fst), Hroster|].
  rewrite Hlast. unfold calculateHealthScore. cbv zeta.
  rewrite count_critical_views, Hview, critical_expected. lia.
Qed.

Lemma performHealthChecks_stored_score_witness :
  ∃ h,
    last_health_check
      (performHealthChecks Ex.voice_engine_down
         (Ex.monitored, new_world)).2.1 = Some h ∧
    length (HealthResults.services h) = 7 ∧
    length (HealthResults.agents h) = 11.
Proof.
  assert (H1 : alertThresholds Ex.monitored = default_thresholds)
    by reflexivity.
  assert (H2 : (performHealthChecks_try Ex.voice_engine_down
                  (length (heap Ex.monitored))
                  (health_check_started Ex.voice_engine_down
                     (Ex.monitored, new_world))).1 = Ok tt)
    by (vm_compute; reflexivity).
  destruct (performHealthChecks_stored_score
              Ex.voice_engine_down Ex.monitored new_world H1 H2)
    as (h & Hlast & Hs & Ha & _).
  exists h. split; [exact Hlast|]. split; [exact Hs|exact Ha].
Defined.

(** With the voice engine down and nothing else wrong the stored result
    scores 75. *)
Example performHealthChecks_score_75 :
  calculateHealthScore
    (last_health_check
       (performHealthChecks Ex.voice_engine_down
          (Ex.monitored, new_world)).2.1) = 75%Z.
Proof. vm_compute. reflexivity. Qed.

(** ** Reading the health state *)

Lemma getSystemHealth_run E sys w :
  getSystemHealth E (sys, w) =
    (Ok (match systemHealth sys !! "uptime_start" with
         | Some (HDate d) =>
             json (SystemHealthReport.mk
                     (systemHealth sys !! "overall_status")
                     (clock E (ticks w) - d)%Z
                     (HealthResults.timestamp <$> last_health_check sys)
                     "1.0.0" (process_env E !! "NODE_ENV") 11
                     (match last_health_check sys with
                      | Some hc => length (HealthResults.services hc)
                      | None => 0
                      end)
                     (calculateHealthScore (last_health_check sys)))
         | _ => status_500
                  "Cannot read properties of undefined (reading 'getTime')"
         end),
     (sys, mkWorld (S (ticks w)) (outbox w))).
Proof.
  unfold getSystemHealth.
  rewrite try_catch_run, bind_run, gets_run. cbv beta iota.
  rewrite bind_run, gets_run. cbv beta iota.
  rewrite bind_run, gets_run. cbv beta iota.
  rewrite bind_run, lift_run, Date_now_run. cbn [fst snd].
  rewrite bind_run. unfold getTime.
  by destruct (systemHealth sys !! "uptime_start") as [[| |]|].
Qed.

(** X19. [getSystemHealth] never throws and changes nothing of the
    instance. It answers with status 500 exactly when no start date is
    stored under [uptime_start]; otherwise the body carries the stored
    status, the uptime since the start date and the health score of the
    last stored result. *)
Theorem getSystemHealth_responds E sys w :
  ∃ resp,
    getSystemHealth E (sys, w)
      = (Ok resp, (sys, mkWorld (S (ticks w)) (outbox w))) ∧
    ((∃ error, resp = status_500 error) ↔
       ¬ ∃ d, systemHealth sys !! "uptime_start" = Some (HDate d)) ∧
    (∀ d, systemHealth sys !! "uptime_start" = Some (HDate d) →
       ∃ body,
         resp = json body ∧
         SystemHealthReport.overall_status body
           = systemHealth sys !! "overall_status" ∧
         SystemHealthReport.uptime body = (clock E (ticks w) - d)%Z ∧
         SystemHealthReport.health_score body
           = calculateHealthScore (last_health_check sys)).
Proof.
  rewrite getSystemHealth_run. eexists. split; [reflexivity|].
  destruct (systemHealth sys !! "uptime_start") as [[st|d|r]|]; split;
    try (intros d' [= <-]; by eexists);
    try (intros d' Hd; discriminate Hd);
    split;
    try (intros _ [d' Hd]; discriminate Hd);
    try (intros _; by eexists);
    try (intros [error Herr]; discriminate Herr);
    intros Hnot; exfalso; apply Hnot; by eexists.
Qed.

(** X20. As long as no health check has stored a result, the report
    shows a health score of 0, no running services and no check date,
    whatever the stored status says: on a new instance the status is
    [healthy] and the score 0. *)
Theorem getSystemHealth_before_first_check E sys w d :
  last_health_check sys = None →
  systemHealth sys !! "uptime_start" = Some (HDate d) →
  ∃ body,
    (getSystemHealth E (sys, w)).1 = Ok (json body) ∧
    SystemHealthReport.health_score body = 0%Z ∧
    SystemHealthReport.services_running body = 0 ∧
    SystemHealthReport.last_check body = None ∧
    SystemHealthReport.overall_status body
      = systemHealth sys !! "overall_status".
Proof.
  intros Hlast Hstart. rewrite getSystemHealth_run, Hstart, Hlast.
  by eexists.
Qed.

Lemma getSystemHealth_before_first_check_witness :
  ∃ body,
    (getSystemHealth Ex.quiet_env
       (initializeMonitoring Ex.quiet_env (new_system, new_world)).2).1
      = Ok (json body) ∧
    SystemHealthReport.health_score body = 0%Z ∧
    SystemHealthReport.overall_status body = Some (HStatus "healthy").
Proof.
  destruct (getSystemHealth_before_first_check Ex.quiet_env
              (initializeMonitoring Ex.quiet_env (new_system, new_world)).2.1
              (initializeMonitoring Ex.quiet_env (new_system, new_world)).2.2
              1%Z eq_refl eq_refl)
    as (body & Hrun & Hscore & _ & _ & Hstatus).
  exists body. split; [exact Hrun|]. split; [exact Hscore|].
  rewrite Hstatus. reflexivity.
Defined.

(** ** Further properties of metrics collection *)

Lemma collectPerformanceMetrics_ok E sys w system agents api business :
  metric_source E "getSystemMetrics" (S (ticks w)) = Ok system →
  metric_source E "getAgentMetrics" (S (S (ticks w))) = Ok agents →
  metric_source E "getAPIMetrics" (S (S (S (ticks w)))) = Ok api →
  metric_source E "getBusinessMetrics" (S (S (S (S (ticks w)))))
    = Ok business →
  collectPerformanceMetrics E (sys, w) =
    (Ok tt,
     (with_monitoringMetrics
        (λ m, retain (<[clock E (S (S (S (S (S (ticks w)))))) :=
                          collected_sample E (ticks w) system agents api
                                           business]> m)) sys,
      mkWorld (S (S (S (S (S (S (ticks w))))))) (outbox w))).
Proof.
  intros H1 H2 H3 H4. unfold collectPerformanceMetrics. cbv zeta.
  rewrite bind_run, lift_run, Date_now_run. cbn [fst snd].
  rewrite bind_run, lift_run, external_run. cbn [fst snd ticks outbox].
  rewrite H1. cbv beta iota.
  rewrite bind_run, lift_run, external_run. cbn [fst snd ticks outbox].
  rewrite H2. cbv beta iota.
  rewrite bind_run, lift_run, external_run. cbn [fst snd ticks outbox].
  rewrite H3. cbv beta iota.
  rewrite bind_run, lift_run, external_run. cbn [fst snd ticks outbox].
  rewrite H4. cbv beta iota.
  rewrite bind_run, lift_run, Date_now_run. cbn [fst snd ticks outbox].
  eff_unfold. unfold retain, collected_sample, with_monitoringMetrics.
  simpl.
  destruct (1000 <? size _); [|done].
  by destruct (Js.Math_min _).
Qed.

(** X21. Metrics collection is all or nothing: it returns exactly when
    the four metric getters return, and when one of them throws the error
    is passed on and nothing of the instance has changed, so no partial
    sample is stored. *)
Theorem collectPerformanceMetrics_all_or_nothing E sys w :
  let r := collectPerformanceMetrics E (sys, w) in
  (r.1 = Ok tt ↔
     ∃ system agents api business,
       metric_source E "getSystemMetrics" (S (ticks w)) = Ok system ∧
       metric_source E "getAgentMetrics" (S (S (ticks w))) = Ok agents ∧
       metric_source E "getAPIMetrics" (S (S (S (ticks w)))) = Ok api ∧
       metric_source E "getBusinessMetrics" (S (S (S (S (ticks w)))))
         = Ok business) ∧
  (∀ msg, r.1 = Throw msg →
     r.2.1 = sys ∧ ∃ getter n, metric_source E getter n = Throw msg).
Proof.
  cbv zeta.
  destruct (metric_source E "getSystemMetrics" (S (ticks w)))
    as [system|e1] eqn:H1;
  [destruct (metric_source E "getAgentMetrics" (S (S (ticks w))))
     as [agents|e2] eqn:H2;
   [destruct (metric_source E "getAPIMetrics" (S (S (S (ticks w)))))
      as [api|e3] eqn:H3;
    [destruct (metric_source E "getBusinessMetrics"
                 (S (S (S (S (ticks w)))))) as [business|e4] eqn:H4| ]| ]| ].
  - rewrite (collectPerformanceMetrics_ok _ _ _ _ _ _ _ H1 H2 H3 H4).
    cbn [fst snd]. split; [|done]. split; [|done].
    intros _. by exists system, agents, api, business.
  - unfold collectPerformanceMetrics. cbv zeta.
    rewrite bind_run, lift_run, Date_now_run. cbn [fst snd].
    rewrite bind_run, lift_run, external_run. cbn [fst snd ticks outbox].
    rewrite H1. cbv beta iota.
    rewrite bind_run, lift_run, external_run. cbn [fst snd ticks outbox].
    rewrite H2. cbv beta iota.
    rewrite bind_run, lift_run, external_run. cbn [fst snd ticks outbox].
    rewrite H3. cbv beta iota.
    rewrite bind_run, lift_run, external_run. cbn [fst snd ticks outbox].
    rewrite H4. cbv beta iota. split.
    + split; [done|]. by intros (? & ? & ? & ? & _ & _ & _ & ?).
    + intros msg [= <-]. split; [done|]. by eexists _, _.
  - unfold collectPerformanceMetrics. cbv zeta.
    rewrite bind_run, lift_run, Date_now_run. cbn [fst snd].
    rewrite bind_run, lift_run, external_run. cbn [fst snd ticks outbox].
    rewrite H1. cbv beta iota.
    rewrite bind_run, lift_run, external_run. cbn [fst snd ticks outbox].
    rewrite H2. cbv beta iota.
    rewrite bind_run, lift_run, external_run. cbn [fst snd ticks outbox].
    rewrite H3. cbv beta iota. split.
    + split; [done|]. by intros (? & ? & ? & ? & _ & _ & ? & _).
    + intros msg [= <-]. split; [done|]. by eexists _, _.
  - unfold collectPerformanceMetrics. cbv zeta.
    rewrite bind_run, lift_run, Date_now_run. cbn [fst snd].
    rewrite bind_run, lift_run, external_run. cbn [fst snd ticks outbox].
    rewrite H1. cbv beta iota.
    rewrite bind_run, lift_run, external_run. cbn [fst snd ticks outbox].
    rewrite H2. cbv beta iota. split.
    + split; [done|]. by intros (? & ? & ? & ? & _ & ? & _ & _).
    + intros msg [= <-]. split; [done|]. by eexists _, _.
  - unfold collectPerformanceMetrics. cbv zeta.
    rewrite bind_run, lift_run, Date_now_run. cbn [fst snd].
    rewrite bind_run, lift_run, external_run. cbn [fst snd ticks outbox].
    rewrite H1. cbv beta iota. split.
    + split; [done|]. by intros (? & ? & ? & ? & ? & _ & _ & _).
    + intros msg [= <-]. split; [done|]. by eexists _, _.
Qed.

Lemma collectPerformanceMetrics_all_or_nothing_witness :
  (collectPerformanceMetrics Ex.api_metrics_fail
     (Ex.full_system, new_world)).2.1 = Ex.full_system.
Proof.
  apply (collectPerformanceMetrics_all_or_nothing Ex.api_metrics_fail
           Ex.full_system new_world)
    with (msg := "api metrics unavailable").
  reflexivity.
Defined.

(** X22. Below capacity, or when the key is already present, a
    collection that succeeds only inserts: the sample can be read back
    under the clock reading that was its key, it carries the clock reading
    taken when the collection began, every other entry is kept, and a
    sample already stored under the same clock reading is overwritten. *)
Theorem collectPerformanceMetrics_stores
    E sys w system agents api business :
  metric_source E "getSystemMetrics" (S (ticks w)) = Ok system →
  metric_source E "getAgentMetrics" (S (S (ticks w))) = Ok agents →
  metric_source E "getAPIMetrics" (S (S (S (ticks w)))) = Ok api →
  metric_source E "getBusinessMetrics" (S (S (S (S (ticks w)))))
    = Ok business →
  let now := clock E (S (S (S (S (S (ticks w)))))) in
  let before := monitoringMetrics sys in
  let after := monitoringMetrics (collectPerformanceMetrics E (sys, w)).2.1 in
  size before ≤ 1000 →
  size before < 1000 ∨ is_Some (before !! now) →
  after !! now
    = Some (collected_sample E (ticks w) system agents api business) ∧
  (∀ k, k ≠ now → after !! k = before !! k) ∧
  size after ≤ 1000.
Proof.
  intros H1 H2 H3 H4. cbv zeta. intros Hsize Hroom.
  rewrite (collectPerformanceMetrics_ok _ _ _ _ _ _ _ H1 H2 H3 H4).
  cbn [fst snd]. unfold with_monitoringMetrics. cbn [monitoringMetrics].
  set (now := clock E (S (S (S (S (S (ticks w))))))) in *.
  set (sample := collected_sample E (ticks w) system agents api business).
  assert (size (<[now := sample]> (monitoringMetrics sys)) ≤ 1000) as Hins.
  { rewrite map_size_insert.
    destruct Hroom as [Hlt|[old Hold]].
    - destruct (monitoringMetrics sys !! now); simpl; lia.
    - by rewrite Hold. }
  rewrite retain_keeps by done.
  split; [apply lookup_insert_eq|]. split; [|done].
  intros k Hk. by apply lookup_insert_ne.
Qed.

Lemma collectPerformanceMetrics_stores_witness :
  monitoringMetrics
    (collectPerformanceMetrics Ex.quiet_env (new_system, new_world)).2.1
    !! 5%Z = Some (Ex.sample 0).
Proof.
  apply (collectPerformanceMetrics_stores Ex.quiet_env new_system new_world
           [] [] [] [] eq_refl eq_refl eq_refl eq_refl).
  - vm_compute. lia.
  - left. vm_compute. lia.
Defined.

(** X23. At capacity, a collection under a key that is not yet present
    keeps the new sample only when its key is not the smallest: if the
    clock reading is older than every stored key the sample itself is
    evicted at once and the store is as before; otherwise the sample is
    stored and the store stays at 1000 entries. *)
Theorem collectPerformanceMetrics_at_capacity
    E sys w system agents api business :
  metric_source E "getSystemMetrics" (S (ticks w)) = Ok system →
  metric_source E "getAgentMetrics" (S (S (ticks w))) = Ok agents →
  metric_source E "getAPIMetrics" (S (S (S (ticks w)))) = Ok api →
  metric_source E "getBusinessMetrics" (S (S (S (S (ticks w)))))
    = Ok business →
  let now := clock E (S (S (S (S (S (ticks w)))))) in
  let before := monitoringMetrics sys in
  let after := monitoringMetrics (collectPerformanceMetrics E (sys, w)).2.1 in
  size before = 1000 →
  before !! now = None →
  ((∀ k, k ∈ dom before → (now < k)%Z) → after = before) ∧
  ((∃ k, k ∈ dom before ∧ (k < now)%Z) →
     after !! now
       = Some (collected_sample E (ticks w) system agents api business) ∧
     size after = 1000).
Proof.
  intros H1 H2 H3 H4. cbv zeta. intros Hsize Hfresh.
  rewrite (collectPerformanceMetrics_ok _ _ _ _ _ _ _ H1 H2 H3 H4).
  cbn [fst snd]. unfold with_monitoringMetrics. cbn [monitoringMetrics].
  set (now := clock E (S (S (S (S (S (ticks w))))))) in *.
  set (sample := collected_sample E (ticks w) system agents api business).
  assert (size (<[now := sample]> (monitoringMetrics sys)) = 1001) as Hins.
  { by rewrite map_size_insert_None, Hsize. }
  destruct (retain_evicts (<[now := sample]> (monitoringMetrics sys)))
    as (oldest & Hin & Hmin & -> & _); [lia|].
  assert (now ∈ dom (<[now := sample]> (monitoringMetrics sys))) as Hnow.
  { apply elem_of_dom. rewrite lookup_insert_eq. by eexists. }
  split.
  - intros Holder.
    assert (oldest = now) as ->.
    { destruct (decide (oldest = now)) as [|Hne]; [done|].
      apply elem_of_dom in Hin. rewrite lookup_insert_ne in Hin by done.
      apply elem_of_dom in Hin.
      pose proof (Holder oldest Hin). pose proof (Hmin now Hnow). lia. }
    by rewrite delete_insert_eq, delete_id.
  - intros (k & Hk & Hlt).
    assert (oldest ≠ now) as Hne.
    { intros ->.
      assert (k ∈ dom (<[now := sample]> (monitoringMetrics sys))) as Hk'.
      { apply elem_of_dom. rewrite lookup_insert_ne by lia.
        by apply elem_of_dom. }
      pose proof (Hmin k Hk'). lia. }
    split.
    + rewrite lookup_delete_ne by done. apply lookup_insert_eq.
    + rewrite map_size_delete_Some by (by apply elem_of_dom). lia.
Qed.

Lemma full_store_keys k :
  k ∈ dom Ex.full_store → (-1000 ≤ k ≤ -1)%Z.
Proof.
  intros [v Hv]%elem_of_dom. unfold Ex.full_store in Hv.
  apply elem_of_list_to_map_2 in Hv.
  apply list_elem_of_In, in_map_iff in Hv as (i & Heq & Hi).
  apply in_seq in Hi. injection Heq as <- _. lia.
Qed.

Lemma collectPerformanceMetrics_at_capacity_witness :
  monitoringMetrics
    (collectPerformanceMetrics Ex.quiet_env (Ex.full_system, new_world)).2.1
    !! 5%Z = Some (Ex.sample 0) ∧
  monitoringMetrics
    (collectPerformanceMetrics Ex.clock_set_back
       (Ex.full_system, new_world)).2.1 = Ex.full_store.
Proof.
  assert (Hsize : size (monitoringMetrics Ex.full_system) = 1000)
    by (vm_compute; reflexivity).
  split.
  - apply (collectPerformanceMetrics_at_capacity Ex.quiet_env
             Ex.full_system new_world [] [] [] []
             eq_refl eq_refl eq_refl eq_refl Hsize).
    + vm_compute. reflexivity.
    + exists (-1)%Z. split; [|simpl; lia].
      apply elem_of_dom. vm_compute. by eexists.
  - apply (collectPerformanceMetrics_at_capacity Ex.clock_set_back
             Ex.full_system new_world [] [] [] []
             eq_refl eq_refl eq_refl eq_refl Hsize).
    + vm_compute. reflexivity.
    + intros k Hk. apply full_store_keys in Hk. simpl. lia.
Defined.
